(** * AI Story Game: response normalisation, story engine and session registry

    A shallow embedding of the JavaScript sources

      - [ai-story-game copy/src/index.js]     (module [CopyIndex])
      - [ai-story-game copy/src/gameState.js] (module [CopyGame])
      - [ai-story-game-main/src/gameState.js] (module [MainGame])
      - the main variant's server file        (module [MainIndex])

    JavaScript values are an inductive type, exceptions are an explicit
    completion type, and the mutable engine, the session map and the remote
    generation service are threaded through a state-and-exception monad. *)

From Stdlib Require Import ZArith Ascii String List Lia Bool.
From stdpp Require Import base option list strings pretty gmap.

Local Open Scope Z_scope.
Local Set Warnings "-register-all".

(** ** JavaScript values *)

Module Js.

(** Numbers: the integers and [NaN].  Every number the sources compute with is
    an index, a length or a time stamp; a fractional number behaves like a
    non-zero integer in every test made on it below. *)
Inductive JsNumber : Type :=
| Num (z : Z)
| NaN.

(** [JExotic] is an object all of whose property reads throw (an accessor
    property or a [Proxy] trap): [typeof] is ['object'], it is truthy and it
    is not an array.  [JFun arity src] is a function that carries no data
    property of its own: [typeof] is ['function'], it is truthy,
    [length] is its [arity], every other name the sources read is
    [undefined] on it, [String] gives its source text [src], and
    [JSON.stringify] gives [undefined]. *)
Inductive JsVal : Type :=
| JUndefined
| JNull
| JBool (b : bool)
| JNum (n : JsNumber)
| JStr (s : string)
| JArr (elems : list JsVal)
| JObj (fields : list (string * JsVal))
| JExotic
| JFun (arity : nat) (src : string).

(** A completion is a normal value or a thrown value. *)
Inductive Completion (A : Type) : Type :=
| Normal (a : A)
| Throw (e : JsVal).
Arguments Normal {A} a.
Arguments Throw {A} e.

#[export] Instance Completion_ret : MRet Completion := @Normal.
#[export] Instance Completion_bind : MBind Completion :=
  fun A B k m => match m with Normal a => k a | Throw e => Throw e end.

(** [try { m } catch (e) { h e }] *)
Definition try_catch {A} (m : Completion A) (h : JsVal -> Completion A) : Completion A :=
  match m with Normal a => Normal a | Throw e => h e end.

(** [new Error(msg)] and the engine's own [TypeError]s. *)
Definition Error (msg : string) : JsVal := JObj [("message", JStr msg)].
Definition TypeError (msg : string) : JsVal :=
  JObj [("name", JStr "TypeError"); ("message", JStr msg)].

Definition num_truthy (n : JsNumber) : bool :=
  match n with Num z => negb (z =? 0) | NaN => false end.

(** ToBoolean *)
Definition truthy (v : JsVal) : bool :=
  match v with
  | JUndefined | JNull => false
  | JBool b => b
  | JNum n => num_truthy n
  | JStr s => negb (String.eqb s "")
  | JArr _ | JObj _ | JExotic | JFun _ _ => true
  end.

Definition typeof (v : JsVal) : string :=
  match v with
  | JUndefined => "undefined"
  | JNull | JArr _ | JObj _ | JExotic => "object"
  | JBool _ => "boolean"
  | JNum _ => "number"
  | JStr _ => "string"
  | JFun _ _ => "function"
  end.

Definition Array_isArray (v : JsVal) : bool :=
  match v with JArr _ => true | _ => false end.

Fixpoint assoc (p : string) (fields : list (string * JsVal)) : JsVal :=
  match fields with
  | [] => JUndefined
  | (k, v) :: rest => if String.eqb k p then v else assoc p rest
  end.

Definition arr_length (l : list JsVal) : JsVal := JNum (Num (Z.of_nat (length l))).

(** [v.p] for a fixed property name [p].  The names read by the sources are
    data fields, and [length]; none of them is found on a prototype. *)
Definition Get (v : JsVal) (p : string) : Completion JsVal :=
  match v with
  | JUndefined | JNull => Throw (TypeError "Cannot read properties of undefined or null")
  | JExotic => Throw (Error "property read failed")
  | JObj fields => Normal (assoc p fields)
  | JArr l => Normal (if String.eqb p "length" then arr_length l else JUndefined)
  | JStr s => Normal (if String.eqb p "length"
                      then JNum (Num (Z.of_nat (String.length s))) else JUndefined)
  | JFun arity _ => Normal (if String.eqb p "length"
                            then JNum (Num (Z.of_nat arity)) else JUndefined)
  | JBool _ | JNum _ => Normal JUndefined
  end.

(** [String(n)] for the numbers of the model, the integers and [NaN].  All
    digits are written; from 1e21 on JavaScript writes an exponent instead,
    which the model does not follow. *)
Definition num_to_string (n : JsNumber) : string :=
  match n with Num z => pretty z | NaN => "NaN" end.

Definition nth_elem (l : list JsVal) (n : JsNumber) : JsVal :=
  match n with
  | Num z => if (0 <=? z) then nth (Z.to_nat z) l JUndefined else JUndefined
  | NaN => JUndefined
  end.

Definition char_at (s : string) (n : JsNumber) : JsVal :=
  match n with
  | Num z => if (0 <=? z)
             then match String.get (Z.to_nat z) s with
                  | Some c => JStr (String c EmptyString)
                  | None => JUndefined
                  end
             else JUndefined
  | NaN => JUndefined
  end.

(** [v[n]] for a computed numeric key [n]. *)
Definition GetIdx (v : JsVal) (n : JsNumber) : Completion JsVal :=
  match v with
  | JUndefined | JNull => Throw (TypeError "Cannot read properties of undefined or null")
  | JExotic => Throw (Error "property read failed")
  | JObj fields => Normal (assoc (num_to_string n) fields)
  | JArr l => Normal (nth_elem l n)
  | JStr s => Normal (char_at s n)
  | JBool _ | JNum _ | JFun _ _ => Normal JUndefined
  end.

(** [a % b] on numbers: the remainder takes the sign of the dividend. *)
Definition js_rem (a b : JsNumber) : JsNumber :=
  match a, b with
  | Num x, Num y => if y =? 0 then NaN else Num (Z.rem x y)
  | _, _ => NaN
  end.

End Js.
Export Js.

(** ** Strings and the regular expressions of the sources

    A string is a sequence of 8-bit code units.  Each regular expression used
    by the sources is given as the function computing what [String.match] or
    [String.replace] returns for it. *)

Module Str.

Definition dq : ascii := "034"%char.        (* the double quote *)
Definition backslash : ascii := "092"%char.
Definition nl : ascii := "010"%char.
Definition bquote : ascii := "096"%char.     (* the back quote *)

Definition fence : string := String bquote (String bquote (String bquote "")).

(** Characters not matched by [.] *)
Definition is_line_terminator (c : ascii) : bool :=
  match c with "010" | "013" => true | _ => false end%char.

(** Characters matched by [\s], and removed by [trim] *)
Definition is_js_space (c : ascii) : bool :=
  match c with
  | "009" | "010" | "011" | "012" | "013" | " " | "160" => true
  | _ => false
  end%char.

Definition is_dq (c : ascii) : bool := Ascii.eqb c dq.

Fixpoint includes (needle hay : string) : bool :=
  if String.prefix needle hay then true
  else match hay with
       | EmptyString => false
       | String _ hay' => includes needle hay'
       end.

Fixpoint drop (n : nat) (s : string) : string :=
  match n, s with
  | O, _ => s
  | S n', String _ s' => drop n' s'
  | S _, EmptyString => EmptyString
  end.

(** [s.substring(0, n)] *)
Fixpoint take (n : nat) (s : string) : string :=
  match n, s with
  | S n', String c s' => String c (take n' s')
  | _, _ => EmptyString
  end.

Fixpoint filter_chars (keep : ascii -> bool) (s : string) : string :=
  match s with
  | EmptyString => EmptyString
  | String c s' => if keep c then String c (filter_chars keep s') else filter_chars keep s'
  end.

Fixpoint forallb_chars (p : ascii -> bool) (s : string) : bool :=
  match s with
  | EmptyString => true
  | String c s' => p c && forallb_chars p s'
  end.

(** [s.replace(/Q/g, '')], where Q stands for the double quote *)
Definition remove_quotes (s : string) : string :=
  filter_chars (fun c => negb (is_dq c)) s.

(** [s.match(/Q(.*?)Q/g)], where Q stands for the double quote: the list of
    all matches, each with its two quotes
    ([None] when there is none, where JavaScript gives [null]).  A match opens
    at a quote and closes at the next quote, unless a line terminator comes
    first; then the opening quote is skipped.  [cur] is the text read since the
    quote that is open, if one is. *)
Fixpoint quoted_go (cur : option string) (s : string) : list string :=
  match s with
  | EmptyString => []
  | String c s' =>
      match cur with
      | None => if is_dq c then quoted_go (Some (String dq "")) s' else quoted_go None s'
      | Some acc =>
          if is_dq c then (acc +:+ String dq "") :: quoted_go None s'
          else if is_line_terminator c then quoted_go None s'
          else quoted_go (Some (acc +:+ String c "")) s'
      end
  end.

Definition match_quoted (s : string) : option (list string) :=
  match quoted_go None s with
  | [] => None
  | ms => Some ms
  end.

Fixpoint skip_spaces (s : string) : string :=
  match s with
  | String c s' => if is_js_space c then skip_spaces s' else s
  | EmptyString => EmptyString
  end.

(** The tail [[\s\S]*?\]) \s* ```] of the code-block pattern, read after
    the opening bracket: the shortest text that ends in a closing bracket
    followed by optional white space and a fence. *)
Fixpoint lazy_to_close (s : string) : option string :=
  match s with
  | EmptyString => None
  | String c s' =>
      if Ascii.eqb c "]" && String.prefix fence (skip_spaces s')
      then Some (String c "")
      else option_map (String c) (lazy_to_close s')
  end.

Definition codeblock_at (s : string) : option string :=
  if String.prefix (fence +:+ "json") s
  then match skip_spaces (drop 7 s) with
       | String "[" rest => option_map (String "[") (lazy_to_close rest)
       | _ => None
       end
  else None.

(** [s.match(/```json\s*(\[[\s\S]*?\])\s*```/)]: capture group 1 of the
    leftmost match. *)
Fixpoint match_codeblock (s : string) : option string :=
  match codeblock_at s with
  | Some g => Some g
  | None => match s with
            | EmptyString => None
            | String _ s' => match_codeblock s'
            end
  end.

(** The text up to and including the last closing bracket of [s]. *)
Fixpoint upto_last_close (s : string) : option string :=
  match s with
  | EmptyString => None
  | String c s' =>
      match upto_last_close s' with
      | Some t => Some (String c t)
      | None => if Ascii.eqb c "]" then Some (String c "") else None
      end
  end.

(** [s.match(/\[.*\]/s)]: the whole match, from the first opening bracket to
    the last closing bracket after it. *)
Fixpoint match_brackets (s : string) : option string :=
  match s with
  | EmptyString => None
  | String c s' =>
      if Ascii.eqb c "[" then option_map (String c) (upto_last_close s')
      else match_brackets s'
  end.

(** [s.split('\n')] *)
Fixpoint split_lines_go (cur : string) (s : string) : list string :=
  match s with
  | EmptyString => [cur]
  | String c s' =>
      if Ascii.eqb c nl then cur :: split_lines_go "" s'
      else split_lines_go (cur +:+ String c "") s'
  end.
Definition split_lines (s : string) : list string := split_lines_go "" s.

(** [s.trim().length > 0] *)
Definition nonblank (s : string) : bool := negb (forallb_chars is_js_space s).

Definition lower_char (c : ascii) : ascii :=
  let n := N_of_ascii c in
  if ((65 <=? n) && (n <=? 90))%N then ascii_of_N (n + 32) else c.

(** [s.toLowerCase()], on the letters A to Z *)
Fixpoint toLowerCase (s : string) : string :=
  match s with
  | EmptyString => EmptyString
  | String c s' => String (lower_char c) (toLowerCase s')
  end.

Definition is_marker (c : ascii) : bool :=
  let n := N_of_ascii c in
  ((48 <=? n) && (n <=? 57))%N
  || Ascii.eqb c "-" || Ascii.eqb c "*" || Ascii.eqb c "." || Ascii.eqb c ")".

Fixpoint skip_markers (s : string) : string :=
  match s with
  | String c s' => if is_marker c then skip_markers s' else s
  | EmptyString => EmptyString
  end.

(** [s.replace(/^[0-9\-\*\.\)]+\s*/, '')] *)
Definition strip_list_marker (s : string) : string :=
  match s with
  | String c _ => if is_marker c then skip_spaces (skip_markers s) else s
  | EmptyString => s
  end.

(** The text of an array of three strings written without escapes,
    [[QaQ,QbQ,QcQ]] (Q the double quote), and a text holding a fenced block:
    [pre], the opening fence with its [json] tag, white space [ws1], the
    [body], white space [ws2], the closing fence, [post]. *)
Definition array_text (a b c : string) : string :=
  String "[" (String dq (a +:+ String dq (String "," (String dq (b +:+
    String dq (String "," (String dq (c +:+ String dq "]")))))))).

Definition fenced_payload (pre ws1 body ws2 post : string) : string :=
  pre +:+ fence +:+ "json" +:+ ws1 +:+ body +:+ ws2 +:+ fence +:+ post.

(** The same array text with white space [gap0] ... [gap5] around its three
    strings: after the opening bracket, before and after each comma, and
    before the closing bracket. *)
Record Spacing : Type := {
  gap0 : string; gap1 : string; gap2 : string;
  gap3 : string; gap4 : string; gap5 : string
}.

Definition spaced_array (sp : Spacing) (a b c : string) : string :=
  String "[" (gap0 sp +:+ String dq (a +:+ String dq (gap1 sp +:+
    String "," (gap2 sp +:+ String dq (b +:+ String dq (gap3 sp +:+
    String "," (gap4 sp +:+ String dq (c +:+ String dq (gap5 sp +:+ "]"))))))))).

Definition no_gaps : Spacing :=
  {| gap0 := ""; gap1 := ""; gap2 := ""; gap3 := ""; gap4 := ""; gap5 := "" |}.

Definition no_char (c0 : ascii) (s : string) : bool :=
  forallb_chars (fun c => negb (Ascii.eqb c c0)) s.

Definition all_space (s : string) : bool := forallb_chars is_js_space s.

Definition one_line (s : string) : bool :=
  forallb_chars (fun c => negb (is_line_terminator c)) s.

Definition white_gaps (sp : Spacing) : bool :=
  all_space (gap0 sp) && all_space (gap1 sp) && all_space (gap2 sp)
  && all_space (gap3 sp) && all_space (gap4 sp) && all_space (gap5 sp).

(** No closing bracket of [s] is followed, after optional white space, by a
    fence: the code-block pattern cannot end inside [s]. *)
Fixpoint block_end_free (s : string) : bool :=
  match s with
  | EmptyString => true
  | String c s' =>
      negb (Ascii.eqb c "]" && String.prefix fence (skip_spaces s'))
      && block_end_free s'
  end.

(** [s] begins like a fenced array, that is with the opening fence, its
    [json] tag, optional white space and an opening bracket; no place of [s]
    begins like one. *)
Definition block_start_at (s : string) : bool :=
  String.prefix (fence +:+ "json") s
  && match skip_spaces (drop 7 s) with
     | String "[" _ => true
     | _ => false
     end.

Fixpoint block_start_free (s : string) : bool :=
  negb (block_start_at s)
  && match s with
     | EmptyString => true
     | String _ s' => block_start_free s'
     end.

End Str.

(** ** JSON *)

Module Json.
Import Str.

Definition hex_digit (n : N) : ascii :=
  match n with
  | 0 => "0" | 1 => "1" | 2 => "2" | 3 => "3" | 4 => "4" | 5 => "5" | 6 => "6"
  | 7 => "7" | 8 => "8" | 9 => "9" | 10 => "a" | 11 => "b" | 12 => "c"
  | 13 => "d" | 14 => "e" | _ => "f"
  end%char%N.

Definition escape_char (c : ascii) : string :=
  let n := N_of_ascii c in
  if Ascii.eqb c dq then String backslash (String dq "")
  else if Ascii.eqb c backslash then String backslash (String backslash "")
  else if (n =? 8)%N then String backslash "b"
  else if (n =? 9)%N then String backslash "t"
  else if (n =? 10)%N then String backslash "n"
  else if (n =? 12)%N then String backslash "f"
  else if (n =? 13)%N then String backslash "r"
  else if (n <? 32)%N
       then String backslash (String "u" (String "0" (String "0"
              (String (hex_digit (n / 16)) (String (hex_digit (n mod 16)) "")))))
  else String c "".

Fixpoint escape (s : string) : string :=
  match s with
  | EmptyString => EmptyString
  | String c s' => escape_char c +:+ escape s'
  end.

Definition quote (s : string) : string := String dq (escape s +:+ String dq "").

Fixpoint join (sep : string) (parts : list string) : string :=
  match parts with
  | [] => ""
  | [p] => p
  | p :: rest => p +:+ sep +:+ join sep rest
  end.

(** [JSON.stringify(v)]: [None] stands for the result [undefined], which is
    the result for [undefined] and for a function; inside an array such a
    value is written [null], inside an object its property is left out.
    Symbols and objects with a [toJSON] method are outside the value
    model. *)
Fixpoint stringify_opt (v : JsVal) : Completion (option string) :=
  match v with
  | JUndefined | JFun _ _ => Normal None
  | JNull => Normal (Some "null")
  | JBool true => Normal (Some "true")
  | JBool false => Normal (Some "false")
  | JNum (Num z) => Normal (Some (pretty z))
  | JNum NaN => Normal (Some "null")
  | JStr s => Normal (Some (quote s))
  | JArr elems =>
      parts ← (fix go (l : list JsVal) : Completion (list string) :=
                 match l with
                 | [] => Normal []
                 | x :: rest =>
                     sx ← stringify_opt x;
                     srest ← go rest;
                     Normal (default "null" sx :: srest)
                 end) elems;
      Normal (Some ("[" +:+ join "," parts +:+ "]"))
  | JObj fields =>
      parts ← (fix go (l : list (string * JsVal)) : Completion (list string) :=
                 match l with
                 | [] => Normal []
                 | (k, x) :: rest =>
                     sx ← stringify_opt x;
                     srest ← go rest;
                     Normal (match sx with
                             | Some t => (quote k +:+ ":" +:+ t) :: srest
                             | None => srest
                             end)
                 end) fields;
      Normal (Some ("{" +:+ join "," parts +:+ "}"))
  | JExotic => Throw (Error "property read failed")
  end.

Definition JSON_stringify (v : JsVal) : Completion JsVal :=
  r ← stringify_opt v;
  Normal (match r with Some s => JStr s | None => JUndefined end).

(** [JSON.parse] is the engine's built-in: a parameter of the development.
    It returns the parsed value or throws a [SyntaxError]. *)
Class JsonParser := JSON_parse : string -> Completion JsVal.

End Json.
Export Json.

(** ** Method calls and conversions shared by the sources *)

Module Builtin.
Import Str.

Definition str_list (l : list string) : JsVal := JArr (map JStr l).

(** [v.match(/Q(.*?)Q/g)] (Q the double quote): only a string has a [match]
    method; [None] is the result [null]. *)
Definition call_match_quoted (v : JsVal) : Completion (option (list string)) :=
  match v with
  | JStr s => Normal (match_quoted s)
  | JUndefined | JNull => Throw (TypeError "Cannot read properties of undefined or null")
  | JExotic => Throw (Error "property read failed")
  | _ => Throw (TypeError "match is not a function")
  end.

(** [v.substring(0, n)] *)
Definition call_substring (v : JsVal) (n : nat) : Completion string :=
  match v with
  | JStr s => Normal (take n s)
  | JUndefined | JNull => Throw (TypeError "Cannot read properties of undefined or null")
  | JExotic => Throw (Error "property read failed")
  | _ => Throw (TypeError "substring is not a function")
  end.

(** [v.includes(needle)], as the sources call it on a value meant to be a
    string; on an array, which also has the method, no element is the needle. *)
Definition call_includes (v : JsVal) (needle : string) : Completion bool :=
  match v with
  | JStr s => Normal (includes needle s)
  | JArr l => Normal (existsb (fun x => match x with
                                       | JStr s => String.eqb s needle
                                       | _ => false
                                       end) l)
  | JUndefined | JNull => Throw (TypeError "Cannot read properties of undefined or null")
  | JExotic => Throw (Error "property read failed")
  | _ => Throw (TypeError "includes is not a function")
  end.

(** ToString, as applied by template literals and by [+] with a string. *)
Fixpoint ToString (v : JsVal) : Completion string :=
  match v with
  | JUndefined => Normal "undefined"
  | JNull => Normal "null"
  | JBool true => Normal "true"
  | JBool false => Normal "false"
  | JNum n => Normal (num_to_string n)
  | JStr s => Normal s
  | JArr elems =>
      parts ← (fix go (l : list JsVal) : Completion (list string) :=
                 match l with
                 | [] => Normal []
                 | x :: rest =>
                     sx ← match x with
                          | JUndefined | JNull => Normal ""
                          | _ => ToString x
                          end;
                     srest ← go rest;
                     Normal (sx :: srest)
                 end) elems;
      Normal (join "," parts)
  | JObj _ => Normal "[object Object]"
  | JExotic => Throw (Error "property read failed")
  | JFun _ src => Normal src
  end.

(** [{...v}]: the own enumerable properties of [v], read one by one. *)
Definition spread (v : JsVal) : Completion JsVal :=
  match v with
  | JObj fields => Normal (JObj fields)
  | JArr elems => Normal (JObj (imap (fun i x => (pretty (Z.of_nat i), x)) elems))
  | JStr s => Normal (JObj (imap (fun i c => (pretty (Z.of_nat i), JStr (String c "")))
                                 (list_ascii_of_string s)))
  | JExotic => Throw (Error "property read failed")
  | _ => Normal (JObj [])
  end.

Definition is_digit (c : ascii) : bool :=
  let n := N_of_ascii c in ((48 <=? n) && (n <=? 57))%N.

Fixpoint digits_go (acc : option Z) (s : string) : option Z :=
  match s with
  | String c s' =>
      if is_digit c
      then digits_go (Some (10 * default 0 acc + Z.of_N (N_of_ascii c - 48))) s'
      else acc
  | EmptyString => acc
  end.

Definition num_of_digits (neg : bool) (s : string) : JsNumber :=
  match digits_go None s with
  | Some z => Num (if neg then - z else z)
  | None => NaN
  end.

(** [parseInt(v, 10)].  The result is the integer the digits denote;
    JavaScript rounds it to a double from 2^53 on. *)
Definition parseInt10 (v : JsVal) : Completion JsNumber :=
  s ← ToString v;
  Normal (match skip_spaces s with
          | String "-" s' => num_of_digits true s'
          | String "+" s' => num_of_digits false s'
          | s' => num_of_digits false s'
          end).

End Builtin.
Export Builtin.

(** ** The copy variant's server: [extractText] and [extractChoices] *)

Module CopyIndex.
Import Str.

Section WithParser.
Context `{JsonParser}.

Definition defaultText : string := "The adventure continues...".

(** [JSON.parse(s).output || s], inside its own [try]; on any exception the
    string itself. *)
Definition parsed_output_or (s : string) : Completion JsVal :=
  try_catch
    (parsed ← JSON_parse s;
     output ← Get parsed "output";
     Normal (if truthy output then output else JStr s))
    (fun _ => Normal (JStr s)).

(** The body of the outer [try] of [extractText]. *)
Definition extractText_try (textResponse : JsVal) : Completion JsVal :=
  if negb (truthy textResponse) then Normal (JStr defaultText)
  else
    match textResponse with
    | JStr s => parsed_output_or s
    | _ =>
        if String.eqb (typeof textResponse) "object" then
          data ← Get textResponse "data";
          if truthy data then
            match data with
            | JStr d => parsed_output_or d
            | _ =>
                has_output ←
                  (if String.eqb (typeof data) "object"
                   then (match data with
                         | JNull => Normal false
                         | _ => output ← Get data "output"; Normal (truthy output)
                         end)
                   else Normal false);
                if has_output : bool then Get data "output" else JSON_stringify data
            end
          else
            output ← Get textResponse "output";
            if truthy output then Normal output
            else
              text ← Get textResponse "text";
              if truthy text then Normal text else Normal (JStr defaultText)
        else Normal (JStr defaultText)
    end.

Definition extractText (textResponse : JsVal) : JsVal :=
  match extractText_try textResponse with
  | Normal r => r
  | Throw _ => JStr "The story continues..."
  end.

Definition defaultChoices : JsVal :=
  str_list ["Continue exploring"; "Take a different path";
            "Stop and observe your surroundings"].

Definition catchChoices : JsVal :=
  str_list ["Continue forward"; "Look for another path";
            "Rest and consider your options"].

Definition nonempty_or_default (arr : list JsVal) : JsVal :=
  match arr with [] => defaultChoices | _ => JArr arr end.

(** The search for a fenced JSON array in a string: [Some choices] when the
    source returns [choices], [None] when it falls through. *)
Definition choices_in_codeblock (s : string) : Completion (option JsVal) :=
  match match_codeblock s with
  | Some group =>
      if truthy (JStr group) then
        try_catch
          (choices ← JSON_parse group;
           Normal (match choices with
                   | JArr (_ :: _) => Some choices
                   | _ => None
                   end))
          (fun _ => Normal None)
      else Normal None
  | None => Normal None
  end.

(** The body of the [try] of [extractChoices]. *)
Definition extractChoices_try (choicesResponse : JsVal) : Completion JsVal :=
  match choicesResponse with
  | JArr arr => Normal (nonempty_or_default arr)
  | _ =>
      has_data ←
        (if truthy choicesResponse && String.eqb (typeof choicesResponse) "object"
         then data ← Get choicesResponse "data"; Normal (truthy data)
         else Normal false);
      if has_data : bool then
        data ← Get choicesResponse "data";
        match data with
        | JArr arr => Normal (nonempty_or_default arr)
        | _ =>
            from_data ← (match data with
                         | JStr d => choices_in_codeblock d
                         | _ => Normal None
                         end);
            match from_data with
            | Some choices => Normal choices
            | None =>
                from_output ←
                  (if String.eqb (typeof data) "object"
                   then (match data with
                         | JNull => Normal None
                         | _ =>
                             output ← Get data "output";
                             if truthy output then
                               match output with
                               | JStr o => choices_in_codeblock o
                               | _ => Normal None
                               end
                             else Normal None
                         end)
                   else Normal None);
                Normal (default defaultChoices from_output)
            end
        end
      else Normal defaultChoices
  end.

Definition extractChoices (choicesResponse : JsVal) : JsVal :=
  match extractChoices_try choicesResponse with
  | Normal r => r
  | Throw _ => catchChoices
  end.

End WithParser.
End CopyIndex.

(** ** The main variant's server: [extractChoices] *)

Module MainIndex.
Import Str.

Definition DEFAULT_CHOICES : list string :=
  ["Continue exploring"; "Take a different path";
   "Stop and observe your surroundings"].

(** The argument of the first [console.log]:
    [JSON.stringify(choicesResponse).substring(0, 200) + "..."] *)
Definition log_preview (v : JsVal) : Completion string :=
  s ← JSON_stringify v;
  t ← call_substring s 200;
  Normal (t +:+ "...").

(** What is returned once quoted strings have been found in the output. *)
Definition pad_or_truncate (cleanedChoices : list string) : list string :=
  if (length cleanedChoices <? 3)%nat
  then let neededDefaults := (3 - length cleanedChoices)%nat in
       cleanedChoices ++ firstn neededDefaults DEFAULT_CHOICES
  else firstn 3 cleanedChoices.

(** The body of the [try] of [extractChoices]. *)
Definition extractChoices_try (choicesResponse : JsVal) : Completion JsVal :=
  _ ← log_preview choicesResponse;
  match choicesResponse with
  | JArr arr => Normal (match arr with
                        | [] => str_list DEFAULT_CHOICES
                        | _ => choicesResponse
                        end)
  | _ =>
      if negb (truthy choicesResponse)
         || negb (String.eqb (typeof choicesResponse) "object")
      then Normal (str_list DEFAULT_CHOICES)
      else
        data ← Get choicesResponse "data";
        has_output ← (if truthy data
                      then output ← Get data "output"; Normal (truthy output)
                      else Normal false);
        if has_output : bool then
          data ← Get choicesResponse "data";
          output ← Get data "output";
          manualExtract ← call_match_quoted output;
          match manualExtract with
          | Some matches =>
              let cleanedChoices := map remove_quotes matches in
              Normal (str_list (pad_or_truncate cleanedChoices))
          | None => Normal (str_list DEFAULT_CHOICES)
          end
        else Normal (str_list DEFAULT_CHOICES)
  end.

Definition extractChoices (choicesResponse : JsVal) : JsVal :=
  match extractChoices_try choicesResponse with
  | Normal r => r
  | Throw _ => str_list DEFAULT_CHOICES
  end.

End MainIndex.

(** ** The generation service and the state monad *)

Module Fal.

(** The remote service behind [fal.subscribe] and the process environment.
    [World] is whatever the service's answers depend on; a call returns the
    resolved result or the value the promise was rejected with. *)
Class Provider := {
  World : Type;
  FAL_KEY : JsVal;
  fal_subscribe : string -> JsVal -> World -> Completion JsVal * World
}.

(** Computations on a state [S] that may throw; the state reached when the
    exception is thrown is kept. *)
Definition M (S A : Type) : Type := S -> Completion A * S.

#[export] Instance M_ret {S} : MRet (M S) := fun A a s => (Normal a, s).
#[export] Instance M_bind {S} : MBind (M S) :=
  fun A B k m s =>
    match m s with
    | (Normal a, s') => k a s'
    | (Throw e, s') => (Throw e, s')
    end.

Definition lift {S A} (c : Completion A) : M S A := fun s => (c, s).
Definition throw {S A} (e : JsVal) : M S A := fun s => (Throw e, s).
Definition try_catchM {S A} (m : M S A) (h : JsVal -> M S A) : M S A :=
  fun s => match m s with
           | (Normal a, s') => (Normal a, s')
           | (Throw e, s') => h e s'
           end.
Definition gets {S A} (f : S -> A) : M S A := fun s => (Normal (f s), s).
Definition modify {S} (f : S -> S) : M S unit := fun s => (Normal tt, f s).

(** Run a computation on the second component of the state. *)
Definition on_world {S W A} (m : M W A) : M (S * W) A :=
  fun '(s, w) => let '(r, w') := m w in (r, (s, w')).

Definition subscribe `{Provider} (endpoint : string) (input : JsVal) : M World JsVal :=
  fal_subscribe endpoint input.

End Fal.
Export Fal.

(** ** The main variant's story engine ([GameState]) *)

Module MainGame.
Import Str.

Record GameState := { currentScene : JsVal; history : list JsVal }.

Definition DEFAULT_CHOICES : list string :=
  ["Continue exploring"; "Take a different path";
   "Stop and observe your surroundings"].

Definition initialContext : string :=
  "You find yourself in a mysterious forest at dusk. The trees tower above you, their branches swaying gently in the breeze.".

Definition Q : string := String dq "".

Definition storyPrompt (context userChoice : string) : string :=
  "
      You are narrating an interactive story game. 
      Current story context: " +:+ context +:+ "
      User just chose: " +:+ userChoice +:+ "
      Continue the story with 2-3 paragraphs based on this choice.
    ".

Definition imagePromptOf (sceneDescription : string) : string :=
  "
      Scene from interactive story game: " +:+ sceneDescription +:+ "
      Detailed, dramatic lighting, cinematic composition, high quality
    ".

Definition choicePrompt (sceneText : string) : string :=
  "
Based on this scene in our story:
  " +:+ Q +:+ sceneText +:+ Q +:+ "
  Generate 3 interesting and distinct choices for what the player might do next.
  Format your response EXACTLY as following:
    [
        " +:+ Q +:+ "Choice 1" +:+ Q +:+ ",
        " +:+ Q +:+ "Choice 2" +:+ Q +:+ ",
        " +:+ Q +:+ "Choice 3" +:+ Q +:+ "
    ]
  Do not include any explanation or additional text outside the code block list of choices above also never give like json.
".

(** The value of [r.data.output] when [r && r.data && r.data.output] holds. *)
Definition data_output (r : JsVal) : Completion (option JsVal) :=
  if truthy r then
    data ← Get r "data";
    if truthy data then
      output ← Get data "output";
      Normal (if truthy output then Some output else None)
    else Normal None
  else Normal None.

(** The choice made by [makeChoice] from the current scene and the index. *)
Definition selectChoice (scene : JsVal) (choiceIndex : JsNumber) : Completion JsVal :=
  choices ← Get scene "choices";
  usable ← (if Array_isArray choices
            then c ← GetIdx choices choiceIndex; Normal (truthy c)
            else Normal false);
  if usable : bool then GetIdx choices choiceIndex
  else Normal (nth_elem (map JStr DEFAULT_CHOICES)
                 (js_rem choiceIndex (Num (Z.of_nat (length DEFAULT_CHOICES))))).

Section WithProvider.
Context `{Provider}.

Definition Eng : Type -> Type := M (GameState * World).

Definition configureFalClient {S} : M S unit :=
  let falKey := FAL_KEY in
  if negb (truthy falKey) then throw (Error "FAL_KEY environment variable not set")
  else mret tt.

(** [new GameState()] *)
Definition newGameState : Completion GameState :=
  if negb (truthy FAL_KEY) then Throw (Error "FAL_KEY environment variable not set")
  else Normal {| currentScene := JNull; history := [] |}.

Definition generateStoryText (context userChoice : JsVal) : Eng JsVal :=
  _ ← configureFalClient;
  c ← lift (ToString context);
  u ← lift (ToString userChoice);
  let prompt := storyPrompt c u in
  try_catchM
    (on_world (subscribe "fal-ai/any-llm" (JObj [("prompt", JStr prompt)])))
    (fun error =>
       _ ← lift (Get error "status");
       message ← lift (Get error "message");
       mret (JObj [("data", JObj [("output",
                      JStr "The adventure continues... (Error generating story text)")]);
                   ("error", message)])).

Definition generateStoryImage (sceneDescription : JsVal) : Eng JsVal :=
  _ ← configureFalClient;
  d ← lift (ToString sceneDescription);
  let imagePrompt := imagePromptOf d in
  try_catchM
    (result ← on_world (subscribe "fal-ai/flux-pro" (JObj [("prompt", JStr imagePrompt)]));
     lift (Get result "data"))
    (fun error =>
       _ ← lift (Get error "status");
       message ← lift (Get error "message");
       mret (JObj [("images", JArr []); ("error", message)])).

(** What [generateChoices] makes of the service's result. *)
Definition choicesOfResult (result : JsVal) : Completion JsVal :=
  _ ← MainIndex.log_preview result;
  data ← Get result "data";
  match data with
  | JArr arr => Normal (match arr with [] => str_list DEFAULT_CHOICES | _ => data end)
  | _ =>
      if negb (truthy data) || negb (String.eqb (typeof data) "object")
      then Normal (str_list DEFAULT_CHOICES)
      else
        output ← Get data "output";
        if truthy output then
          manualExtract ← call_match_quoted output;
          match manualExtract with
          | Some matches =>
              let cleanedChoices := map remove_quotes matches in
              Normal (match cleanedChoices with
                      | [] => str_list DEFAULT_CHOICES
                      | _ => str_list cleanedChoices
                      end)
          | None => Normal (str_list DEFAULT_CHOICES)
          end
        else Normal (str_list DEFAULT_CHOICES)
  end.

Definition generateChoices (sceneText : JsVal) : Eng JsVal :=
  _ ← configureFalClient;
  match sceneText with
  | JStr text =>
      try_catchM
        (result ← on_world (subscribe "fal-ai/any-llm"
                              (JObj [("prompt", JStr (choicePrompt text))]));
         lift (choicesOfResult result))
        (fun error =>
           _ ← lift (Get error "status");
           mret (str_list DEFAULT_CHOICES))
  | _ => mret (str_list DEFAULT_CHOICES)
  end.

Definition sceneOf (text image choices : JsVal) : JsVal :=
  JObj [("text", text); ("image", image); ("choices", choices)].

Definition setScene (scene : JsVal) : Eng unit :=
  modify (fun '(g, w) => ({| currentScene := scene; history := history g |}, w)).

Definition pushHistory (entry : JsVal) : Eng unit :=
  modify (fun '(g, w) =>
            ({| currentScene := currentScene g; history := history g ++ [entry] |}, w)).

Definition thisScene : Eng JsVal := gets (fun '(g, _) => currentScene g).

Definition startNewGame : Eng JsVal :=
  _ ← configureFalClient;
  textResult ← generateStoryText (JStr initialContext) (JStr "Game start");
  imageResult ← generateStoryImage (JStr initialContext);
  output ← lift (data_output textResult);
  let storyText := default (JStr "") output in
  choicesResult ← generateChoices storyText;
  _ ← setScene (sceneOf textResult imageResult choicesResult);
  thisScene.

(** [makeChoice] from the point where [selectedChoice] is known. *)
Definition continueWith (selectedChoice : JsVal) : Eng JsVal :=
  scene ← thisScene;
  text ← lift (Get scene "text");
  context ← lift (data_output text);
  let currentContext := default (JStr "") context in
  textResult ← generateStoryText currentContext selectedChoice;
  output ← lift (data_output textResult);
  imagePrompt ← lift (match output with
                      | Some o =>
                          head100 ← call_substring o 100;
                          sel ← ToString selectedChoice;
                          Normal (JStr (sel +:+ " - " +:+ head100))
                      | None => Normal selectedChoice
                      end);
  imageResult ← generateStoryImage imagePrompt;
  output' ← lift (data_output textResult);
  let storyText := default (JStr "") output' in
  choicesResult ← generateChoices storyText;
  _ ← setScene (sceneOf textResult imageResult choicesResult);
  thisScene.

Definition makeChoice (choiceIndex : JsNumber) : Eng JsVal :=
  _ ← configureFalClient;
  scene ← thisScene;
  copy ← lift (spread scene);
  _ ← pushHistory copy;
  scene ← thisScene;
  selectedChoice ← lift (selectChoice scene choiceIndex);
  continueWith selectedChoice.

End WithProvider.
End MainGame.

(** ** The copy variant's story engine *)

Module CopyGame.
Import Str.

Record GameState := {
  currentScene : JsVal;
  history : list JsVal;
  choices : list JsVal
}.

Definition defaultChoices : list string :=
  ["Continue exploring"; "Take a different path";
   "Stop and observe your surroundings"].

Definition initialChoices : list string :=
  ["Follow the faint glowing light in the distance";
   "Set up camp and wait until morning";
   "Climb a tree to get a better view"].

Definition initialContext : string :=
  "You find yourself in a mysterious forest at dusk. The trees tower above you, their branches swaying gently in the breeze.".

Definition startFallbackText : string :=
  "As you stand in the mysterious forest, you feel a sense of adventure ahead. The path branches in several directions, each offering its own mysteries to uncover.".

Definition choiceFallbackText : string :=
  "The adventure continues as you make your choice. What will you do next?".

Definition failedText : string :=
  "Failed to generate story text. The journey continues...".

Definition Q : string := String dq "".

Definition storyPrompt (context userChoice : string) : string :=
  "
    You are narrating an interactive story game. 
    Current story context: " +:+ context +:+ "
    User just chose: " +:+ userChoice +:+ "
    Continue the story with 2-3 paragraphs based on this choice.
  ".

Definition imagePromptOf (sceneDescription : string) : string :=
  "
    Scene from interactive story game: " +:+ sceneDescription +:+ "
    Detailed, dramatic lighting, cinematic composition, high quality
  ".

Definition choicePrompt (sceneText : string) : string :=
  "
      Based on this scene in our story:
      " +:+ Q +:+ sceneText +:+ Q +:+ "
      
      Generate 3 interesting and distinct choices for what the player might do next.
      Return only the choices as a JSON array of strings.
    ".

(** The first truthy one of [data.text], [data.content], [data.response] and
    [data.message]; else [JSON.stringify(data)]. *)
Definition textOfObject (data : JsVal) : Completion JsVal :=
  text ← Get data "text";
  if truthy text then Normal text else
  content ← Get data "content";
  if truthy content then Normal content else
  response ← Get data "response";
  if truthy response then Normal response else
  message ← Get data "message";
  if truthy message then Normal message else
  JSON_stringify data.

(** The [storyText] that [generateStoryText] takes from the service's result. *)
Definition storyTextOf (result : JsVal) : Completion JsVal :=
  has_data ← (if truthy result then data ← Get result "data"; Normal (truthy data)
              else Normal false);
  if has_data : bool then
    data ← Get result "data";
    match data with
    | JStr _ => Normal data
    | _ => if String.eqb (typeof data) "object" then textOfObject data
           else s ← ToString data; Normal (JStr s)
    end
  else Normal (JStr "").

(** The lines kept by the [filter] of the text fallback of [generateChoices]. *)
Definition keep_line (line : string) : bool :=
  nonblank line
  && negb (includes fence line)
  && negb (includes "options" (toLowerCase line))
  && negb (includes "choices" (toLowerCase line)).

Definition choicesFromLines (data : string) : option JsVal :=
  let lines := List.filter keep_line (split_lines data) in
  if (3 <=? length lines)%nat
  then Some (str_list (map strip_list_marker (firstn 3 lines)))
  else None.

Section WithProvider.
Context `{Provider} `{JsonParser}.

Definition Eng : Type -> Type := M (GameState * World).

Definition generateStoryText (context userChoice : JsVal) : M World JsVal :=
  c ← lift (ToString context);
  u ← lift (ToString userChoice);
  let prompt := storyPrompt c u in
  try_catchM
    (result ← subscribe "fal-ai/any-llm" (JObj [("prompt", JStr prompt)]);
     _ ← lift (Get result "data");
     storyText ← lift (storyTextOf result);
     requestId ← lift (Get result "requestId");
     mret (JObj [("success", JBool true); ("text", storyText);
                 ("requestId", requestId); ("rawResponse", result)]))
    (fun error =>
       message ← lift (Get error "message");
       mret (JObj [("success", JBool false); ("text", JStr failedText);
                   ("error", message)])).

Definition generateStoryImage (sceneDescription : JsVal) : M World JsVal :=
  d ← lift (ToString sceneDescription);
  let imagePrompt := imagePromptOf d in
  try_catchM
    (result ← subscribe "fal-ai/flux/schnell" (JObj [("prompt", JStr imagePrompt)]);
     imageData ← lift (Get result "data");
     requestId ← lift (Get result "requestId");
     mret (JObj [("success", JBool true); ("imageData", imageData);
                 ("requestId", requestId)]))
    (fun error =>
       message ← lift (Get error "message");
       mret (JObj [("success", JBool false); ("error", message)])).

(** The inner [try] of [generateChoices] on a string: [Some choices] when it
    returns [choices], [None] when it falls through. *)
Definition choicesFromJson (data : string) : Completion (option JsVal) :=
  from_match ←
    (match match_brackets data with
     | Some whole =>
         parsedData ← JSON_parse whole;
         Normal (match parsedData with JArr (_ :: _) => Some parsedData | _ => None end)
     | None => Normal None
     end);
  match from_match with
  | Some parsedData => Normal (Some parsedData)
  | None =>
      choices ← JSON_parse data;
      Normal (match choices with JArr (_ :: _) => Some choices | _ => None end)
  end.

(** What [generateChoices] makes of the service's result, inside the outer
    [try]. *)
Definition choicesOfResult (result : JsVal) : Completion JsVal :=
  has_data ← (if truthy result then data ← Get result "data"; Normal (truthy data)
              else Normal false);
  if has_data : bool then
    data ← Get result "data";
    r ← try_catch
          (match data with
           | JArr arr => Normal (Some (match arr with
                                       | [] => str_list defaultChoices
                                       | _ => data
                                       end))
           | JStr d => choicesFromJson d
           | _ => Normal None
           end)
          (fun e =>
             _ ← Get e "message";
             Normal (match data with
                     | JStr d => choicesFromLines d
                     | _ => None
                     end));
    Normal (default (str_list defaultChoices) r)
  else Normal (str_list defaultChoices).

Definition generateChoices (sceneText : JsVal) : M World JsVal :=
  match sceneText with
  | JStr text =>
      try_catchM
        (result ← subscribe "fal-ai/any-llm" (JObj [("prompt", JStr (choicePrompt text))]);
         lift (choicesOfResult result))
        (fun _ => mret (str_list defaultChoices))
  | _ => mret (str_list defaultChoices)
  end.

Definition sceneOf (text image choices : JsVal) : JsVal :=
  JObj [("text", text); ("image", image); ("choices", choices)].

Definition setScene (scene : JsVal) : Eng unit :=
  modify (fun '(g, w) =>
            ({| currentScene := scene; history := history g; choices := choices g |}, w)).

Definition pushHistory (entry : JsVal) : Eng unit :=
  modify (fun '(g, w) =>
            ({| currentScene := currentScene g; history := history g ++ [entry];
                choices := choices g |}, w)).

Definition thisScene : Eng JsVal := gets (fun '(g, _) => currentScene g).

(** [new GameState()] *)
Definition newGameState : GameState :=
  {| currentScene := JNull; history := []; choices := [] |}.

(** [r.success ? r.field : fallback] *)
Definition on_success (r : JsVal) (field : string) (fallback : JsVal) : Completion JsVal :=
  success ← Get r "success";
  if truthy success then Get r field else Normal fallback.

Definition startNewGame : Eng JsVal :=
  textResult ← on_world (generateStoryText (JStr initialContext) (JStr "Game start"));
  imageResult ← on_world (generateStoryImage (JStr initialContext));
  text ← lift (on_success textResult "text" (JStr startFallbackText));
  image ← lift (on_success imageResult "imageData" JNull);
  _ ← setScene (sceneOf text image (str_list initialChoices));
  thisScene.

Definition makeChoice (choiceIndex : JsNumber) : Eng JsVal :=
  scene ← thisScene;
  copy ← lift (spread scene);
  _ ← pushHistory copy;
  scene ← thisScene;
  sceneChoices ← lift (Get scene "choices");
  selectedChoice ← lift (GetIdx sceneChoices choiceIndex);
  if negb (truthy selectedChoice) then throw (Error "Invalid choice index") else
  currentContext ← lift (Get scene "text");
  textResult ← on_world (generateStoryText currentContext selectedChoice);
  success ← lift (Get textResult "success");
  text ← lift (Get textResult "text");
  imageDescription ←
    lift (match truthy success, text with
          | true, JStr t =>
              sel ← ToString selectedChoice;
              Normal (JStr (sel +:+ " - " +:+ take 100 t))
          | _, _ => Normal selectedChoice
          end);
  imageResult ← on_world (generateStoryImage imageDescription);
  text ← lift (Get textResult "text");
  newChoices ← on_world (generateChoices text);
  text ← lift (on_success textResult "text" (JStr choiceFallbackText));
  image ← lift (on_success imageResult "imageData" JNull);
  _ ← setScene (sceneOf text image newChoices);
  thisScene.

End WithProvider.
End CopyGame.

(** ** The HTTP boundary and the session map *)

Module Http.
Import Str.

Record Response := { status : Z; body : JsVal }.

(** [res.json(b)] and [res.status(n).json(b)] *)
Definition json (b : JsVal) : Response := {| status := 200; body := b |}.
Definition status_json (n : Z) (b : JsVal) : Response := {| status := n; body := b |}.

Definition error_body (msg : string) : JsVal := JObj [("error", JStr msg)].

(** ToNumber on a string, for signed decimal integers and the blank string.
    The numbers of the model are the integers and [NaN]: a numeral with a
    fraction or an exponent, which JavaScript reads as a number that is no
    integer, is read as [NaN] here, and an integer is kept exact where
    JavaScript rounds it to a double from 2^53 on. *)
Definition str_to_number (s : string) : JsNumber :=
  match skip_spaces s with
  | EmptyString => Num 0
  | String "-" s' => if forallb_chars is_digit s' then num_of_digits true s' else NaN
  | String "+" s' => if forallb_chars is_digit s' then num_of_digits false s' else NaN
  | s' => if forallb_chars is_digit s' then num_of_digits false s' else NaN
  end.

Definition ToNumber (v : JsVal) : Completion JsNumber :=
  match v with
  | JUndefined => Normal NaN
  | JNull => Normal (Num 0)
  | JBool b => Normal (Num (if b then 1 else 0))
  | JNum n => Normal n
  | JStr s => Normal (str_to_number s)
  | JArr _ => s ← ToString v; Normal (str_to_number s)
  | JObj _ | JFun _ _ => Normal NaN
  | JExotic => Throw (Error "property read failed")
  end.

(** [v > 0] *)
Definition gt_zero (v : JsVal) : Completion bool :=
  n ← ToNumber v;
  Normal (match n with Num z => 0 <? z | NaN => false end).

(** [gameSessions.get(key)]: the keys of the map are strings. *)
Definition sessions_get {G} (sessions : gmap string G) (key : JsVal) : option G :=
  match key with
  | JStr k => sessions !! k
  | _ => None
  end.

(** The image URL taken from a scene; [checkArray] is the additional
    [Array.isArray(scene.image.images)] test of the copy variant. *)
Definition imageUrlOf (checkArray : bool) (scene : JsVal) : Completion JsVal :=
  image ← Get scene "image";
  usable ←
    (if truthy image then
       images ← Get image "images";
       if truthy images && (negb checkArray || Array_isArray images) then
         len ← Get images "length";
         gt_zero len
       else Normal false
     else Normal false);
  if usable : bool then
    image ← Get scene "image";
    images ← Get image "images";
    first ← GetIdx images (Num 0);
    Get first "url"
  else Normal JNull.

Section WithProvider.
Context `{Provider}.

(** Run an engine method on an engine that no map entry refers to yet. *)
Definition on_new_engine {G S A} (game : G) (m : M (G * World) A) : M (S * World) (A * G) :=
  fun '(s, w) =>
    match m (game, w) with
    | (Normal a, (game', w')) => (Normal (a, game'), (s, w'))
    | (Throw e, (_, w')) => (Throw e, (s, w'))
    end.

(** Run an engine method on the engine stored under [key]; the map entry is
    the engine itself, so what the method does to it stays, thrown or not. *)
Definition on_session {G A} (key : string) (game : G) (m : M (G * World) A)
  : M (gmap string G * World) A :=
  fun '(sessions, w) =>
    let '(r, (game', w')) := m (game, w) in
    (r, (<[key := game']> sessions, w')).

Definition sessions_set {G} (key : string) (game : G) : M (gmap string G * World) unit :=
  modify (fun '(sessions, w) => (<[key := game]> sessions, w)).

Definition the_sessions {G} : M (gmap string G * World) (gmap string G) :=
  gets fst.

End WithProvider.
End Http.
Export Http.

(** *** The main variant's server *)

Module MainServer.
Import Str.

Section WithProvider.
Context `{Provider}.

Definition Srv : Type -> Type := M (gmap string MainGame.GameState * World).

Definition generateSpeech (text : JsVal) : M World JsVal :=
  try_catchM
    (_ ← lift (call_substring text 100);
     has_s1 ← lift (call_includes text "[S1]");
     has_s2 ← lift (if has_s1 : bool then Normal true else call_includes text "[S2]");
     t ← lift (ToString text);
     let formattedText := if has_s1 || has_s2 then t else "[S1] " +:+ t in
     result ← subscribe "fal-ai/dia-tts" (JObj [("text", JStr formattedText)]);
     _ ← lift (Get result "requestId");
     data ← lift (Get result "data");
     if truthy data then
       audio ← lift (Get data "audio");
       url ← lift (Get audio "url");
       if truthy url then mret url else mret JNull
     else mret JNull)
    (fun _ => mret JNull).

(** The part of both handlers that turns a scene into the response. *)
Definition respond (sessionId : JsVal) (scene : JsVal) : Srv Response :=
  text ← lift (Get scene "text");
  output ← lift (MainGame.data_output text);
  let storyText := default (JStr "") output in
  audioUrl ← on_world (generateSpeech storyText);
  imageUrl ← lift (imageUrlOf false scene);
  sceneChoices ← lift (Get scene "choices");
  let choices := MainIndex.extractChoices sceneChoices in
  mret (json (JObj [("sessionId", sessionId); ("text", storyText);
                    ("imageUrl", imageUrl); ("audioUrl", audioUrl);
                    ("choices", choices)])).

(** [POST /api/game/start]; [now] is the value of [Date.now()]. *)
Definition start (now : Z) : Srv Response :=
  try_catchM
    (let sessionId := pretty now in
     game ← lift MainGame.newGameState;
     '(initialScene, game) ← on_new_engine game MainGame.startNewGame;
     _ ← sessions_set sessionId game;
     respond (JStr sessionId) initialScene)
    (fun _ => mret (status_json 500 (error_body "Failed to start game"))).

(** [POST /api/game/choice] with request body [reqBody]. *)
Definition choice (reqBody : JsVal) : Srv Response :=
  try_catchM
    (sessionId ← lift (Get reqBody "sessionId");
     choiceIndex ← lift (Get reqBody "choiceIndex");
     sessions ← the_sessions;
     match sessionId, sessions_get sessions sessionId with
     | JStr key, Some game =>
         index ← lift (parseInt10 choiceIndex);
         nextScene ← on_session key game (MainGame.makeChoice index);
         respond sessionId nextScene
     | _, _ => mret (status_json 404 (error_body "Game session not found"))
     end)
    (fun _ => mret (status_json 500 (error_body "Failed to process choice"))).

End WithProvider.
End MainServer.

(** *** The copy variant's server *)

Module CopyServer.
Import Str.

Section WithProvider.
Context `{Provider} `{JsonParser}.

Definition Srv : Type -> Type := M (gmap string CopyGame.GameState * World).

Definition respond (sessionId : JsVal) (scene : JsVal) : Srv Response :=
  imageUrl ← lift (imageUrlOf true scene);
  text ← lift (Get scene "text");
  let storyText := CopyIndex.extractText text in
  sceneChoices ← lift (Get scene "choices");
  let choices := CopyIndex.extractChoices sceneChoices in
  mret (json (JObj [("sessionId", sessionId); ("text", storyText);
                    ("imageUrl", imageUrl); ("choices", choices)])).

Definition start (now : Z) : Srv Response :=
  try_catchM
    (let sessionId := pretty now in
     let game := CopyGame.newGameState in
     '(initialScene, game) ← on_new_engine game CopyGame.startNewGame;
     _ ← sessions_set sessionId game;
     respond (JStr sessionId) initialScene)
    (fun _ => mret (status_json 500 (error_body "Failed to start game"))).

Definition choice (reqBody : JsVal) : Srv Response :=
  try_catchM
    (sessionId ← lift (Get reqBody "sessionId");
     choiceIndex ← lift (Get reqBody "choiceIndex");
     sessions ← the_sessions;
     match sessionId, sessions_get sessions sessionId with
     | JStr key, Some game =>
         index ← lift (parseInt10 choiceIndex);
         nextScene ← on_session key game (CopyGame.makeChoice index);
         respond sessionId nextScene
     | _, _ => mret (status_json 404 (error_body "Game session not found"))
     end)
    (fun _ => mret (status_json 500 (error_body "Failed to process choice"))).

End WithProvider.
End CopyServer.

(** ** Concrete instances for the examples

    A reference [JSON.parse] for the JSON texts used in the examples (integers
    are the only numbers it reads), and two stand-ins for the generation
    service. *)

Module Fixtures.
Import Str.

Definition is_json_space (c : ascii) : bool :=
  match c with "009" | "010" | "013" | " " => true | _ => false end%char.

Fixpoint skip_json_space (s : string) : string :=
  match s with
  | String c s' => if is_json_space c then skip_json_space s' else s
  | EmptyString => EmptyString
  end.

(** The characters of a string literal after its opening quote. *)
Fixpoint string_body (s : string) : option (string * string) :=
  match s with
  | EmptyString => None
  | String c s' =>
      if is_dq c then Some (EmptyString, s')
      else if Ascii.eqb c backslash then
        match s' with
        | String e s'' =>
            let unescaped :=
              if is_dq e then Some dq
              else if Ascii.eqb e backslash then Some backslash
              else if Ascii.eqb e "/" then Some "/"%char
              else if Ascii.eqb e "n" then Some nl
              else if Ascii.eqb e "t" then Some "009"%char
              else if Ascii.eqb e "r" then Some "013"%char
              else if Ascii.eqb e "b" then Some "008"%char
              else if Ascii.eqb e "f" then Some "012"%char
              else None in
            match unescaped, string_body s'' with
            | Some u, Some (body, rest) => Some (String u body, rest)
            | _, _ => None
            end
        | EmptyString => None
        end
      else if (N_of_ascii c <? 32)%N then None
      else match string_body s' with
           | Some (body, rest) => Some (String c body, rest)
           | None => None
           end
  end.

Fixpoint skip_digits (s : string) : string :=
  match s with
  | String c s' => if is_digit c then skip_digits s' else s
  | EmptyString => EmptyString
  end.

Definition number_at (neg : bool) (s : string) : option (JsVal * string) :=
  match digits_go None s with
  | Some z => Some (JNum (Num (if neg then - z else z)), skip_digits s)
  | None => None
  end.

Fixpoint value (fuel : nat) (s : string) : option (JsVal * string) :=
  match fuel with
  | O => None
  | S fuel' =>
      match skip_json_space s with
      | EmptyString => None
      | String c r =>
          if is_dq c then
            match string_body r with
            | Some (str, r') => Some (JStr str, r')
            | None => None
            end
          else if Ascii.eqb c "n" then
            if String.prefix "ull" r then Some (JNull, drop 3 r) else None
          else if Ascii.eqb c "t" then
            if String.prefix "rue" r then Some (JBool true, drop 3 r) else None
          else if Ascii.eqb c "f" then
            if String.prefix "alse" r then Some (JBool false, drop 4 r) else None
          else if Ascii.eqb c "-" then number_at true r
          else if is_digit c then number_at false (String c r)
          else if Ascii.eqb c "[" then
            match skip_json_space r with
            | String "]" r' => Some (JArr [], r')
            | _ =>
                (fix elems (n : nat) (s : string) (acc : list JsVal) :=
                   match n with
                   | O => None
                   | S n' =>
                       match value fuel' s with
                       | Some (v, r1) =>
                           match skip_json_space r1 with
                           | String "," r2 => elems n' r2 (acc ++ [v])
                           | String "]" r2 => Some (JArr (acc ++ [v]), r2)
                           | _ => None
                           end
                       | None => None
                       end
                   end) fuel' r []
            end
          else if Ascii.eqb c "{" then
            match skip_json_space r with
            | String "}" r' => Some (JObj [], r')
            | _ =>
                (fix members (n : nat) (s : string) (acc : list (string * JsVal)) :=
                   match n with
                   | O => None
                   | S n' =>
                       match skip_json_space s with
                       | String q r0 =>
                           if is_dq q then
                             match string_body r0 with
                             | Some (key, r1) =>
                                 match skip_json_space r1 with
                                 | String ":" r2 =>
                                     match value fuel' r2 with
                                     | Some (v, r3) =>
                                         match skip_json_space r3 with
                                         | String "," r4 => members n' r4 (acc ++ [(key, v)])
                                         | String "}" r4 => Some (JObj (acc ++ [(key, v)]), r4)
                                         | _ => None
                                         end
                                     | None => None
                                     end
                                 | _ => None
                                 end
                             | None => None
                             end
                           else None
                       | EmptyString => None
                       end
                   end) fuel' r []
            end
          else None
      end
  end.

Definition SyntaxError : JsVal :=
  JObj [("name", JStr "SyntaxError"); ("message", JStr "Unexpected token")].

Definition parse (s : string) : Completion JsVal :=
  match value (S (String.length s)) s with
  | Some (v, rest) =>
      match skip_json_space rest with
      | EmptyString => Normal v
      | _ => Throw SyntaxError
      end
  | None => Throw SyntaxError
  end.

Definition refParser : JsonParser := parse.

(** A service every call to which fails; the key is configured. *)
Definition failing : Provider :=
  {| World := unit;
     FAL_KEY := JStr "key";
     fal_subscribe := fun _ _ w => (Throw (Error "service unavailable"), w) |}.

(** A service that answers from a script, one entry per call, and fails once
    the script is used up. *)
Definition scripted : Provider :=
  {| World := list (Completion JsVal);
     FAL_KEY := JStr "key";
     fal_subscribe := fun _ _ w =>
       match w with
       | answer :: rest => (answer, rest)
       | [] => (Throw (Error "service unavailable"), [])
       end |}.

(** A process without [FAL_KEY]. *)
Definition keyless : Provider :=
  {| World := unit;
     FAL_KEY := JUndefined;
     fal_subscribe := fun _ _ w => (Throw (Error "unauthorized"), w) |}.

Definition output_result (text : string) : JsVal :=
  JObj [("data", JObj [("output", JStr text)]); ("requestId", JStr "r1")].


(** The engines as [startNewGame] leaves them when every call to the service
    fails. *)
Definition mainStartedScene : JsVal :=
  MainGame.sceneOf
    (JObj [("data", JObj [("output",
              JStr "The adventure continues... (Error generating story text)")]);
           ("error", JStr "service unavailable")])
    (JObj [("images", JArr []); ("error", JStr "service unavailable")])
    (str_list MainGame.DEFAULT_CHOICES).

Definition mainStarted : MainGame.GameState :=
  {| MainGame.currentScene := mainStartedScene; MainGame.history := [] |}.

Definition copyStartedScene : JsVal :=
  CopyGame.sceneOf (JStr CopyGame.startFallbackText) JNull
    (str_list CopyGame.initialChoices).

Definition copyStarted : CopyGame.GameState :=
  {| CopyGame.currentScene := copyStartedScene; CopyGame.history := [];
     CopyGame.choices := [] |}.

(** Answers for two games: each [start] of the main server calls the service
    four times (text, image, choices, speech); only the text calls succeed. *)
Definition unavailable : Completion JsVal := Throw (Error "service unavailable").

Definition twoStories : list (Completion JsVal) :=
  [Normal (output_result "Story A"); unavailable; unavailable; unavailable;
   Normal (output_result "Story B")].

Definition choiceRequest (sessionId : string) (choiceIndex : Z) : JsVal :=
  JObj [("sessionId", JStr sessionId); ("choiceIndex", JNum (Num choiceIndex))].

End Fixtures.

(** * Properties *)

(** ** Tactics and general facts *)

Ltac invc H := inversion H; subst; clear H.

(** Case analysis on the first [match] scrutinee or [if] condition found. *)
Ltac break_match :=
  match goal with
  | |- context [match ?x with _ => _ end] => destruct x eqn:?
  | H : context [match ?x with _ => _ end] |- _ => destruct x eqn:?
  end.

Ltac unfold_bind :=
  unfold mbind, mret, Completion_bind, Completion_ret, M_bind, M_ret, try_catch,
    try_catchM, lift, throw, gets, modify in *.

Definition is_string (v : JsVal) : Prop := exists s, v = JStr s.
Definition is_nonempty_string (v : JsVal) : Prop := exists s, v = JStr s /\ s <> "".

(** An array of exactly three non-empty strings. *)
Definition is_choice_triple (v : JsVal) : Prop :=
  exists a b c, v = JArr [JStr a; JStr b; JStr c] /\ a <> "" /\ b <> "" /\ c <> "".

Lemma truthy_string_nonempty s : truthy (JStr s) = true -> s <> "".
Proof. simpl. intros Ht ->. discriminate. Qed.

Lemma nonempty_string_truthy v : is_nonempty_string v -> truthy v = true.
Proof.
  intros (s & -> & Hs). simpl. destruct s; [congruence | reflexivity].
Qed.

Lemma app_cons c s t : String c s +:+ t = String c (s +:+ t).
Proof. reflexivity. Qed.

Lemma app_nil_l s : "" +:+ s = s.
Proof. reflexivity. Qed.

Lemma pretty_N_go_nonempty (x : N) s : s <> "" -> pretty_N_go x s <> "".
Proof.
  revert s. induction (N.lt_wf_0 x) as [x _ IH]. intros s Hs.
  destruct (decide (0 < x)%N) as [Hpos | Hnpos].
  - rewrite pretty_N_go_step by assumption.
    apply IH; [apply N.div_lt; lia | discriminate].
  - assert (x = 0%N) as -> by lia. rewrite pretty_N_go_0. assumption.
Qed.

Lemma pretty_N_nonempty (x : N) : pretty x <> "".
Proof.
  unfold pretty, pretty_N. destruct (decide (x = 0%N)); [discriminate |].
  assert (0 < x)%N as Hpos by lia.
  rewrite pretty_N_go_step by assumption.
  apply pretty_N_go_nonempty. discriminate.
Qed.

Lemma pretty_Z_nonempty (z : Z) : pretty z <> "".
Proof.
  destruct z as [| p | p]; unfold pretty, pretty_Z.
  - discriminate.
  - apply pretty_N_nonempty.
  - discriminate.
Qed.

(** [JSON.stringify] of anything but [undefined] and a function is a
    non-empty string. *)
Lemma stringify_opt_some v r :
  stringify_opt v = Normal r -> v <> JUndefined -> typeof v <> "function" ->
  exists s, r = Some s /\ s <> "".
Proof.
  intros Hs Hv Hf. destruct v as [| | b | n | s | elems | fields | | a src];
    simpl in Hs.
  - congruence.
  - invc Hs. eexists; split; [reflexivity | discriminate].
  - destruct b; invc Hs; eexists; (split; [reflexivity | discriminate]).
  - destruct n; invc Hs; eexists; (split; [reflexivity |]);
      [apply pretty_Z_nonempty | discriminate].
  - invc Hs. eexists; split; [reflexivity | discriminate].
  - unfold_bind. break_match; invc Hs. eexists; split; [reflexivity | discriminate].
  - unfold_bind. break_match; invc Hs. eexists; split; [reflexivity | discriminate].
  - discriminate.
  - by destruct Hf.
Qed.

Lemma JSON_stringify_truthy v r :
  JSON_stringify v = Normal r -> v <> JUndefined -> typeof v <> "function" ->
  is_nonempty_string r.
Proof.
  unfold JSON_stringify. unfold_bind. intros Hs Hv Hf.
  destruct (stringify_opt v) as [o |] eqn:Ho; [| discriminate].
  destruct (stringify_opt_some _ _ Ho Hv Hf) as (s & -> & Hne).
  invc Hs. exists s. split; [reflexivity | assumption].
Qed.

Lemma JSON_stringify_undefined v :
  JSON_stringify v = Normal JUndefined ->
  v = JUndefined \/ exists arity src, v = JFun arity src.
Proof.
  intros Hs. destruct v; try (by left); try (right; by eexists _, _);
    (apply JSON_stringify_truthy in Hs; [| discriminate | discriminate]);
    destruct Hs as (? & Hs & _); discriminate.
Qed.

(** Induction on values through the elements of arrays and the fields of
    objects. *)
Section JsVal_induction.
Variable P : JsVal -> Prop.
Hypothesis Hundefined : P JUndefined.
Hypothesis Hnull : P JNull.
Hypothesis Hbool : forall b, P (JBool b).
Hypothesis Hnum : forall n, P (JNum n).
Hypothesis Hstr : forall s, P (JStr s).
Hypothesis Harr : forall elems, Forall P elems -> P (JArr elems).
Hypothesis Hobj : forall fields, Forall (fun kv => P (snd kv)) fields -> P (JObj fields).
Hypothesis Hexotic : P JExotic.
Hypothesis Hfun : forall arity src, P (JFun arity src).

Fixpoint JsVal_nested_ind (v : JsVal) : P v :=
  match v with
  | JUndefined => Hundefined
  | JNull => Hnull
  | JBool b => Hbool b
  | JNum n => Hnum n
  | JStr s => Hstr s
  | JArr elems =>
      Harr elems
        ((fix go (l : list JsVal) : Forall P l :=
            match l with
            | [] => List.Forall_nil P
            | x :: rest => List.Forall_cons P x rest (JsVal_nested_ind x) (go rest)
            end) elems)
  | JObj fields =>
      Hobj fields
        ((fix go (l : list (string * JsVal)) : Forall (fun kv => P (snd kv)) l :=
            match l with
            | [] => List.Forall_nil _
            | (k, x) :: rest =>
                List.Forall_cons (fun kv => P (snd kv)) (k, x) rest
                  (JsVal_nested_ind x) (go rest)
            end) fields)
  | JExotic => Hexotic
  | JFun arity src => Hfun arity src
  end.

End JsVal_induction.

(** ** [extractText] (copy variant) *)

Section ExtractTextFacts.
Context `{JsonParser}.

(** The text of the outer catch block. *)
Definition catchText : string := "The story continues...".

(** [r] is read from the response [v]: it is [v.output] or [v.text], or
    [v.data.output], or the [output] of the JSON text that [v] or [v.data]
    is. *)
Definition from_field (v r : JsVal) : Prop :=
  (exists p, (p = "output" \/ p = "text") /\ Get v p = Normal r)
  \/ (exists data, Get v "data" = Normal data /\ Get data "output" = Normal r)
  \/ (exists s parsed,
        (v = JStr s \/ Get v "data" = Normal (JStr s))
        /\ JSON_parse s = Normal parsed /\ Get parsed "output" = Normal r).

(** The three kinds of result of [extractText] on the response [v]. *)
Definition text_result (v r : JsVal) : Prop :=
  is_nonempty_string r
  \/ (truthy r = true /\ from_field v r)
  \/ (r = JUndefined
      /\ exists data, Get v "data" = Normal data /\ typeof data = "function").

(** *** A string, as the response or as its [data] *)

Lemma parsed_output_or_rejected s e :
  JSON_parse s = Throw e -> CopyIndex.parsed_output_or s = Normal (JStr s).
Proof. intros He. unfold CopyIndex.parsed_output_or. by rewrite He. Qed.

Lemma parsed_output_or_unreadable s parsed e :
  JSON_parse s = Normal parsed -> Get parsed "output" = Throw e ->
  CopyIndex.parsed_output_or s = Normal (JStr s).
Proof.
  intros Hp Ho. unfold CopyIndex.parsed_output_or. rewrite Hp.
  change (mbind ?k (Normal parsed)) with (k parsed). cbv beta. by rewrite Ho.
Qed.

Lemma parsed_output_or_output s parsed o :
  JSON_parse s = Normal parsed -> Get parsed "output" = Normal o ->
  CopyIndex.parsed_output_or s = Normal (if truthy o then o else JStr s).
Proof.
  intros Hp Ho. unfold CopyIndex.parsed_output_or. rewrite Hp.
  change (mbind ?k (Normal parsed)) with (k parsed). cbv beta. by rewrite Ho.
Qed.

Lemma parsed_output_or_cases s :
  CopyIndex.parsed_output_or s = Normal (JStr s)
  \/ exists parsed o,
       JSON_parse s = Normal parsed /\ Get parsed "output" = Normal o
       /\ truthy o = true /\ CopyIndex.parsed_output_or s = Normal o.
Proof.
  destruct (JSON_parse s) as [parsed | e] eqn:Hp;
    [| left; by eapply parsed_output_or_rejected].
  destruct (Get parsed "output") as [o | e] eqn:Ho;
    [| left; by eapply parsed_output_or_unreadable].
  rewrite (parsed_output_or_output s parsed o Hp Ho).
  destruct (truthy o) eqn:Ht; [right; by exists parsed, o | by left].
Qed.

Lemma extractText_try_string s :
  s <> "" -> CopyIndex.extractText_try (JStr s) = CopyIndex.parsed_output_or s.
Proof.
  intros Hs. unfold CopyIndex.extractText_try.
  assert (Ht : truthy (JStr s) = true) by (by destruct s).
  by rewrite Ht.
Qed.

(** *** An object *)

(** What [extractText] does with a truthy [data] that is no string. *)
Definition textOfData (data : JsVal) : Completion JsVal :=
  has_output ←
    (if String.eqb (typeof data) "object"
     then match data with
          | JNull => Normal false
          | _ => output ← Get data "output"; Normal (truthy output)
          end
     else Normal false);
  if has_output : bool then Get data "output" else JSON_stringify data.

(** What [extractText] does with an object whose [data] is falsy. *)
Definition textOfFields (v : JsVal) : Completion JsVal :=
  output ← Get v "output";
  if truthy output then Normal output
  else text ← Get v "text";
       if truthy text then Normal text else Normal (JStr CopyIndex.defaultText).

Lemma extractText_try_object v :
  truthy v = true -> typeof v = "object" ->
  CopyIndex.extractText_try v
  = (data ← Get v "data";
     if truthy data then
       match data with
       | JStr d => CopyIndex.parsed_output_or d
       | _ => textOfData data
       end
     else textOfFields v).
Proof.
  intros Ht Hty. unfold CopyIndex.extractText_try. rewrite Ht.
  destruct v; try discriminate; reflexivity.
Qed.

Lemma textOfData_output data o :
  truthy data = true -> typeof data = "object" ->
  Get data "output" = Normal o -> truthy o = true ->
  textOfData data = Normal o.
Proof.
  intros Ht Hty Ho Hto. unfold textOfData. rewrite Hty.
  change (String.eqb "object" "object") with true. cbv iota.
  destruct data; try discriminate; rewrite Ho;
    change (mbind ?k (Normal o)) with (k o); cbv beta;
    rewrite Hto; reflexivity.
Qed.

Lemma textOfData_unreadable data e :
  truthy data = true -> typeof data = "object" ->
  Get data "output" = Throw e -> textOfData data = Throw e.
Proof.
  intros Ht Hty Ho. unfold textOfData. rewrite Hty.
  change (String.eqb "object" "object") with true. cbv iota.
  destruct data; try discriminate; by rewrite Ho.
Qed.

Lemma textOfData_stringify data :
  truthy data = true ->
  typeof data <> "object"
  \/ (exists o, Get data "output" = Normal o /\ truthy o = false) ->
  textOfData data = JSON_stringify data.
Proof.
  intros Ht [Hty | (o & Ho & Hto)]; unfold textOfData.
  - destruct (String.eqb_spec (typeof data) "object") as [Heq | _]; [by destruct Hty |].
    reflexivity.
  - destruct (String.eqb (typeof data) "object"); [| reflexivity].
    destruct data; try discriminate; rewrite Ho;
      change (mbind ?k (Normal o)) with (k o); cbv beta;
      rewrite Hto; reflexivity.
Qed.

Lemma textOfData_result v data r :
  Get v "data" = Normal data -> truthy data = true ->
  textOfData data = Normal r -> text_result v r.
Proof.
  intros Hd Ht Hr.
  destruct (String.eqb_spec (typeof data) "object") as [Hty | Hty].
  - destruct (Get data "output") as [o | e] eqn:Ho.
    + destruct (truthy o) eqn:Hto.
      * rewrite (textOfData_output data o Ht Hty Ho Hto) in Hr. injection Hr as <-.
        right; left. split; [exact Hto |]. right; left. by exists data.
      * rewrite (textOfData_stringify data Ht) in Hr by (right; by exists o).
        left. apply (JSON_stringify_truthy data r Hr).
        -- intros ->. discriminate.
        -- rewrite Hty. discriminate.
    + rewrite (textOfData_unreadable data e Ht Hty Ho) in Hr. discriminate.
  - rewrite (textOfData_stringify data Ht) in Hr by (by left).
    destruct (String.eqb_spec (typeof data) "function") as [Hf | Hf].
    + destruct data; try discriminate Hf. injection Hr as <-.
      right; right. split; [reflexivity |]. by eexists.
    + left. apply (JSON_stringify_truthy data r Hr); [| exact Hf].
      intros ->. discriminate.
Qed.

Lemma textOfFields_result v r :
  textOfFields v = Normal r -> text_result v r.
Proof.
  unfold textOfFields. intros Hr.
  destruct (Get v "output") as [o | e] eqn:Ho; [| discriminate].
  change (mbind ?k (Normal o)) with (k o) in Hr. cbv beta in Hr.
  destruct (truthy o) eqn:Hto.
  - injection Hr as <-. right; left. split; [exact Hto |]. left. exists "output". auto.
  - destruct (Get v "text") as [t | e] eqn:Htx; [| discriminate].
    change (mbind ?k (Normal t)) with (k t) in Hr. cbv beta in Hr.
    destruct (truthy t) eqn:Htt; injection Hr as <-.
    + right; left. split; [exact Htt |]. left. exists "text". auto.
    + left. by eexists.
Qed.

Lemma parsed_output_or_result v s r :
  s <> "" -> v = JStr s \/ Get v "data" = Normal (JStr s) ->
  CopyIndex.parsed_output_or s = Normal r -> text_result v r.
Proof.
  intros Hs Hv Hr.
  destruct (parsed_output_or_cases s) as [Heq | (parsed & o & Hp & Ho & Hto & Heq)];
    rewrite Heq in Hr; injection Hr as <-.
  - left. by exists s.
  - right; left. split; [exact Hto |]. right; right. by exists s, parsed.
Qed.

Lemma extractText_try_result v r :
  CopyIndex.extractText_try v = Normal r -> text_result v r.
Proof.
  destruct (truthy v) eqn:Ht.
  2: { unfold CopyIndex.extractText_try. rewrite Ht. intros [= <-]. left. by eexists. }
  destruct (String.eqb_spec (typeof v) "object") as [Hty | Hty].
  - rewrite (extractText_try_object v Ht Hty).
    destruct (Get v "data") as [data | e] eqn:Hd; [| discriminate].
    change (mbind ?k (Normal data)) with (k data). cbv beta.
    destruct (truthy data) eqn:Htd; [| apply textOfFields_result].
    destruct data; try (by apply (textOfData_result v _ r Hd Htd)).
    apply parsed_output_or_result; [by apply truthy_string_nonempty | by right].
  - destruct v; try discriminate Ht; try (by destruct Hty);
      try (unfold CopyIndex.extractText_try; rewrite Ht; simpl;
           intros [= <-]; left; by eexists).
    rewrite extractText_try_string by (by apply truthy_string_nonempty).
    apply parsed_output_or_result; [by apply truthy_string_nonempty | by left].
Qed.

Lemma extractText_result v : text_result v (CopyIndex.extractText v).
Proof.
  unfold CopyIndex.extractText.
  destruct (CopyIndex.extractText_try v) as [r | e] eqn:Htry.
  - by apply extractText_try_result.
  - left. by eexists.
Qed.

End ExtractTextFacts.

(** ** [extractChoices] (both servers) *)

Section ExtractChoicesFacts.
Import Str.

Lemma pad_or_truncate_firstn (l : list string) :
  MainIndex.pad_or_truncate l = firstn 3 (l ++ MainIndex.DEFAULT_CHOICES).
Proof.
  unfold MainIndex.pad_or_truncate.
  rewrite firstn_app.
  destruct (length l <? 3)%nat eqn:Hlen.
  - apply Nat.ltb_lt in Hlen. rewrite (@firstn_all2 _ 3 l) by lia. reflexivity.
  - apply Nat.ltb_ge in Hlen.
    replace (3 - length l)%nat with 0%nat by lia.
    simpl. by rewrite app_nil_r.
Qed.

Lemma firstn_3_defaults_length (l : list string) :
  length (firstn 3 (l ++ MainIndex.DEFAULT_CHOICES)) = 3%nat.
Proof.
  rewrite length_firstn, length_app.
  change (length MainIndex.DEFAULT_CHOICES) with 3%nat. lia.
Qed.

Lemma length_3_inv {A} (l : list A) :
  length l = 3%nat -> exists a b c, l = [a; b; c].
Proof.
  destruct l as [| a [| b [| c [| d l]]]]; simpl; try discriminate.
  intros _. by exists a, b, c.
Qed.

(** What the main server's [extractChoices] returns for a response that is
    not an array: the defaults, or the first three of the quoted substrings
    of [data.output] followed by the defaults. *)
Definition extracted_from (v r : JsVal) : Prop :=
  exists data o ms,
    Get v "data" = Normal data /\ Get data "output" = Normal (JStr o) /\
    match_quoted o = Some ms /\
    r = str_list (firstn 3 (map remove_quotes ms ++ MainIndex.DEFAULT_CHOICES)).

Lemma main_extractChoices_try_non_array v r :
  Array_isArray v = false ->
  MainIndex.extractChoices_try v = Normal r ->
  r = str_list MainIndex.DEFAULT_CHOICES \/ extracted_from v r.
Proof.
  intros Harr. unfold MainIndex.extractChoices_try.
  destruct (MainIndex.log_preview v) as [preview | e]; [| discriminate].
  change (mbind ?k (Normal preview)) with (k preview). cbv beta.
  destruct v as [| | b | n | s | elems | fields | | a src]; try discriminate Harr;
    try (intros [= <-]; by left).
  - simpl. destruct b; intros [= <-]; by left.
  - simpl. destruct (num_truthy n); intros [= <-]; by left.
  - simpl. destruct (negb (s =? "")%string); intros [= <-]; by left.
  - simpl truthy. simpl typeof. simpl negb. simpl orb. cbv iota.
    simpl Get. set (data := assoc "data" fields).
    change (mbind ?k (Normal data)) with (k data). cbv beta.
    destruct (truthy data) eqn:Hdata; [| intros [= <-]; by left].
    destruct (Get data "output") as [output | e] eqn:Hout; [| discriminate].
    change (mbind ?k (Normal output)) with (k output). cbv beta.
    change (mbind ?k (Normal (truthy output))) with (k (truthy output)). cbv beta.
    destruct (truthy output) eqn:Htout; [| intros [= <-]; by left].
    change (mbind ?k (Normal data)) with (k data). cbv beta. rewrite Hout.
    change (mbind ?k (Normal output)) with (k output). cbv beta.
    destruct (call_match_quoted output) as [[ms |] | e] eqn:Hm;
      [| intros [= <-]; by left | discriminate].
    change (mbind ?k (Normal (Some ms))) with (k (Some ms)). cbv beta iota.
    intros [= <-]. right.
    destruct output as [| | | | o | | | |]; try discriminate Hm.
    simpl in Hm. injection Hm as Hm.
    exists data, o, ms. repeat split; try assumption; try reflexivity.
    by rewrite pad_or_truncate_firstn.
Qed.

Lemma main_extractChoices_non_array v :
  Array_isArray v = false ->
  MainIndex.extractChoices v = str_list MainIndex.DEFAULT_CHOICES
  \/ extracted_from v (MainIndex.extractChoices v).
Proof.
  intros Harr. unfold MainIndex.extractChoices.
  destruct (MainIndex.extractChoices_try v) as [r | e] eqn:Htry; [| by left].
  by apply main_extractChoices_try_non_array.
Qed.

Lemma main_extractChoices_three v :
  Array_isArray v = false ->
  exists a b c, MainIndex.extractChoices v = str_list [a; b; c].
Proof.
  intros Harr.
  destruct (main_extractChoices_non_array v Harr) as [-> | (data & o & ms & _ & _ & _ & ->)].
  - by exists "Continue exploring", "Take a different path",
            "Stop and observe your surroundings".
  - destruct (length_3_inv _ (firstn_3_defaults_length (map remove_quotes ms)))
      as (a & b & c & ->).
    by exists a, b, c.
Qed.

Lemma main_extractChoices_array arr :
  MainIndex.extractChoices (JArr arr) = JArr arr
  \/ MainIndex.extractChoices (JArr arr) = str_list MainIndex.DEFAULT_CHOICES.
Proof.
  unfold MainIndex.extractChoices, MainIndex.extractChoices_try.
  destruct (MainIndex.log_preview (JArr arr)) as [preview | e]; [| by right].
  change (mbind ?k (Normal preview)) with (k preview). cbv beta iota.
  destruct arr; [by right | by left].
Qed.

(** An array that can be serialised and is not empty is returned as it is. *)
Lemma main_extractChoices_array_id x arr preview :
  MainIndex.log_preview (JArr (x :: arr)) = Normal preview ->
  MainIndex.extractChoices (JArr (x :: arr)) = JArr (x :: arr).
Proof.
  intros Hp. unfold MainIndex.extractChoices, MainIndex.extractChoices_try.
  rewrite Hp. reflexivity.
Qed.

(** *** When the main server's [extractChoices] extracts *)

(** A value all of whose property reads succeed: no exotic object in it. *)
Fixpoint readable (v : JsVal) : bool :=
  match v with
  | JArr elems => forallb readable elems
  | JObj fields => forallb (fun kv => let '(_, x) := kv in readable x) fields
  | JExotic => false
  | _ => true
  end.

Lemma stringify_opt_readable v :
  readable v = true -> exists o, stringify_opt v = Normal o.
Proof.
  induction v as [| | b | n | s | elems IH | fields IH | | a src]
    using JsVal_nested_ind; intros Hr; try discriminate Hr; try (by eexists).
  - destruct b; by eexists.
  - destruct n; by eexists.
  - simpl in Hr. simpl.
    assert (Hparts : exists parts,
      (fix go (l : list JsVal) : Completion (list string) :=
         match l with
         | [] => Normal []
         | x :: rest =>
             sx ← stringify_opt x;
             srest ← go rest;
             Normal (default "null" sx :: srest)
         end) elems = Normal parts).
    { induction IH as [| x rest Hx _ IHrest]; [by eexists |].
      simpl in Hr. apply andb_prop in Hr as [Hrx Hrest].
      destruct (Hx Hrx) as [sx ->]. destruct (IHrest Hrest) as [parts ->].
      by eexists. }
    destruct Hparts as [parts ->]. by eexists.
  - simpl in Hr. simpl.
    assert (Hparts : exists parts,
      (fix go (l : list (string * JsVal)) : Completion (list string) :=
         match l with
         | [] => Normal []
         | (k, x) :: rest =>
             sx ← stringify_opt x;
             srest ← go rest;
             Normal (match sx with
                     | Some t => (Json.quote k +:+ ":" +:+ t) :: srest
                     | None => srest
                     end)
         end) fields = Normal parts).
    { induction IH as [| [k x] rest Hx _ IHrest]; [by eexists |].
      simpl in Hr. apply andb_prop in Hr as [Hrx Hrest].
      destruct (Hx Hrx) as [sx Hsx]. simpl in Hsx. rewrite Hsx.
      destruct (IHrest Hrest) as [parts ->]. by eexists. }
    destruct Hparts as [parts ->]. by eexists.
Qed.

(** The first line of the main server's [extractChoices] goes through for an
    array and for an object that can be read. *)
Lemma log_preview_readable v :
  readable v = true -> typeof v = "object" ->
  exists preview, MainIndex.log_preview v = Normal preview.
Proof.
  intros Hr Hty. unfold MainIndex.log_preview, JSON_stringify.
  destruct (stringify_opt_readable v Hr) as [o Ho].
  destruct (stringify_opt_some v o Ho) as (s & -> & _).
  - intros ->. discriminate.
  - rewrite Hty. discriminate.
  - rewrite Ho. by eexists.
Qed.

(** An array that is not empty and can be read is returned as it is. *)
Lemma main_extractChoices_array_readable x arr :
  readable (JArr (x :: arr)) = true ->
  MainIndex.extractChoices (JArr (x :: arr)) = JArr (x :: arr).
Proof.
  intros Hr.
  destruct (log_preview_readable (JArr (x :: arr)) Hr eq_refl) as [preview Hp].
  by eapply main_extractChoices_array_id.
Qed.

Lemma match_quoted_nonempty o ms : match_quoted o = Some ms -> o <> "".
Proof. intros Hm ->. discriminate. Qed.

(** A response that can be read and whose [data.output] is a string with
    quoted substrings gives those, padded or cut to three. *)
Lemma main_extractChoices_quoted v data o ms :
  Array_isArray v = false -> readable v = true ->
  Get v "data" = Normal data -> Get data "output" = Normal (JStr o) ->
  match_quoted o = Some ms ->
  MainIndex.extractChoices v
  = str_list (MainIndex.pad_or_truncate (map remove_quotes ms)).
Proof.
  intros Harr Hr Hdata Hout Hm.
  assert (Ho : truthy (JStr o) = true).
  { apply match_quoted_nonempty in Hm. by destruct o. }
  assert (Hd : truthy data = true).
  { destruct data; try reflexivity; simpl in Hout; discriminate. }
  destruct v as [| | b | n | s | elems | fields | | a src];
    try discriminate Harr; try discriminate Hr; try discriminate Hdata;
    try (simpl in Hdata; injection Hdata as <-; discriminate Hout).
  - destruct (log_preview_readable (JObj fields) Hr eq_refl) as [preview Hp].
    unfold MainIndex.extractChoices, MainIndex.extractChoices_try. rewrite Hp.
    change (mbind ?k (Normal preview)) with (k preview). cbv beta iota.
    simpl truthy. simpl typeof. simpl negb. simpl orb. cbv iota.
    rewrite Hdata. change (mbind ?k (Normal data)) with (k data). cbv beta.
    rewrite Hd, Hout. change (mbind ?k (Normal (JStr o))) with (k (JStr o)). cbv beta.
    rewrite Ho. change (mbind ?k (Normal true)) with (k true). cbv beta iota.
    change (mbind ?k (Normal data)) with (k data). cbv beta. rewrite Hout.
    change (mbind ?k (Normal (JStr o))) with (k (JStr o)). cbv beta.
    simpl call_match_quoted. rewrite Hm. reflexivity.
Qed.

(** Padding and cutting, written out. *)
Lemma pad_or_truncate_short (l : list string) :
  (length l < 3)%nat ->
  MainIndex.pad_or_truncate l
  = l ++ firstn (3 - length l) MainIndex.DEFAULT_CHOICES.
Proof.
  intros Hl. unfold MainIndex.pad_or_truncate.
  apply Nat.ltb_lt in Hl. by rewrite Hl.
Qed.

Lemma pad_or_truncate_long (l : list string) :
  (3 <= length l)%nat -> MainIndex.pad_or_truncate l = firstn 3 l.
Proof.
  intros Hl. unfold MainIndex.pad_or_truncate.
  apply Nat.ltb_ge in Hl. by rewrite Hl.
Qed.

(** Without quoted substrings in [data.output] the result is the defaults. *)
Definition quoted_output (v : JsVal) (ms : list string) : Prop :=
  exists data o,
    Get v "data" = Normal data /\ Get data "output" = Normal (JStr o)
    /\ match_quoted o = Some ms.

Lemma main_extractChoices_unquoted v :
  Array_isArray v = false -> (forall ms, ~ quoted_output v ms) ->
  MainIndex.extractChoices v = str_list MainIndex.DEFAULT_CHOICES.
Proof.
  intros Harr Hno.
  destruct (main_extractChoices_non_array v Harr)
    as [Hd | (data & o & ms & Hdata & Hout & Hm & _)]; [exact Hd |].
  destruct (Hno ms). by exists data, o.
Qed.

Lemma main_extractChoices_unreadable v e :
  MainIndex.log_preview v = Throw e ->
  MainIndex.extractChoices v = str_list MainIndex.DEFAULT_CHOICES.
Proof.
  intros Hp. unfold MainIndex.extractChoices, MainIndex.extractChoices_try.
  by rewrite Hp.
Qed.

Context `{JsonParser}.

Definition nonempty_array (v : JsVal) : Prop := exists x l, v = JArr (x :: l).

Lemma nonempty_or_default_nonempty arr :
  nonempty_array (CopyIndex.nonempty_or_default arr).
Proof.
  destruct arr as [| x l]; simpl.
  - by eexists _, _.
  - by exists x, l.
Qed.

Lemma defaultChoices_nonempty : nonempty_array CopyIndex.defaultChoices.
Proof. by eexists _, _. Qed.

Lemma choices_in_codeblock_nonempty s c :
  CopyIndex.choices_in_codeblock s = Normal (Some c) -> nonempty_array c.
Proof.
  unfold CopyIndex.choices_in_codeblock. unfold_bind.
  destruct (match_codeblock s) as [group |]; [| discriminate].
  destruct (truthy (JStr group)); [| discriminate].
  destruct (JSON_parse group) as [choices | e]; [| discriminate].
  destruct choices as [| | | | | [| x l] | | |]; try discriminate.
  intros [= <-]. by exists x, l.
Qed.

Lemma copy_extractChoices_try_nonempty v r :
  CopyIndex.extractChoices_try v = Normal r -> nonempty_array r.
Proof.
  unfold CopyIndex.extractChoices_try.
  assert (Hbody : forall w,
    (has_data ←
       (if truthy w && String.eqb (typeof w) "object"
        then data ← Get w "data"; Normal (truthy data)
        else Normal false);
     if has_data : bool then
       data ← Get w "data";
       match data with
       | JArr arr => Normal (CopyIndex.nonempty_or_default arr)
       | _ =>
           from_data ← (match data with
                        | JStr d => CopyIndex.choices_in_codeblock d
                        | _ => Normal None
                        end);
           match from_data with
           | Some choices => Normal choices
           | None =>
               from_output ←
                 (if String.eqb (typeof data) "object"
                  then (match data with
                        | JNull => Normal None
                        | _ =>
                            output ← Get data "output";
                            if truthy output then
                              match output with
                              | JStr o => CopyIndex.choices_in_codeblock o
                              | _ => Normal None
                              end
                            else Normal None
                        end)
                  else Normal None);
               Normal (default CopyIndex.defaultChoices from_output)
           end
       end
     else Normal CopyIndex.defaultChoices) = Normal r -> nonempty_array r).
  { intros w.
    destruct (truthy w && String.eqb (typeof w) "object");
      [| intros [= <-]; apply defaultChoices_nonempty].
    destruct (Get w "data") as [data | e] eqn:Hd; [| discriminate].
    change (mbind ?k (Normal data)) with (k data). cbv beta.
    change (mbind ?k (Normal (truthy data))) with (k (truthy data)). cbv beta.
    destruct (truthy data); [| intros [= <-]; apply defaultChoices_nonempty].
    change (mbind ?k (Normal data)) with (k data). cbv beta.
    assert (Hout : forall from_output : Completion (option JsVal),
      (forall c, from_output = Normal (Some c) -> nonempty_array c) ->
      (fo ← from_output; Normal (default CopyIndex.defaultChoices fo)) = Normal r ->
      nonempty_array r).
    { intros [[c |] | e] Hc; unfold_bind; simpl; try discriminate.
      - intros [= <-]. by apply Hc.
      - intros [= <-]. apply defaultChoices_nonempty. }
    assert (Hget : forall d : JsVal,
      forall c,
      (output ← Get d "output";
       if truthy output then
         match output with
         | JStr o => CopyIndex.choices_in_codeblock o
         | _ => Normal None
         end
       else Normal None) = Normal (Some c) -> nonempty_array c).
    { intros d c. unfold_bind.
      destruct (Get d "output") as [output |]; [| discriminate].
      destruct (truthy output); [| discriminate].
      destruct output; try discriminate.
      apply choices_in_codeblock_nonempty. }
    destruct data as [| | b | n | s | arr | fields | | a src].
    - apply Hout. discriminate.
    - apply Hout. discriminate.
    - apply Hout. discriminate.
    - apply Hout. discriminate.
    - destruct (CopyIndex.choices_in_codeblock s) as [[c |] | e] eqn:Hcb.
      + intros [= <-]. by eapply choices_in_codeblock_nonempty.
      + apply Hout. discriminate.
      + discriminate.
    - intros [= <-]. apply nonempty_or_default_nonempty.
    - apply Hout. apply Hget.
    - apply Hout. apply Hget.
    - apply Hout. discriminate. }
  destruct v; try apply Hbody.
  intros [= <-]. apply nonempty_or_default_nonempty.
Qed.

Lemma copy_extractChoices_nonempty v : nonempty_array (CopyIndex.extractChoices v).
Proof.
  unfold CopyIndex.extractChoices.
  destruct (CopyIndex.extractChoices_try v) eqn:Htry.
  - by eapply copy_extractChoices_try_nonempty.
  - by eexists _, _.
Qed.

(** *** When the copy server's [extractChoices] finds choices *)

(** The text [s] holds a fenced JSON array that [JSON.parse] reads as the
    non-empty array [c]. *)
Definition fenced_choices (s : string) (c : JsVal) : Prop :=
  exists group,
    match_codeblock s = Some group /\ JSON_parse group = Normal c
    /\ nonempty_array c.

Lemma codeblock_at_nonempty s g : codeblock_at s = Some g -> g <> "".
Proof.
  unfold codeblock_at. destruct (String.prefix _ s); [| discriminate].
  destruct (skip_spaces (drop 7 s)) as [| c rest]; [discriminate |].
  destruct (Ascii.eqb_spec c "["%char) as [-> | Hne].
  - destruct (lazy_to_close rest); [| discriminate]. intros [= <-]. discriminate.
  - destruct c as [[] [] [] [] [] [] [] []]; try discriminate. by destruct Hne.
Qed.

Lemma match_codeblock_nonempty s g : match_codeblock s = Some g -> g <> "".
Proof.
  induction s as [| c s IH]; simpl.
  - discriminate.
  - destruct (codeblock_at (String c s)) eqn:Hc.
    + intros [= <-]. by eapply codeblock_at_nonempty.
    + exact IH.
Qed.

Lemma choices_in_codeblock_some s c :
  CopyIndex.choices_in_codeblock s = Normal (Some c) <-> fenced_choices s c.
Proof.
  unfold CopyIndex.choices_in_codeblock, fenced_choices. split.
  - destruct (match_codeblock s) as [group |] eqn:Hm; [| discriminate].
    destruct (truthy (JStr group)); [| discriminate].
    unfold try_catch.
    destruct (JSON_parse group) as [choices | e] eqn:Hp; [| discriminate].
    change (mbind ?k (Normal choices)) with (k choices). cbv beta.
    destruct choices as [| | | | | [| x l] | | |]; try discriminate.
    intros [= <-]. exists group. repeat split; auto. by exists x, l.
  - intros (group & Hm & Hp & x & l & ->). rewrite Hm.
    assert (Ht : truthy (JStr group) = true).
    { apply match_codeblock_nonempty in Hm. by destruct group. }
    rewrite Ht. unfold try_catch. by rewrite Hp.
Qed.

Lemma choices_in_codeblock_total s :
  exists o, CopyIndex.choices_in_codeblock s = Normal o.
Proof.
  unfold CopyIndex.choices_in_codeblock.
  destruct (match_codeblock s) as [group |]; [| by eexists].
  destruct (truthy (JStr group)); [| by eexists].
  unfold try_catch. destruct (JSON_parse group) as [choices | e]; by eexists.
Qed.

Lemma choices_in_codeblock_none s :
  (forall c, ~ fenced_choices s c) -> CopyIndex.choices_in_codeblock s = Normal None.
Proof.
  intros Hno. destruct (choices_in_codeblock_total s) as [[c |] Ho]; [| exact Ho].
  apply choices_in_codeblock_some in Ho. by destruct (Hno c).
Qed.

(** The choices the copy server's [extractChoices] finds in a response that
    is no array: [data] when it is a non-empty array, or the fenced array in
    [data] or in [data.output]. *)
Definition copy_payload (v c : JsVal) : Prop :=
  exists data,
    Get v "data" = Normal data
    /\ ((data = c /\ nonempty_array c)
        \/ (exists d, data = JStr d /\ fenced_choices d c)
        \/ (exists o, Get data "output" = Normal (JStr o) /\ fenced_choices o c)).

Lemma copy_extractChoices_array x l :
  CopyIndex.extractChoices (JArr (x :: l)) = JArr (x :: l).
Proof. reflexivity. Qed.

Lemma copy_extractChoices_try_object fields :
  CopyIndex.extractChoices_try (JObj fields)
  = (let data := assoc "data" fields in
     if truthy data then
       match data with
       | JArr arr => Normal (CopyIndex.nonempty_or_default arr)
       | _ =>
           from_data ← (match data with
                        | JStr d => CopyIndex.choices_in_codeblock d
                        | _ => Normal None
                        end);
           match from_data with
           | Some choices => Normal choices
           | None =>
               from_output ←
                 (if String.eqb (typeof data) "object"
                  then (match data with
                        | JNull => Normal None
                        | _ =>
                            output ← Get data "output";
                            if truthy output then
                              match output with
                              | JStr o => CopyIndex.choices_in_codeblock o
                              | _ => Normal None
                              end
                            else Normal None
                        end)
                  else Normal None);
               Normal (default CopyIndex.defaultChoices from_output)
           end
       end
     else Normal CopyIndex.defaultChoices).
Proof.
  unfold CopyIndex.extractChoices_try. simpl truthy. simpl typeof. simpl andb.
  cbv iota. simpl Get.
  change (mbind ?k (Normal (assoc "data" fields))) with (k (assoc "data" fields)).
  cbv beta zeta.
  change (mbind ?k (Normal (truthy (assoc "data" fields))))
    with (k (truthy (assoc "data" fields))).
  cbv beta. destruct (truthy (assoc "data" fields)); reflexivity.
Qed.

Lemma copy_extractChoices_data_array v x l :
  Array_isArray v = false -> Get v "data" = Normal (JArr (x :: l)) ->
  CopyIndex.extractChoices v = JArr (x :: l).
Proof.
  intros Harr Hd.
  destruct v as [| | b | n | s | elems | fields | | a src];
    try discriminate Harr; try discriminate Hd;
    try (simpl in Hd; destruct (String.eqb "data" "length"); discriminate Hd).
  simpl in Hd. injection Hd as Hd.
  unfold CopyIndex.extractChoices. rewrite copy_extractChoices_try_object.
  cbv zeta. rewrite Hd. reflexivity.
Qed.

Lemma copy_extractChoices_fenced_data v d c :
  Array_isArray v = false -> Get v "data" = Normal (JStr d) -> fenced_choices d c ->
  CopyIndex.extractChoices v = c.
Proof.
  intros Harr Hd Hf.
  assert (Hne : d <> "").
  { destruct Hf as (g & Hm & _). intros ->. simpl in Hm.
    destruct (codeblock_at "") eqn:Hc; discriminate. }
  destruct v as [| | b | n | s | elems | fields | | a src];
    try discriminate Harr; try discriminate Hd;
    try (simpl in Hd; destruct (String.eqb "data" "length"); discriminate Hd).
  simpl in Hd. injection Hd as Hd.
  unfold CopyIndex.extractChoices. rewrite copy_extractChoices_try_object.
  cbv zeta. rewrite Hd.
  assert (Ht : truthy (JStr d) = true) by (by destruct d).
  rewrite Ht. apply choices_in_codeblock_some in Hf. by rewrite Hf.
Qed.

Lemma copy_extractChoices_fenced_output v data o c :
  Array_isArray v = false -> Get v "data" = Normal data ->
  Get data "output" = Normal (JStr o) -> fenced_choices o c ->
  CopyIndex.extractChoices v = c.
Proof.
  intros Harr Hd Ho Hf.
  assert (Hne : truthy (JStr o) = true).
  { destruct Hf as (g & Hm & _). destruct o; [| reflexivity]. simpl in Hm.
    destruct (codeblock_at "") eqn:Hc; discriminate. }
  assert (Hdata : exists f2, data = JObj f2).
  { destruct data; simpl in Ho; try discriminate; try (by eexists);
      destruct (String.eqb "output" "length"); discriminate. }
  destruct Hdata as [f2 ->].
  destruct v as [| | b | n | s | elems | fields | | a src];
    try discriminate Harr; try discriminate Hd;
    try (simpl in Hd; destruct (String.eqb "data" "length"); discriminate Hd).
  simpl in Hd. injection Hd as Hd.
  unfold CopyIndex.extractChoices. rewrite copy_extractChoices_try_object.
  cbv zeta. rewrite Hd. simpl truthy. cbv iota.
  change (mbind ?k (Normal None)) with (k None). cbv beta iota.
  simpl typeof. change (String.eqb "object" "object") with true. cbv iota.
  rewrite Ho. change (mbind ?k (Normal (JStr o))) with (k (JStr o)). cbv beta.
  rewrite Hne. apply choices_in_codeblock_some in Hf. by rewrite Hf.
Qed.

(** Without such choices, and when no property read throws, the result is
    the default triple. *)
Lemma copy_extractChoices_no_choices v :
  Array_isArray v = false -> v <> JExotic -> Get v "data" <> Normal JExotic ->
  (forall c, ~ copy_payload v c) ->
  CopyIndex.extractChoices v = CopyIndex.defaultChoices.
Proof.
  intros Harr Hv Hd Hno.
  destruct v as [| | b | n | s | elems | fields | | a src];
    try discriminate Harr; try (by destruct Hv); try reflexivity.
  - by destruct b.
  - unfold CopyIndex.extractChoices, CopyIndex.extractChoices_try.
    by destruct (truthy (JNum n)).
  - unfold CopyIndex.extractChoices, CopyIndex.extractChoices_try.
    by destruct (truthy (JStr s)).
  - unfold CopyIndex.extractChoices. rewrite copy_extractChoices_try_object.
    cbv zeta. set (data := assoc "data" fields) in *.
    assert (Hget : Get (JObj fields) "data" = Normal data) by reflexivity.
    destruct (truthy data) eqn:Ht; [| reflexivity].
    destruct data as [| | b | n | d | arr | f2 | | a src] eqn:Hdata;
      try discriminate Ht; try reflexivity.
    + rewrite choices_in_codeblock_none; [reflexivity |].
      intros c Hf. apply (Hno c). exists (JStr d). split; [exact Hget |].
      right; left. by exists d.
    + destruct arr as [| x l]; [reflexivity |].
      destruct (Hno (JArr (x :: l))). exists (JArr (x :: l)).
      split; [exact Hget |]. left. split; [reflexivity | by exists x, l].
    + change (mbind ?k (Normal None)) with (k None). cbv beta iota.
      simpl typeof. change (String.eqb "object" "object") with true. cbv iota.
      destruct (Get (JObj f2) "output") as [output | e] eqn:Ho; [| discriminate Ho].
      change (mbind ?k (Normal output)) with (k output). cbv beta.
      destruct (truthy output); [| reflexivity].
      destruct output; try reflexivity.
      rewrite choices_in_codeblock_none; [reflexivity |].
      intros c Hf. apply (Hno c). exists (JObj f2). split; [exact Hget |].
      right; right. by eexists.
    + by destruct Hd.
Qed.

(** A property read throws exactly on an exotic response or exotic [data];
    the result is then the triple of the catch block. *)
Lemma copy_extractChoices_exotic v :
  v = JExotic \/ Get v "data" = Normal JExotic ->
  CopyIndex.extractChoices v = CopyIndex.catchChoices.
Proof.
  intros [-> | Hd]; [reflexivity |].
  destruct v as [| | b | n | s | elems | fields | | a src]; try discriminate Hd;
    try (simpl in Hd; destruct (String.eqb "data" "length"); discriminate Hd).
  simpl in Hd. injection Hd as Hd.
  unfold CopyIndex.extractChoices. rewrite copy_extractChoices_try_object.
  cbv zeta. rewrite Hd. reflexivity.
Qed.

Lemma copy_extractChoices_try_throws v e :
  CopyIndex.extractChoices_try v = Throw e ->
  v = JExotic \/ Get v "data" = Normal JExotic.
Proof.
  intros Ht.
  destruct v as [| | b | n | s | elems | fields | | a src]; try discriminate Ht;
    try (by left).
  - destruct b; discriminate Ht.
  - unfold CopyIndex.extractChoices_try in Ht.
    destruct (truthy (JNum n)); discriminate Ht.
  - unfold CopyIndex.extractChoices_try in Ht.
    destruct (truthy (JStr s)); discriminate Ht.
  - right. rewrite copy_extractChoices_try_object in Ht. cbv zeta in Ht.
    simpl Get. f_equal.
    destruct (truthy (assoc "data" fields)); [| discriminate Ht].
    destruct (assoc "data" fields) as [| | b | n | d | arr | f2 | | a src];
      try discriminate Ht; try reflexivity.
    + destruct (choices_in_codeblock_total d) as [[c |] Hc]; rewrite Hc in Ht;
        discriminate Ht.
    + change (mbind ?k (Normal None)) with (k None) in Ht. cbv beta iota in Ht.
      simpl typeof in Ht. change (String.eqb "object" "object") with true in Ht.
      cbv iota in Ht.
      destruct (Get (JObj f2) "output") as [output | e'] eqn:Ho; [| discriminate Ho].
      change (mbind ?k (Normal output)) with (k output) in Ht. cbv beta in Ht.
      destruct (truthy output); [| discriminate Ht].
      destruct output; try discriminate Ht.
      destruct (choices_in_codeblock_total s) as [[c |] Hc]; rewrite Hc in Ht;
        discriminate Ht.
Qed.

End ExtractChoicesFacts.

(** ** The state monad *)

Section MonadFacts.
Context {S : Type}.

Lemma bind_normal_inv {A B} (m : M S A) (k : A -> M S B) s b s' :
  (m ≫= k) s = (Normal b, s') ->
  exists a s1, m s = (Normal a, s1) /\ k a s1 = (Normal b, s').
Proof.
  unfold mbind, M_bind. destruct (m s) as [[a | e] s1]; [| discriminate].
  intros Hk. by exists a, s1.
Qed.

Lemma bind_throw_inv {A B} (m : M S A) (k : A -> M S B) s e s' :
  (m ≫= k) s = (Throw e, s') ->
  m s = (Throw e, s') \/ exists a s1, m s = (Normal a, s1) /\ k a s1 = (Throw e, s').
Proof.
  unfold mbind, M_bind. destruct (m s) as [[a | e1] s1].
  - intros Hk. right. by exists a, s1.
  - intros [= <- <-]. by left.
Qed.

Lemma bind_normal {A B} (m : M S A) (k : A -> M S B) s a s1 :
  m s = (Normal a, s1) -> (m ≫= k) s = k a s1.
Proof. unfold mbind, M_bind. by intros ->. Qed.

Lemma bind_throw {A B} (m : M S A) (k : A -> M S B) s e s1 :
  m s = (Throw e, s1) -> (m ≫= k) s = (Throw e, s1).
Proof. unfold mbind, M_bind. by intros ->. Qed.

Lemma lift_bind_normal {A B} (c : Completion A) (k : A -> M S B) s a :
  c = Normal a -> (lift c ≫= k) s = k a s.
Proof. intros ->. reflexivity. Qed.

(** A computation that leaves a component [f] of the state as it is. *)
Definition keeps {A T} (f : S -> T) (m : M S A) : Prop :=
  forall s r s', m s = (r, s') -> f s' = f s.

Lemma keeps_ret {A T} (f : S -> T) (a : A) : keeps f (mret a).
Proof. intros s r s' [= _ <-]. reflexivity. Qed.

Lemma keeps_lift {A T} (f : S -> T) (c : Completion A) : keeps f (lift c).
Proof. intros s r s' [= _ <-]. reflexivity. Qed.

Lemma keeps_throw {A T} (f : S -> T) e : keeps f (@throw S A e).
Proof. intros s r s' [= _ <-]. reflexivity. Qed.

Lemma keeps_gets {A T} (f : S -> T) (g : S -> A) : keeps f (gets g).
Proof. intros s r s' [= _ <-]. reflexivity. Qed.

Lemma keeps_bind {A B T} (f : S -> T) (m : M S A) (k : A -> M S B) :
  keeps f m -> (forall a, keeps f (k a)) -> keeps f (m ≫= k).
Proof.
  intros Hm Hk s r s'. unfold mbind, M_bind.
  destruct (m s) as [[a | e] s1] eqn:Hms.
  - intros Hks. rewrite (Hk a _ _ _ Hks). by eapply Hm.
  - intros [= <- <-]. by eapply Hm.
Qed.

Lemma keeps_try_catch {A T} (f : S -> T) (m : M S A) (h : JsVal -> M S A) :
  keeps f m -> (forall e, keeps f (h e)) -> keeps f (try_catchM m h).
Proof.
  intros Hm Hh s r s'. unfold try_catchM.
  destruct (m s) as [[a | e] s1] eqn:Hms.
  - intros [= <- <-]. by eapply Hm.
  - intros Hhs. rewrite (Hh e _ _ _ Hhs). by eapply Hm.
Qed.

Lemma keeps_if {A T} (f : S -> T) (b : bool) (m1 m2 : M S A) :
  keeps f m1 -> keeps f m2 -> keeps f (if b then m1 else m2).
Proof. by destruct b. Qed.

End MonadFacts.

Lemma keeps_on_world {G W A} (m : M W A) : keeps (@fst G W) (on_world m).
Proof.
  intros [g w] r [g' w']. unfold on_world.
  destruct (m w) as [r1 w1]. by intros [= _ <- _].
Qed.

Ltac keeps_tac :=
  repeat first
    [ apply keeps_bind; [| intros ?]
    | apply keeps_try_catch; [| intros ?]
    | apply keeps_if
    | apply keeps_ret | apply keeps_lift | apply keeps_throw
    | apply keeps_gets | apply keeps_on_world
    | match goal with |- keeps _ (match ?x with _ => _ end) => destruct x end
    | progress cbv beta ].

Lemma bind_keeps_inv {G W A B} (m : M (G * W) A) (k : A -> M (G * W) B) g w b s' :
  keeps fst m ->
  (m ≫= k) (g, w) = (Normal b, s') ->
  exists a w1, m (g, w) = (Normal a, (g, w1)) /\ k a (g, w1) = (Normal b, s').
Proof.
  intros Hm Hb. apply bind_normal_inv in Hb as (a & [g1 w1] & Hma & Hk).
  pose proof (Hm _ _ _ Hma) as Hg. simpl in Hg. subst g1.
  by exists a, w1.
Qed.

(** ** The main variant's engine *)

Section MainGameFacts.
Context `{Provider}.
Import MainGame.

Lemma configure_keeps {S T} (f : S -> T) : keeps f (@configureFalClient _ S).
Proof. unfold configureFalClient. keeps_tac. Qed.

Lemma generateStoryText_keeps c u : keeps fst (generateStoryText c u).
Proof. unfold generateStoryText. keeps_tac. Qed.

Lemma generateStoryImage_keeps d : keeps fst (generateStoryImage d).
Proof. unfold generateStoryImage. keeps_tac. Qed.

Lemma generateChoices_keeps t : keeps fst (generateChoices t).
Proof. unfold generateChoices. keeps_tac. Qed.

(** A successful [continueWith] installs the scene it returns and leaves the
    history alone. *)
Lemma continueWith_normal sel g w scene g' w' :
  continueWith sel (g, w) = (Normal scene, (g', w')) ->
  history g' = history g /\ currentScene g' = scene
  /\ exists textResult imageResult choicesResult w0 w1,
       generateStoryText
         (default (JStr "")
            (match Get (currentScene g) "text" ≫= data_output with
             | Normal o => o
             | Throw _ => None
             end)) sel (g, w0) = (Normal textResult, (g, w1))
       /\ scene = sceneOf textResult imageResult choicesResult.
Proof.
  unfold continueWith. intros Hc.
  apply bind_keeps_inv in Hc as (scene0 & w0 & Hs0 & Hc); [| keeps_tac].
  injection Hs0 as <- <-.
  apply bind_keeps_inv in Hc as (text & w1 & Ht & Hc); [| keeps_tac].
  injection Ht as Ht <-.
  apply bind_keeps_inv in Hc as (context & w1 & Hctx & Hc); [| keeps_tac].
  injection Hctx as Hctx <-.
  apply bind_keeps_inv in Hc as (textResult & w1 & Htr & Hc);
    [| apply generateStoryText_keeps].
  apply bind_keeps_inv in Hc as (output & w2 & Ho & Hc); [| keeps_tac].
  injection Ho as Ho <-.
  apply bind_keeps_inv in Hc as (imagePrompt & w2 & Hip & Hc); [| keeps_tac].
  injection Hip as Hip <-.
  apply bind_keeps_inv in Hc as (imageResult & w2 & Hir & Hc);
    [| apply generateStoryImage_keeps].
  apply bind_keeps_inv in Hc as (output' & w3 & Ho' & Hc); [| keeps_tac].
  injection Ho' as Ho' <-.
  apply bind_keeps_inv in Hc as (choicesResult & w3 & Hcr & Hc);
    [| apply generateChoices_keeps].
  apply bind_normal_inv in Hc as ([] & [g4 w4] & Hset & Hc).
  injection Hset as <- <-. injection Hc as <- <- <-.
  simpl. repeat split.
  exists textResult, imageResult, choicesResult, w, w1.
  split; [| reflexivity].
  rewrite Ht. change (mbind data_output (Normal text)) with (data_output text).
  rewrite Hctx. exact Htr.
Qed.

(** [imagePrompt] of [makeChoice]: the selected choice, followed by the
    first hundred characters of the new text's output when there is one. *)
Definition imagePromptFor (selectedChoice : JsVal) (output : option JsVal)
  : Completion JsVal :=
  match output with
  | Some o =>
      head100 ← call_substring o 100;
      sel ← ToString selectedChoice;
      Normal (JStr (sel +:+ " - " +:+ head100))
  | None => Normal selectedChoice
  end.

(** The scene generated for the choice [sel] in the state [g], from the
    world [w] to the world [w']: the three answers of text generation (from
    the output of the current scene's text and the choice), of image
    generation (from the image prompt) and of choices generation (from the
    new text's output), as these calls return them. *)
Definition main_generated (g : GameState) (sel : JsVal) (w : World)
    (scene : JsVal) (w' : World) : Prop :=
  exists context textResult output imagePrompt imageResult choicesResult w1 w2,
    Get (currentScene g) "text" ≫= data_output = Normal context
    /\ generateStoryText (default (JStr "") context) sel (g, w)
       = (Normal textResult, (g, w1))
    /\ data_output textResult = Normal output
    /\ imagePromptFor sel output = Normal imagePrompt
    /\ generateStoryImage imagePrompt (g, w1) = (Normal imageResult, (g, w2))
    /\ generateChoices (default (JStr "") output) (g, w2)
       = (Normal choicesResult, (g, w'))
    /\ scene = sceneOf textResult imageResult choicesResult.

(** A successful [continueWith] replaces the current scene by the scene it
    generates and returns. *)
Lemma continueWith_generated sel g w scene g' w' :
  continueWith sel (g, w) = (Normal scene, (g', w')) ->
  main_generated g sel w scene w'
  /\ g' = {| currentScene := scene; history := history g |}.
Proof.
  unfold continueWith. intros Hc.
  apply bind_keeps_inv in Hc as (scene0 & w0 & Hs0 & Hc); [| keeps_tac].
  injection Hs0 as <- <-.
  apply bind_keeps_inv in Hc as (text & w1 & Ht & Hc); [| keeps_tac].
  injection Ht as Ht <-.
  apply bind_keeps_inv in Hc as (context & w1 & Hctx & Hc); [| keeps_tac].
  injection Hctx as Hctx <-.
  apply bind_keeps_inv in Hc as (textResult & w1 & Htr & Hc);
    [| apply generateStoryText_keeps].
  apply bind_keeps_inv in Hc as (output & w2 & Ho & Hc); [| keeps_tac].
  injection Ho as Ho <-.
  apply bind_keeps_inv in Hc as (imagePrompt & w2 & Hip & Hc); [| keeps_tac].
  injection Hip as Hip <-.
  apply bind_keeps_inv in Hc as (imageResult & w2 & Hir & Hc);
    [| apply generateStoryImage_keeps].
  apply bind_keeps_inv in Hc as (output' & w3 & Ho' & Hc); [| keeps_tac].
  injection Ho' as Ho' <-.
  apply bind_keeps_inv in Hc as (choicesResult & w3 & Hcr & Hc);
    [| apply generateChoices_keeps].
  apply bind_normal_inv in Hc as ([] & [g4 w4] & Hset & Hc).
  injection Hset as <- <-. injection Hc as <- <- <-.
  split; [| reflexivity].
  assert (output' = output) as -> by congruence.
  exists context, textResult, output, imagePrompt, imageResult, choicesResult, w1, w2.
  split; [by rewrite Ht |]. by repeat split.
Qed.

(** The state after the push of [makeChoice]. *)
Definition main_pushed (g : GameState) (entry : JsVal) : GameState :=
  {| currentScene := currentScene g; history := history g ++ [entry] |}.

(** A successful [makeChoice] has pushed the copy of the scene that was
    current, and has replaced that scene by the one generated for the
    selected choice. *)
Lemma makeChoice_generated idx g w scene g' w' :
  makeChoice idx (g, w) = (Normal scene, (g', w')) ->
  exists copy sel,
    spread (currentScene g) = Normal copy
    /\ selectChoice (currentScene g) idx = Normal sel
    /\ main_generated (main_pushed g copy) sel w scene w'
    /\ g' = {| currentScene := scene; history := history g ++ [copy] |}.
Proof.
  unfold makeChoice. intros Hm.
  apply bind_keeps_inv in Hm as ([] & w0 & Hcfg & Hm); [| apply configure_keeps].
  assert (w0 = w) as ->.
  { pose proof (configure_keeps snd _ _ _ Hcfg) as Hw. exact Hw. }
  apply bind_normal_inv in Hm as (scene0 & s1 & Hs0 & Hm). injection Hs0 as <- <-.
  apply bind_normal_inv in Hm as (copy & s1 & Hcopy & Hm). injection Hcopy as Hcopy <-.
  apply bind_normal_inv in Hm as ([] & s1 & Hpush & Hm). injection Hpush as <-.
  apply bind_normal_inv in Hm as (scene1 & s1 & Hs1 & Hm). injection Hs1 as <- <-.
  apply bind_normal_inv in Hm as (sel & s1 & Hsel & Hm). injection Hsel as Hsel <-.
  apply continueWith_generated in Hm as (Hgen & ->).
  exists copy, sel. by repeat split.
Qed.

End MainGameFacts.

(** ** The copy variant's engine *)

Section CopyGameFacts.
Context `{Provider} `{JsonParser}.
Import CopyGame.

Definition pushed (g : GameState) (entry : JsVal) : GameState :=
  {| currentScene := currentScene g; history := history g ++ [entry];
     choices := choices g |}.

(** [makeChoice] up to the test of the selected choice. *)
Lemma makeChoice_prefix idx g w copy sceneChoices selectedChoice :
  spread (currentScene g) = Normal copy ->
  Get (currentScene g) "choices" = Normal sceneChoices ->
  GetIdx sceneChoices idx = Normal selectedChoice ->
  makeChoice idx (g, w) =
    (if negb (truthy selectedChoice) then throw (Error "Invalid choice index")
     else
       currentContext ← lift (Get (currentScene g) "text");
       textResult ← on_world (generateStoryText currentContext selectedChoice);
       success ← lift (Get textResult "success");
       text ← lift (Get textResult "text");
       imageDescription ←
         lift (match truthy success, text with
               | true, JStr t =>
                   sel ← ToString selectedChoice;
                   Normal (JStr (sel +:+ " - " +:+ Str.take 100 t))
               | _, _ => Normal selectedChoice
               end);
       imageResult ← on_world (generateStoryImage imageDescription);
       text ← lift (Get textResult "text");
       newChoices ← on_world (generateChoices text);
       text ← lift (on_success textResult "text" (JStr choiceFallbackText));
       image ← lift (on_success imageResult "imageData" JNull);
       _ ← setScene (sceneOf text image newChoices);
       thisScene) (pushed g copy, w).
Proof.
  intros Hcopy Hch Hidx. unfold makeChoice.
  unfold thisScene, pushHistory, gets, modify, lift. unfold mbind, M_bind.
  rewrite Hcopy. fold (pushed g copy).
  change (currentScene (pushed g copy)) with (currentScene g).
  rewrite Hch, Hidx. reflexivity.
Qed.

Lemma makeChoice_invalid idx g w copy sceneChoices selectedChoice :
  spread (currentScene g) = Normal copy ->
  Get (currentScene g) "choices" = Normal sceneChoices ->
  GetIdx sceneChoices idx = Normal selectedChoice ->
  truthy selectedChoice = false ->
  makeChoice idx (g, w) = (Throw (Error "Invalid choice index"), (pushed g copy, w)).
Proof.
  intros Hcopy Hch Hidx Hfalsy.
  rewrite (makeChoice_prefix _ _ _ _ _ _ Hcopy Hch Hidx), Hfalsy. reflexivity.
Qed.

(** [imageDescription] of [makeChoice]: the selected choice, followed by the
    first hundred characters of the new text when text generation succeeded
    with a string. *)
Definition imageDescriptionFor (selectedChoice success text : JsVal)
  : Completion JsVal :=
  match truthy success, text with
  | true, JStr t =>
      sel ← ToString selectedChoice;
      Normal (JStr (sel +:+ " - " +:+ Str.take 100 t))
  | _, _ => Normal selectedChoice
  end.

(** The scene generated for the choice [sel] when [scene0] is current, from
    the world [w] to the world [w']: the text of text generation (from the
    current scene's text and the choice) or the fallback sentence, the image
    data of image generation or [null], and the choices of choices
    generation (from the new text), as these calls return them. *)
Definition copy_generated (scene0 sel : JsVal) (w : World)
    (scene : JsVal) (w' : World) : Prop :=
  exists currentContext textResult success t imageDescription imageResult
         newChoices text image w1 w2,
    Get scene0 "text" = Normal currentContext
    /\ generateStoryText currentContext sel w = (Normal textResult, w1)
    /\ Get textResult "success" = Normal success
    /\ Get textResult "text" = Normal t
    /\ imageDescriptionFor sel success t = Normal imageDescription
    /\ generateStoryImage imageDescription w1 = (Normal imageResult, w2)
    /\ generateChoices t w2 = (Normal newChoices, w')
    /\ on_success textResult "text" (JStr choiceFallbackText) = Normal text
    /\ on_success imageResult "imageData" JNull = Normal image
    /\ scene = sceneOf text image newChoices.

Lemma on_world_inv {G A} (m : M World A) (g : G) w a g1 w1 :
  on_world m (g, w) = (Normal a, (g1, w1)) -> m w = (Normal a, w1).
Proof.
  unfold on_world. destruct (m w) as [r w2]. by intros [= -> _ ->].
Qed.

(** A successful [makeChoice] has pushed the copy of the scene that was
    current, and has replaced that scene by the one generated for the
    selected choice. *)
Lemma copy_makeChoice_generated idx g w scene g' w' :
  makeChoice idx (g, w) = (Normal scene, (g', w')) ->
  exists copy sceneChoices sel,
    spread (currentScene g) = Normal copy
    /\ Get (currentScene g) "choices" = Normal sceneChoices
    /\ GetIdx sceneChoices idx = Normal sel /\ truthy sel = true
    /\ copy_generated (currentScene g) sel w scene w'
    /\ g' = {| currentScene := scene; history := history g ++ [copy];
               choices := choices g |}.
Proof.
  intros Hm.
  destruct (spread (currentScene g)) as [copy | e] eqn:Hcopy.
  2: { unfold makeChoice, thisScene, pushHistory, gets, modify, lift in Hm.
       unfold mbind, M_bind in Hm. rewrite Hcopy in Hm. discriminate. }
  destruct (Get (currentScene g) "choices") as [sceneChoices | e] eqn:Hch.
  2: { unfold makeChoice, thisScene, pushHistory, gets, modify, lift in Hm.
       unfold mbind, M_bind in Hm. rewrite Hcopy in Hm.
       simpl currentScene in Hm. rewrite Hch in Hm. discriminate. }
  destruct (GetIdx sceneChoices idx) as [selectedChoice | e] eqn:Hidx.
  2: { unfold makeChoice, thisScene, pushHistory, gets, modify, lift in Hm.
       unfold mbind, M_bind in Hm. rewrite Hcopy in Hm.
       simpl currentScene in Hm. rewrite Hch, Hidx in Hm. discriminate. }
  rewrite (makeChoice_prefix _ _ _ _ _ _ Hcopy Hch Hidx) in Hm.
  destruct (truthy selectedChoice) eqn:Hsel; [| discriminate].
  change (negb true) with false in Hm. cbv iota in Hm.
  exists copy, sceneChoices, selectedChoice.
  split; [reflexivity |]. split; [reflexivity |].
  split; [exact Hidx |]. split; [exact Hsel |].
  apply bind_keeps_inv in Hm as (ctx & w1 & Hctx & Hm); [| keeps_tac].
  injection Hctx as Hctx <-.
  apply bind_keeps_inv in Hm as (textResult & w2 & Htr & Hm); [| keeps_tac].
  apply on_world_inv in Htr.
  apply bind_keeps_inv in Hm as (success & w3 & Hsuc & Hm); [| keeps_tac].
  injection Hsuc as Hsuc <-.
  apply bind_keeps_inv in Hm as (t & w4 & Ht & Hm); [| keeps_tac].
  injection Ht as Ht <-.
  apply bind_keeps_inv in Hm as (descr & w5 & Hd & Hm); [| keeps_tac].
  injection Hd as Hd <-.
  apply bind_keeps_inv in Hm as (imageResult & w6 & Hir & Hm); [| keeps_tac].
  apply on_world_inv in Hir.
  apply bind_keeps_inv in Hm as (t' & w7 & Ht' & Hm); [| keeps_tac].
  injection Ht' as Ht' <-.
  apply bind_keeps_inv in Hm as (newChoices & w8 & Hnc & Hm); [| keeps_tac].
  apply on_world_inv in Hnc.
  apply bind_keeps_inv in Hm as (text & w9 & Htext & Hm); [| keeps_tac].
  injection Htext as Htext <-.
  apply bind_keeps_inv in Hm as (image & w10 & Himage & Hm); [| keeps_tac].
  injection Himage as Himage <-.
  apply bind_normal_inv in Hm as ([] & [g4 w4'] & Hset & Hm).
  injection Hset as <- <-. injection Hm as <- <- <-.
  split; [| reflexivity].
  assert (t' = t) as -> by congruence.
  exists ctx, textResult, success, t, descr, imageResult, newChoices, text, image,
    w2, w6.
  by repeat split.
Qed.

End CopyGameFacts.

(** ** History and scenes *)

Example main_start_failing :
  @MainGame.startNewGame Fixtures.failing
    ({| MainGame.currentScene := JNull; MainGame.history := [] |}, tt)
  = (Normal Fixtures.mainStartedScene, (Fixtures.mainStarted, tt)).
Proof. vm_compute. reflexivity. Qed.

Example copy_start_failing :
  @CopyGame.startNewGame Fixtures.failing (CopyGame.newGameState, tt)
  = (Normal Fixtures.copyStartedScene, (Fixtures.copyStarted, tt)).
Proof. vm_compute. reflexivity. Qed.

(** C6: a [makeChoice] that returns a scene has appended exactly one entry
    to [history], the spread copy of the scene that was current, after the
    entries already there, and has overwritten [currentScene] with the newly
    generated scene, which it returns: in the main variant the three answers
    of text, image and choices generation for the selected choice, in the
    copy variant the text and image data these calls gave (or their
    fallbacks) and the generated choices. *)
Theorem makeChoice_appends_to_history :
  (forall (P : Provider) idx g w scene g' w',
     MainGame.makeChoice idx (g, w) = (Normal scene, (g', w')) ->
     exists copy sel,
       spread (MainGame.currentScene g) = Normal copy
       /\ MainGame.history g' = MainGame.history g ++ [copy]
       /\ MainGame.selectChoice (MainGame.currentScene g) idx = Normal sel
       /\ main_generated (main_pushed g copy) sel w scene w'
       /\ MainGame.currentScene g' = scene)
  /\
  (forall (P : Provider) (J : JsonParser) idx g w scene g' w',
     CopyGame.makeChoice idx (g, w) = (Normal scene, (g', w')) ->
     exists copy sceneChoices sel,
       spread (CopyGame.currentScene g) = Normal copy
       /\ CopyGame.history g' = CopyGame.history g ++ [copy]
       /\ Get (CopyGame.currentScene g) "choices" = Normal sceneChoices
       /\ GetIdx sceneChoices idx = Normal sel /\ truthy sel = true
       /\ copy_generated (CopyGame.currentScene g) sel w scene w'
       /\ CopyGame.currentScene g' = scene).
Proof.
  split.
  - intros P idx g w scene g' w' Hm.
    apply makeChoice_generated in Hm as (copy & sel & Hcopy & Hsel & Hgen & ->).
    exists copy, sel. by repeat split.
  - intros P J idx g w scene g' w' Hm.
    apply copy_makeChoice_generated in Hm
      as (copy & sceneChoices & sel & Hcopy & Hch & Hidx & Hsel & Hgen & ->).
    exists copy, sceneChoices, sel. by repeat split.
Qed.

(** The scene copied into the history is the scene object itself, field for
    field. *)
Lemma spread_object fields copy :
  spread (JObj fields) = Normal copy -> copy = JObj fields.
Proof. by intros [= <-]. Qed.

(** A service that answers the three calls of a [makeChoice]: a text, no
    image, and choices. *)
Definition mainAnswers : list (Completion JsVal) :=
  [Normal (Fixtures.output_result "You walk on.");
   Fixtures.unavailable;
   Normal (JObj [("data", JObj [("output",
      JStr (String Str.dq ("Run" +:+ String Str.dq
             (" or " +:+ String Str.dq ("Hide" +:+ String Str.dq "")))))])])].

Definition mainNextScene : JsVal :=
  MainGame.sceneOf
    (Fixtures.output_result "You walk on.")
    (JObj [("images", JArr []); ("error", JStr "service unavailable")])
    (str_list ["Run"; "Hide"]).

Definition copyAnswers : list (Completion JsVal) :=
  [Normal (JObj [("data", JStr "You climb the tree.")]);
   Fixtures.unavailable;
   Normal (JObj [("data", str_list ["Look north"; "Climb down"])])].

Definition copyNextScene : JsVal :=
  CopyGame.sceneOf (JStr "You climb the tree.") JNull
    (str_list ["Look north"; "Climb down"]).

Lemma makeChoice_appends_to_history_witness :
  ((exists copy sel,
      spread (MainGame.currentScene Fixtures.mainStarted) = Normal copy
      /\ MainGame.history
           (fst (snd (@MainGame.makeChoice Fixtures.scripted (Num 1)
                        (Fixtures.mainStarted, mainAnswers))))
         = MainGame.history Fixtures.mainStarted ++ [copy]
      /\ MainGame.selectChoice (MainGame.currentScene Fixtures.mainStarted) (Num 1)
         = Normal sel
      /\ @main_generated Fixtures.scripted
           (main_pushed Fixtures.mainStarted copy) sel mainAnswers mainNextScene []
      /\ MainGame.currentScene
           (fst (snd (@MainGame.makeChoice Fixtures.scripted (Num 1)
                        (Fixtures.mainStarted, mainAnswers))))
         = mainNextScene)
   /\ mainNextScene <> MainGame.currentScene Fixtures.mainStarted)
  /\
  ((exists copy sceneChoices sel,
      spread (CopyGame.currentScene Fixtures.copyStarted) = Normal copy
      /\ CopyGame.history
           (fst (snd (@CopyGame.makeChoice Fixtures.scripted Fixtures.refParser
                        (Num 1) (Fixtures.copyStarted, copyAnswers))))
         = CopyGame.history Fixtures.copyStarted ++ [copy]
      /\ Get (CopyGame.currentScene Fixtures.copyStarted) "choices"
         = Normal sceneChoices
      /\ GetIdx sceneChoices (Num 1) = Normal sel /\ truthy sel = true
      /\ @copy_generated Fixtures.scripted Fixtures.refParser
           (CopyGame.currentScene Fixtures.copyStarted) sel copyAnswers
           copyNextScene []
      /\ CopyGame.currentScene
           (fst (snd (@CopyGame.makeChoice Fixtures.scripted Fixtures.refParser
                        (Num 1) (Fixtures.copyStarted, copyAnswers))))
         = copyNextScene)
   /\ copyNextScene <> CopyGame.currentScene Fixtures.copyStarted).
Proof.
  split; (split; [| discriminate]).
  - apply (proj1 makeChoice_appends_to_history Fixtures.scripted (Num 1)
             Fixtures.mainStarted mainAnswers mainNextScene _ []).
    vm_compute. reflexivity.
  - apply (proj2 makeChoice_appends_to_history Fixtures.scripted Fixtures.refParser
             (Num 1) Fixtures.copyStarted copyAnswers copyNextScene _ []).
    vm_compute. reflexivity.
Defined.

(** C10: in the copy variant [makeChoice] pushes the current scene onto
    [history] before it looks at the index; when [currentScene.choices[index]]
    is falsy the call throws [Error("Invalid choice index")] and leaves the
    engine with a history one entry longer, the current scene unchanged and
    no call made to the service. *)
Theorem copy_makeChoice_invalid_index_not_atomic
    (P : Provider) (J : JsonParser) idx g w copy sceneChoices selectedChoice :
  spread (CopyGame.currentScene g) = Normal copy ->
  Get (CopyGame.currentScene g) "choices" = Normal sceneChoices ->
  GetIdx sceneChoices idx = Normal selectedChoice ->
  truthy selectedChoice = false ->
  exists g',
    CopyGame.makeChoice idx (g, w) = (Throw (Error "Invalid choice index"), (g', w))
    /\ CopyGame.history g' = CopyGame.history g ++ [copy]
    /\ length (CopyGame.history g') = Datatypes.S (length (CopyGame.history g))
    /\ CopyGame.currentScene g' = CopyGame.currentScene g.
Proof.
  intros Hcopy Hch Hidx Hfalsy. exists (pushed g copy).
  split; [by eapply makeChoice_invalid |].
  simpl. rewrite length_app. simpl. repeat split. lia.
Qed.

Lemma copy_makeChoice_invalid_index_not_atomic_witness :
  exists g',
    @CopyGame.makeChoice Fixtures.failing Fixtures.refParser (Num 3)
      (Fixtures.copyStarted, tt)
    = (Throw (Error "Invalid choice index"), (g', tt))
    /\ CopyGame.history g' = CopyGame.history Fixtures.copyStarted ++ [Fixtures.copyStartedScene]
    /\ length (CopyGame.history g')
       = Datatypes.S (length (CopyGame.history Fixtures.copyStarted))
    /\ CopyGame.currentScene g' = CopyGame.currentScene Fixtures.copyStarted.
Proof.
  apply (copy_makeChoice_invalid_index_not_atomic Fixtures.failing Fixtures.refParser
           (Num 3) Fixtures.copyStarted tt Fixtures.copyStartedScene
           (str_list CopyGame.initialChoices) JUndefined);
    reflexivity.
Defined.

(** ** The HTTP handlers and the session map *)

Definition not_found : Response :=
  status_json 404 (error_body "Game session not found").

Section ServerFacts.
Context `{Provider} `{JsonParser}.

Lemma main_choice_unknown reqBody sessionId choiceIndex sessions w :
  Get reqBody "sessionId" = Normal sessionId ->
  Get reqBody "choiceIndex" = Normal choiceIndex ->
  sessions_get sessions sessionId = None ->
  MainServer.choice reqBody (sessions, w) = (Normal not_found, (sessions, w)).
Proof.
  intros Hsid Hci Hget.
  unfold MainServer.choice, try_catchM, the_sessions, gets, lift.
  unfold mbind, M_bind. rewrite Hsid, Hci.
  destruct sessionId; try reflexivity.
  change ((sessions, w).1) with sessions. rewrite Hget. reflexivity.
Qed.

Lemma copy_choice_unknown reqBody sessionId choiceIndex sessions w :
  Get reqBody "sessionId" = Normal sessionId ->
  Get reqBody "choiceIndex" = Normal choiceIndex ->
  sessions_get sessions sessionId = None ->
  CopyServer.choice reqBody (sessions, w) = (Normal not_found, (sessions, w)).
Proof.
  intros Hsid Hci Hget.
  unfold CopyServer.choice, try_catchM, the_sessions, gets, lift.
  unfold mbind, M_bind. rewrite Hsid, Hci.
  destruct sessionId; try reflexivity.
  change ((sessions, w).1) with sessions. rewrite Hget. reflexivity.
Qed.

Lemma main_respond_keeps sid scene : keeps fst (MainServer.respond sid scene).
Proof. unfold MainServer.respond. keeps_tac. Qed.

Lemma copy_respond_keeps sid scene : keeps fst (CopyServer.respond sid scene).
Proof. unfold CopyServer.respond. keeps_tac. Qed.

Lemma main_respond_sessionId sid scene st b st' :
  MainServer.respond sid scene st = (Normal (json b), st') ->
  Get b "sessionId" = Normal sid.
Proof.
  unfold MainServer.respond. intros Hr.
  repeat (apply bind_normal_inv in Hr as (? & ? & _ & Hr)).
  by injection Hr as <- _.
Qed.

Lemma copy_respond_sessionId sid scene st b st' :
  CopyServer.respond sid scene st = (Normal (json b), st') ->
  Get b "sessionId" = Normal sid.
Proof.
  unfold CopyServer.respond. intros Hr.
  repeat (apply bind_normal_inv in Hr as (? & ? & _ & Hr)).
  by injection Hr as <- _.
Qed.

Lemma on_new_engine_sessions {G A} (game : G) (m : M (G * World) A)
    (sessions : gmap string G) w r sessions' w' :
  on_new_engine game m (sessions, w) = (r, (sessions', w')) -> sessions' = sessions.
Proof.
  unfold on_new_engine.
  destruct (m (game, w)) as [[a | e] [game' w1]]; by intros [= _ <- _].
Qed.

(** A successful [start] answers with the decimal time stamp as [sessionId]
    and has stored an engine under it; no other key of the map is touched. *)
Lemma main_start_ok now sessions w b sessions' w' :
  MainServer.start now (sessions, w) = (Normal (json b), (sessions', w')) ->
  Get b "sessionId" = Normal (JStr (pretty now))
  /\ exists game, sessions' = <[pretty now := game]> sessions.
Proof.
  unfold MainServer.start, try_catchM.
  match goal with |- context [match ?m (sessions, w) with _ => _ end] =>
    destruct (m (sessions, w)) as [[r | e] st1] eqn:Hbody end.
  2: { intros Heq. unfold mret, M_ret, status_json, json in Heq. discriminate. }
  intros [= -> ->].
  apply bind_normal_inv in Hbody as (game0 & [ss1 w1] & Hnew & Hbody).
  injection Hnew as _ <- <-.
  apply bind_normal_inv in Hbody as ([scene game] & [ss2 w2] & Hrun & Hbody).
  apply on_new_engine_sessions in Hrun as ->.
  apply bind_normal_inv in Hbody as ([] & [ss3 w3] & Hset & Hbody).
  injection Hset as <- <-.
  split.
  - by eapply main_respond_sessionId.
  - exists game. pose proof (main_respond_keeps _ _ _ _ _ Hbody) as Hk.
    simpl in Hk. by rewrite Hk.
Qed.

Lemma copy_start_ok now sessions w b sessions' w' :
  CopyServer.start now (sessions, w) = (Normal (json b), (sessions', w')) ->
  Get b "sessionId" = Normal (JStr (pretty now))
  /\ exists game, sessions' = <[pretty now := game]> sessions.
Proof.
  unfold CopyServer.start, try_catchM.
  match goal with |- context [match ?m (sessions, w) with _ => _ end] =>
    destruct (m (sessions, w)) as [[r | e] st1] eqn:Hbody end.
  2: { intros Heq. unfold mret, M_ret, status_json, json in Heq. discriminate. }
  intros [= -> ->].
  apply bind_normal_inv in Hbody as ([scene game] & [ss2 w2] & Hrun & Hbody).
  apply on_new_engine_sessions in Hrun as ->.
  apply bind_normal_inv in Hbody as ([] & [ss3 w3] & Hset & Hbody).
  injection Hset as <- <-.
  split.
  - by eapply copy_respond_sessionId.
  - exists game. pose proof (copy_respond_keeps _ _ _ _ _ Hbody) as Hk.
    simpl in Hk. by rewrite Hk.
Qed.

End ServerFacts.

Lemma pretty_Z_distinct (a b : Z) : a <> b -> pretty a <> pretty b.
Proof. intros Hab Hp. apply Hab. by apply (inj pretty). Qed.

(** C8: a [POST /api/game/choice] whose [sessionId] is not a key of the
    session map is answered with status 404 and the body
    [{error: "Game session not found"}]; the session map and the state of
    the generation service are left as they were, so no engine and no
    service call is involved.  Both servers. *)
Theorem choice_unknown_session_is_404 :
  (forall (P : Provider) reqBody sessionId choiceIndex
          (sessions : gmap string MainGame.GameState) w,
     Get reqBody "sessionId" = Normal sessionId ->
     Get reqBody "choiceIndex" = Normal choiceIndex ->
     sessions_get sessions sessionId = None ->
     MainServer.choice reqBody (sessions, w)
     = (Normal {| status := 404;
                  body := JObj [("error", JStr "Game session not found")] |},
        (sessions, w)))
  /\
  (forall (P : Provider) (J : JsonParser) reqBody sessionId choiceIndex
          (sessions : gmap string CopyGame.GameState) w,
     Get reqBody "sessionId" = Normal sessionId ->
     Get reqBody "choiceIndex" = Normal choiceIndex ->
     sessions_get sessions sessionId = None ->
     CopyServer.choice reqBody (sessions, w)
     = (Normal {| status := 404;
                  body := JObj [("error", JStr "Game session not found")] |},
        (sessions, w))).
Proof.
  split.
  - intros. by eapply main_choice_unknown.
  - intros. by eapply copy_choice_unknown.
Qed.

Lemma choice_unknown_session_is_404_witness :
  @MainServer.choice Fixtures.failing (Fixtures.choiceRequest "1700000000000" 1)
    (<["1700000000001" := Fixtures.mainStarted]> ∅, tt)
  = (Normal {| status := 404;
               body := JObj [("error", JStr "Game session not found")] |},
     (<["1700000000001" := Fixtures.mainStarted]> ∅, tt))
  /\
  @CopyServer.choice Fixtures.failing Fixtures.refParser
    (Fixtures.choiceRequest "1700000000000" 1)
    (<["1700000000001" := Fixtures.copyStarted]> ∅, tt)
  = (Normal {| status := 404;
               body := JObj [("error", JStr "Game session not found")] |},
     (<["1700000000001" := Fixtures.copyStarted]> ∅, tt)).
Proof.
  split.
  - apply (proj1 choice_unknown_session_is_404 Fixtures.failing
             (Fixtures.choiceRequest "1700000000000" 1)
             (JStr "1700000000000") (JNum (Num 1)));
      [reflexivity | reflexivity | vm_compute; reflexivity].
  - apply (proj2 choice_unknown_session_is_404 Fixtures.failing Fixtures.refParser
             (Fixtures.choiceRequest "1700000000000" 1)
             (JStr "1700000000000") (JNum (Num 1)));
      [reflexivity | reflexivity | vm_compute; reflexivity].
Defined.

(** A known session is not answered with 404: the engine is run. *)
Example choice_known_session :
  exists b st,
    @MainServer.choice Fixtures.failing (Fixtures.choiceRequest "1700000000001" 1)
      (<["1700000000001" := Fixtures.mainStarted]> ∅, tt)
    = (Normal (json b), st)
    /\ Get b "sessionId" = Normal (JStr "1700000000001").
Proof. eexists _, _. split; [vm_compute; reflexivity | reflexivity]. Qed.

(** C9 fails: two games started at the same clock reading get the same
    [sessionId]; the second engine replaces the first in the map, which
    then holds one session. *)
Lemma sessionId_collision :
  exists b1 st1 b2 st2 game1 game2,
    @MainServer.start Fixtures.scripted 1700000000000 (∅, Fixtures.twoStories)
      = (Normal (json b1), st1)
    /\ @MainServer.start Fixtures.scripted 1700000000000 st1 = (Normal (json b2), st2)
    /\ Get b1 "sessionId" = Normal (JStr "1700000000000")
    /\ Get b2 "sessionId" = Normal (JStr "1700000000000")
    /\ Get b1 "text" = Normal (JStr "Story A")
    /\ Get b2 "text" = Normal (JStr "Story B")
    /\ fst st1 !! "1700000000000" = Some game1
    /\ fst st2 !! "1700000000000" = Some game2
    /\ game1 <> game2
    /\ size (fst st2) = 1%nat.
Proof.
  eexists _, _, _, _, _, _.
  split; [vm_compute; reflexivity |].
  split; [vm_compute; reflexivity |].
  split; [reflexivity |]. split; [reflexivity |].
  split; [reflexivity |]. split; [reflexivity |].
  split; [vm_compute; reflexivity |].
  split; [vm_compute; reflexivity |].
  split; [discriminate | vm_compute; reflexivity].
Qed.

(** C9 (amended): the [sessionId] of a started game is the decimal form of
    the clock reading [Date.now()] taken by its request.  Two games started
    at different clock readings get different identifiers, and storing the
    second leaves the entry of the first as it was.  Both servers. *)
Theorem sessionIds_distinct_at_distinct_times :
  (forall (P : Provider) now1 now2 st0 b1 st1 b2 st2,
     now1 <> now2 ->
     MainServer.start now1 st0 = (Normal (json b1), st1) ->
     MainServer.start now2 st1 = (Normal (json b2), st2) ->
     exists id1 id2,
       Get b1 "sessionId" = Normal (JStr id1) /\ id1 = pretty now1
       /\ Get b2 "sessionId" = Normal (JStr id2) /\ id2 = pretty now2
       /\ id1 <> id2
       /\ is_Some (fst st1 !! id1)
       /\ fst st2 !! id1 = fst st1 !! id1)
  /\
  (forall (P : Provider) (J : JsonParser) now1 now2 st0 b1 st1 b2 st2,
     now1 <> now2 ->
     CopyServer.start now1 st0 = (Normal (json b1), st1) ->
     CopyServer.start now2 st1 = (Normal (json b2), st2) ->
     exists id1 id2,
       Get b1 "sessionId" = Normal (JStr id1) /\ id1 = pretty now1
       /\ Get b2 "sessionId" = Normal (JStr id2) /\ id2 = pretty now2
       /\ id1 <> id2
       /\ is_Some (fst st1 !! id1)
       /\ fst st2 !! id1 = fst st1 !! id1).
Proof.
  split.
  - intros P now1 now2 [ss0 w0] b1 [ss1 w1] b2 [ss2 w2] Hne H1 H2.
    apply main_start_ok in H1 as (Hid1 & game1 & ->).
    apply main_start_ok in H2 as (Hid2 & game2 & ->).
    exists (pretty now1), (pretty now2).
    pose proof (pretty_Z_distinct _ _ Hne) as Hids.
    repeat split; try assumption.
    + simpl. rewrite lookup_insert_eq. by eexists.
    + simpl. rewrite lookup_insert_ne by congruence. reflexivity.
  - intros P J now1 now2 [ss0 w0] b1 [ss1 w1] b2 [ss2 w2] Hne H1 H2.
    apply copy_start_ok in H1 as (Hid1 & game1 & ->).
    apply copy_start_ok in H2 as (Hid2 & game2 & ->).
    exists (pretty now1), (pretty now2).
    pose proof (pretty_Z_distinct _ _ Hne) as Hids.
    repeat split; try assumption.
    + simpl. rewrite lookup_insert_eq. by eexists.
    + simpl. rewrite lookup_insert_ne by congruence. reflexivity.
Qed.

Lemma sessionIds_distinct_at_distinct_times_witness :
  exists b1 st1 b2 st2 id1 id2,
    @MainServer.start Fixtures.failing 1700000000000 (∅, tt) = (Normal (json b1), st1)
    /\ @MainServer.start Fixtures.failing 1700000000001 st1 = (Normal (json b2), st2)
    /\ Get b1 "sessionId" = Normal (JStr id1)
    /\ Get b2 "sessionId" = Normal (JStr id2)
    /\ id1 <> id2
    /\ fst st2 !! id1 = fst st1 !! id1.
Proof.
  eassert (H1 : @MainServer.start Fixtures.failing 1700000000000 (∅, tt)
                = (Normal (json _), _)) by (vm_compute; reflexivity).
  match type of H1 with
  | _ = (_, ?st1) =>
      eassert (H2 : @MainServer.start Fixtures.failing 1700000000001 st1
                    = (Normal (json _), _)) by (vm_compute; reflexivity)
  end.
  assert (Hne : 1700000000000 <> 1700000000001) by discriminate.
  destruct (proj1 sessionIds_distinct_at_distinct_times Fixtures.failing
              _ _ _ _ _ _ _ Hne H1 H2)
    as (id1 & id2 & Hb1 & _ & Hb2 & _ & Hids & _ & Hkeep).
  eexists _, _, _, _, id1, id2.
  split; [exact H1 |]. split; [exact H2 |]. auto.
Defined.

(** ** The text of a scene *)

Section SceneTextFacts.
Context `{Provider} `{JsonParser}.

Definition mainFallbackText (message : JsVal) : JsVal :=
  JObj [("data", JObj [("output",
           JStr "The adventure continues... (Error generating story text)")]);
        ("error", message)].

Lemma try_catchM_normal_inv {S A} (m : M S A) h s a s' :
  try_catchM m h s = (Normal a, s') ->
  m s = (Normal a, s')
  \/ exists e s1, m s = (Throw e, s1) /\ h e s1 = (Normal a, s').
Proof.
  unfold try_catchM. destruct (m s) as [[a1 | e] s1].
  - intros [= <- <-]. by left.
  - intros Hh. right. by exists e, s1.
Qed.

Lemma lift_normal_inv {S A} (c : Completion A) (s : S) a s' :
  lift c s = (Normal a, s') -> c = Normal a /\ s' = s.
Proof. unfold lift. by intros [= -> <-]. Qed.

(** *** The main engine *)

(** The text of the main engine for the call it makes in the world [w] with
    [context] and [userChoice]: the answer of the service to that call, as it
    is, or, when the call was rejected, the fallback object that carries the
    message of the rejection. *)
Definition main_text_of_call (context userChoice : JsVal) (w : World)
    (text : JsVal) : Prop :=
  exists c u answer w1,
    ToString context = Normal c /\ ToString userChoice = Normal u
    /\ fal_subscribe "fal-ai/any-llm"
         (JObj [("prompt", JStr (MainGame.storyPrompt c u))]) w = (answer, w1)
    /\ match answer with
       | Normal result => text = result
       | Throw error =>
           exists message,
             Get error "message" = Normal message /\ text = mainFallbackText message
       end.

Lemma main_generateStoryText_call c u g w r st' :
  MainGame.generateStoryText c u (g, w) = (Normal r, st') ->
  main_text_of_call c u w r.
Proof.
  unfold MainGame.generateStoryText. intros Hg.
  apply bind_normal_inv in Hg as ([] & s1 & Hcfg & Hg).
  pose proof (configure_keeps (fun s => s) _ _ _ Hcfg) as Hs1. simpl in Hs1. subst s1.
  apply bind_normal_inv in Hg as (cs & s2 & Hc & Hg).
  apply lift_normal_inv in Hc as [Hc ->].
  apply bind_normal_inv in Hg as (us & s3 & Hu & Hg).
  apply lift_normal_inv in Hu as [Hu ->].
  exists cs, us.
  unfold try_catchM, on_world, subscribe in Hg.
  destruct (fal_subscribe "fal-ai/any-llm"
              (JObj [("prompt", JStr (MainGame.storyPrompt cs us))]) w)
    as [answer w1] eqn:Hsub.
  exists answer, w1. do 3 (split; [reflexivity || assumption |]).
  destruct answer as [result | error].
  - by injection Hg as <- _.
  - apply bind_normal_inv in Hg as (status & s5 & _ & Hg).
    apply bind_normal_inv in Hg as (message & s6 & Hmsg & Hg).
    apply lift_normal_inv in Hmsg as [Hmsg ->].
    injection Hg as <- _. by exists message.
Qed.

Lemma main_startNewGame_text g w scene st' :
  MainGame.startNewGame (g, w) = (Normal scene, st') ->
  exists text,
    Get scene "text" = Normal text
    /\ main_text_of_call (JStr MainGame.initialContext) (JStr "Game start") w text.
Proof.
  unfold MainGame.startNewGame. intros Hs.
  apply bind_normal_inv in Hs as ([] & s1 & Hcfg & Hs).
  pose proof (configure_keeps (fun s => s) _ _ _ Hcfg) as Hs1. simpl in Hs1. subst s1.
  apply bind_normal_inv in Hs as (textResult & s2 & Htr & Hs).
  apply bind_normal_inv in Hs as (imageResult & s3 & _ & Hs).
  apply bind_normal_inv in Hs as (output & s4 & _ & Hs).
  apply bind_normal_inv in Hs as (choicesResult & s5 & _ & Hs).
  apply bind_normal_inv in Hs as ([] & [g6 w6] & Hset & Hs).
  destruct s5 as [g5 w5]. injection Hset as <- <-. injection Hs as <- _.
  exists textResult. split; [reflexivity |].
  by eapply main_generateStoryText_call.
Qed.

Lemma main_makeChoice_text idx g w scene st' :
  MainGame.makeChoice idx (g, w) = (Normal scene, st') ->
  exists sel context text,
    MainGame.selectChoice (MainGame.currentScene g) idx = Normal sel
    /\ Get (MainGame.currentScene g) "text" ≫= MainGame.data_output = Normal context
    /\ Get scene "text" = Normal text
    /\ main_text_of_call (default (JStr "") context) sel w text.
Proof.
  destruct st' as [g' w']. intros Hm.
  apply makeChoice_generated in Hm as (copy & sel & _ & Hsel & Hgen & _).
  destruct Hgen as (context & textResult & output & imagePrompt & imageResult
                    & choicesResult & w1 & w2 & Hctx & Htr & _ & _ & _ & _ & ->).
  exists sel, context, textResult.
  split; [exact Hsel |]. split; [exact Hctx |]. split; [reflexivity |].
  by eapply main_generateStoryText_call.
Qed.

(** *** The copy engine *)

(** The first truthy one of [data.text], [data.content], [data.response] and
    [data.message], when there is one. *)
Definition pickedField (data : JsVal) : Completion (option JsVal) :=
  text ← Get data "text";
  if truthy text then Normal (Some text) else
  content ← Get data "content";
  if truthy content then Normal (Some content) else
  response ← Get data "response";
  if truthy response then Normal (Some response) else
  message ← Get data "message";
  if truthy message then Normal (Some message) else
  Normal None.

Lemma textOfObject_picked data :
  CopyGame.textOfObject data
  = (picked ← pickedField data;
     match picked with
     | Some v => Normal v
     | None => JSON_stringify data
     end).
Proof.
  unfold CopyGame.textOfObject, pickedField. unfold_bind.
  destruct (Get data "text") as [v1 |]; [| reflexivity].
  destruct (truthy v1); [reflexivity |].
  destruct (Get data "content") as [v2 |]; [| reflexivity].
  destruct (truthy v2); [reflexivity |].
  destruct (Get data "response") as [v3 |]; [| reflexivity].
  destruct (truthy v3); [reflexivity |].
  destruct (Get data "message") as [v4 |]; [| reflexivity].
  destruct (truthy v4); reflexivity.
Qed.

(** What [generateStoryText] reads from the answer of the service inside its
    [try]: [result.data] for the log, the story text, [result.requestId]. *)
Definition readAnswer (result : JsVal) : Completion JsVal :=
  _ ← Get result "data";
  storyText ← CopyGame.storyTextOf result;
  _ ← Get result "requestId";
  Normal storyText.

(** The text of a scene of the copy engine for the call it makes in the
    world [w] with [context] and [userChoice]: the [fallback] sentence when
    text generation failed (the call was rejected, or its answer could not
    be read); else the story text read from the answer, when that is a
    string. *)
Definition copy_text_of_call (fallback : string) (context userChoice : JsVal)
    (w : World) (text : JsVal) : Prop :=
  exists c u answer w1,
    ToString context = Normal c /\ ToString userChoice = Normal u
    /\ fal_subscribe "fal-ai/any-llm"
         (JObj [("prompt", JStr (CopyGame.storyPrompt c u))]) w = (answer, w1)
    /\ match answer ≫= readAnswer with
       | Throw _ => text = JStr fallback
       | Normal storyText => is_string storyText -> text = storyText
       end.

Lemma copy_generateStoryText_call fallback c u w r w' text :
  CopyGame.generateStoryText c u w = (Normal r, w') ->
  CopyGame.on_success r "text" (JStr fallback) = Normal text ->
  copy_text_of_call fallback c u w text.
Proof.
  unfold CopyGame.generateStoryText. intros Hg Hon.
  apply bind_normal_inv in Hg as (cs & s2 & Hc & Hg).
  apply lift_normal_inv in Hc as [Hc ->].
  apply bind_normal_inv in Hg as (us & s3 & Hu & Hg).
  apply lift_normal_inv in Hu as [Hu ->].
  exists cs, us.
  unfold try_catchM, subscribe in Hg. unfold mbind at 1, M_bind at 1 in Hg.
  destruct (fal_subscribe "fal-ai/any-llm"
              (JObj [("prompt", JStr (CopyGame.storyPrompt cs us))]) w)
    as [answer w1] eqn:Hsub.
  exists answer, w1. do 3 (split; [reflexivity || assumption |]).
  destruct answer as [result | error].
  - change (Normal result ≫= readAnswer) with (readAnswer result).
    unfold readAnswer. unfold lift, mbind, M_bind, mret, M_ret in Hg.
    unfold mbind, Completion_bind.
    destruct (Get result "data") as [d | e1].
    2: { destruct (Get e1 "message"); [| discriminate]. injection Hg as <- _.
         by injection Hon as <-. }
    destruct (CopyGame.storyTextOf result) as [storyText | e2].
    2: { destruct (Get e2 "message"); [| discriminate]. injection Hg as <- _.
         by injection Hon as <-. }
    destruct (Get result "requestId") as [rid | e3].
    2: { destruct (Get e3 "message"); [| discriminate]. injection Hg as <- _.
         by injection Hon as <-. }
    injection Hg as <- _. injection Hon as <-. by intros _.
  - change (Throw error ≫= readAnswer) with (@Throw JsVal error).
    unfold lift, mbind, M_bind, mret, M_ret in Hg.
    destruct (Get error "message"); [| discriminate]. injection Hg as <- _.
    by injection Hon as <-.
Qed.

Lemma copy_startNewGame_text g w scene st' :
  CopyGame.startNewGame (g, w) = (Normal scene, st') ->
  exists text,
    Get scene "text" = Normal text
    /\ copy_text_of_call CopyGame.startFallbackText
         (JStr CopyGame.initialContext) (JStr "Game start") w text.
Proof.
  unfold CopyGame.startNewGame. intros Hs.
  apply bind_normal_inv in Hs as (textResult & [g1 w1] & Htr & Hs).
  apply on_world_inv in Htr.
  apply bind_normal_inv in Hs as (imageResult & s2 & _ & Hs).
  apply bind_normal_inv in Hs as (text & s3 & Htext & Hs).
  apply lift_normal_inv in Htext as [Htext ->].
  apply bind_normal_inv in Hs as (image & s4 & _ & Hs).
  apply bind_normal_inv in Hs as ([] & [g6 w6] & Hset & Hs).
  destruct s4 as [g5 w5]. injection Hset as <- <-. injection Hs as <- _.
  exists text. split; [reflexivity |].
  by eapply copy_generateStoryText_call.
Qed.

Lemma copy_makeChoice_text idx g w scene st' :
  CopyGame.makeChoice idx (g, w) = (Normal scene, st') ->
  exists sceneChoices sel context text,
    Get (CopyGame.currentScene g) "choices" = Normal sceneChoices
    /\ GetIdx sceneChoices idx = Normal sel
    /\ Get (CopyGame.currentScene g) "text" = Normal context
    /\ Get scene "text" = Normal text
    /\ copy_text_of_call CopyGame.choiceFallbackText context sel w text.
Proof.
  destruct st' as [g' w']. intros Hm.
  apply copy_makeChoice_generated in Hm
    as (copy & sceneChoices & sel & _ & Hch & Hidx & _ & Hgen & _).
  destruct Hgen as (context & textResult & success & t & descr & imageResult
                    & newChoices & text & image & w1 & w2
                    & Hctx & Htr & _ & _ & _ & _ & _ & Htext & _ & ->).
  exists sceneChoices, sel, context, text.
  split; [exact Hch |]. split; [exact Hidx |]. split; [exact Hctx |].
  split; [reflexivity |].
  by eapply copy_generateStoryText_call.
Qed.

(** The story text read from an answer, case by case. *)
Lemma storyTextOf_no_data result storyText :
  CopyGame.storyTextOf result = Normal storyText ->
  truthy result = false
  \/ (exists data, Get result "data" = Normal data /\ truthy data = false) ->
  storyText = JStr "".
Proof.
  unfold CopyGame.storyTextOf. unfold_bind. intros Hs [Hr | (data & Hd & Ht)].
  - rewrite Hr in Hs. by injection Hs as <-.
  - rewrite Hd, Ht in Hs. destruct (truthy result); by injection Hs as <-.
Qed.

Lemma storyTextOf_data result data storyText :
  CopyGame.storyTextOf result = Normal storyText ->
  truthy result = true -> Get result "data" = Normal data -> truthy data = true ->
  match data with
  | JStr _ => storyText = data
  | _ =>
      if String.eqb (typeof data) "object" then
        exists picked,
          pickedField data = Normal picked
          /\ match picked with
             | Some v => storyText = v
             | None =>
                 JSON_stringify data = Normal storyText
                 /\ is_nonempty_string storyText
             end
      else exists s, ToString data = Normal s /\ storyText = JStr s
  end.
Proof.
  unfold CopyGame.storyTextOf. unfold_bind. intros Hs Hr Hd Ht.
  rewrite Hr, Hd, Ht in Hs.
  assert (Hobj : String.eqb (typeof data) "object" = true ->
            exists picked,
              pickedField data = Normal picked
              /\ match picked with
                 | Some v => storyText = v
                 | None =>
                     JSON_stringify data = Normal storyText
                     /\ is_nonempty_string storyText
                 end).
  { intros Hty. assert (Htx : CopyGame.textOfObject data = Normal storyText)
      by (destruct data; try discriminate Hty; exact Hs).
    rewrite textOfObject_picked in Htx. unfold_bind.
    destruct (pickedField data) as [picked |]; [| discriminate].
    exists picked. split; [reflexivity |].
    destruct picked as [v |]; [by injection Htx as <- |].
    split; [exact Htx |].
    apply (JSON_stringify_truthy data _ Htx).
    - intros ->. discriminate.
    - intros Hf. rewrite Hf in Hty. discriminate. }
  remember (ToString data) as ts eqn:Hts.
  destruct data; try (by injection Hs as <-);
    try (apply Hobj; reflexivity); try discriminate Ht;
    clear Hts; change (exists s, ts = Normal s /\ storyText = JStr s);
    simpl in Hs; (destruct ts as [s |]; [| discriminate]);
    injection Hs as <-; by exists s.
Qed.

End SceneTextFacts.

(** C7 fails: with a failing service the main engine's first scene carries
    the fallback object as [text], not a string; and the copy engine's scene
    text is the empty string when the service answers without [data]. *)
Lemma scene_text_object_or_empty :
  (exists scene st text,
     @MainGame.startNewGame Fixtures.failing
       ({| MainGame.currentScene := JNull; MainGame.history := [] |}, tt)
     = (Normal scene, st)
     /\ Get scene "text" = Normal text
     /\ typeof text = "object"
     /\ ~ is_nonempty_string text)
  /\
  (exists scene st,
     @CopyGame.startNewGame Fixtures.scripted
       (CopyGame.newGameState, [Normal (JObj [("requestId", JStr "r1")])])
     = (Normal scene, st)
     /\ Get scene "text" = Normal (JStr "")
     /\ ~ is_nonempty_string (JStr "")).
Proof.
  split.
  - eexists _, _, _. split; [vm_compute; reflexivity |].
    split; [reflexivity |]. split; [reflexivity |].
    intros (s & Hs & _). discriminate.
  - eexists _, _. split; [vm_compute; reflexivity |].
    split; [reflexivity |].
    intros (s & [= <-] & Hne). by apply Hne.
Qed.

(** C7 (amended): in every scene returned by [startNewGame] or [makeChoice]
    of the main engine, [text] is the result of the text generation of that
    call as it is: the answer of the service to the call made for this scene
    (with the initial context and "Game start", or with the output of the
    current scene's text and the selected choice), or, when that call was
    rejected, the fallback object
    [{data: {output: "The adventure continues... (Error generating story text)"}, error}]
    with the message of the rejection.  In every scene returned by the copy
    engine, [text] is the fallback sentence of the operation when the text
    generation of that call failed (the call was rejected or its answer could
    not be read), and else the story text read from the answer when that is
    a string, which it is unless the first truthy one of [data.text],
    [data.content], [data.response], [data.message] is not a string: the
    empty string when the answer carries no data, [data] when it is a
    string, for an object [data] the first truthy one of those four fields
    when it is a string and [JSON.stringify(data)], a non-empty string, when
    none is truthy, and [String(data)] for any other [data]. *)
Theorem scene_text_by_variant :
  (forall (P : Provider) g w scene st',
     MainGame.startNewGame (g, w) = (Normal scene, st') ->
     exists text,
       Get scene "text" = Normal text
       /\ main_text_of_call (JStr MainGame.initialContext) (JStr "Game start") w text)
  /\
  (forall (P : Provider) idx g w scene st',
     MainGame.makeChoice idx (g, w) = (Normal scene, st') ->
     exists sel context text,
       MainGame.selectChoice (MainGame.currentScene g) idx = Normal sel
       /\ Get (MainGame.currentScene g) "text" ≫= MainGame.data_output
          = Normal context
       /\ Get scene "text" = Normal text
       /\ main_text_of_call (default (JStr "") context) sel w text)
  /\
  (forall (P : Provider) (J : JsonParser) g w scene st',
     CopyGame.startNewGame (g, w) = (Normal scene, st') ->
     exists text,
       Get scene "text" = Normal text
       /\ copy_text_of_call CopyGame.startFallbackText
            (JStr CopyGame.initialContext) (JStr "Game start") w text)
  /\
  (forall (P : Provider) (J : JsonParser) idx g w scene st',
     CopyGame.makeChoice idx (g, w) = (Normal scene, st') ->
     exists sceneChoices sel context text,
       Get (CopyGame.currentScene g) "choices" = Normal sceneChoices
       /\ GetIdx sceneChoices idx = Normal sel
       /\ Get (CopyGame.currentScene g) "text" = Normal context
       /\ Get scene "text" = Normal text
       /\ copy_text_of_call CopyGame.choiceFallbackText context sel w text)
  /\
  (forall result storyText,
     CopyGame.storyTextOf result = Normal storyText ->
     (truthy result = false
      \/ (exists data, Get result "data" = Normal data /\ truthy data = false) ->
      storyText = JStr "")
     /\ (forall data,
           truthy result = true -> Get result "data" = Normal data ->
           truthy data = true ->
           match data with
           | JStr _ => storyText = data
           | _ =>
               if String.eqb (typeof data) "object" then
                 exists picked,
                   pickedField data = Normal picked
                   /\ match picked with
                      | Some v => is_string v -> storyText = v
                      | None =>
                          JSON_stringify data = Normal storyText
                          /\ is_nonempty_string storyText
                      end
               else exists s, ToString data = Normal s /\ storyText = JStr s
           end)
     /\ ((forall data v,
            Get result "data" = Normal data -> typeof data = "object" ->
            pickedField data = Normal (Some v) -> is_string v) ->
         is_string storyText)).
Proof.
  split; [intros P g w scene st'; apply main_startNewGame_text |].
  split; [intros P idx g w scene st'; apply main_makeChoice_text |].
  split; [intros P J g w scene st'; apply copy_startNewGame_text |].
  split; [intros P J idx g w scene st'; apply copy_makeChoice_text |].
  intros result storyText Hs.
  split; [by apply storyTextOf_no_data |].
  split.
  - intros data Hr Hd Ht.
    pose proof (storyTextOf_data result data storyText Hs Hr Hd Ht) as Hcase.
    destruct data; try exact Hcase;
      destruct Hcase as (picked & Hp & Hcase); exists picked;
      (split; [exact Hp |]);
      (destruct picked; [by intros _ | exact Hcase]).
  - intros Hpick.
    destruct (truthy result) eqn:Hr;
      [| exists ""; apply (storyTextOf_no_data _ _ Hs); by left].
    destruct (Get result "data") as [data | e] eqn:Hd.
    2: { unfold CopyGame.storyTextOf in Hs. unfold_bind.
         rewrite Hr, Hd in Hs. discriminate. }
    destruct (truthy data) eqn:Ht;
      [| exists ""; apply (storyTextOf_no_data _ _ Hs); right; by exists data].
    pose proof (storyTextOf_data result data storyText Hs Hr Hd Ht) as Hcase.
    assert (Hobj : typeof data = "object" ->
              (exists picked,
                 pickedField data = Normal picked
                 /\ match picked with
                    | Some v => storyText = v
                    | None =>
                        JSON_stringify data = Normal storyText
                        /\ is_nonempty_string storyText
                    end) ->
              is_string storyText).
    { intros Hty (picked & Hp & Hc). destruct picked as [v |].
      - subst v. by apply (Hpick data).
      - destruct Hc as (_ & s & -> & _). by exists s. }
    destruct data; try discriminate Ht;
      try (by (destruct Hcase as (s & _ & ->); eexists));
      try (by (apply Hobj; [reflexivity | exact Hcase])).
    by exists s.
Qed.

(** An answer whose [data] is an object with a [content] field. *)
Definition contentAnswer : JsVal :=
  JObj [("data", JObj [("content", JStr "Once upon a time")]);
        ("requestId", JStr "r1")].

Lemma scene_text_by_variant_witness :
  (exists text,
     Get Fixtures.mainStartedScene "text" = Normal text
     /\ @main_text_of_call Fixtures.failing
          (JStr MainGame.initialContext) (JStr "Game start") tt text)
  /\
  (exists sel context text,
     MainGame.selectChoice (MainGame.currentScene Fixtures.mainStarted) (Num 1)
     = Normal sel
     /\ Get (MainGame.currentScene Fixtures.mainStarted) "text"
          ≫= MainGame.data_output = Normal context
     /\ Get mainNextScene "text" = Normal text
     /\ @main_text_of_call Fixtures.scripted
          (default (JStr "") context) sel mainAnswers text)
  /\
  (exists text,
     Get Fixtures.copyStartedScene "text" = Normal text
     /\ @copy_text_of_call Fixtures.failing CopyGame.startFallbackText
          (JStr CopyGame.initialContext) (JStr "Game start") tt text)
  /\
  (exists sceneChoices sel context text,
     Get (CopyGame.currentScene Fixtures.copyStarted) "choices" = Normal sceneChoices
     /\ GetIdx sceneChoices (Num 1) = Normal sel
     /\ Get (CopyGame.currentScene Fixtures.copyStarted) "text" = Normal context
     /\ Get copyNextScene "text" = Normal text
     /\ @copy_text_of_call Fixtures.scripted CopyGame.choiceFallbackText
          context sel copyAnswers text)
  /\
  is_string (JStr "Once upon a time").
Proof.
  split.
  { apply (proj1 scene_text_by_variant Fixtures.failing
             {| MainGame.currentScene := JNull; MainGame.history := [] |} tt
             Fixtures.mainStartedScene (Fixtures.mainStarted, tt)).
    vm_compute. reflexivity. }
  split.
  { apply (proj1 (proj2 scene_text_by_variant) Fixtures.scripted (Num 1)
             Fixtures.mainStarted mainAnswers mainNextScene
             ({| MainGame.currentScene := mainNextScene;
                 MainGame.history := [Fixtures.mainStartedScene] |}, [])).
    vm_compute. reflexivity. }
  split.
  { apply (proj1 (proj2 (proj2 scene_text_by_variant)) Fixtures.failing
             Fixtures.refParser CopyGame.newGameState tt
             Fixtures.copyStartedScene (Fixtures.copyStarted, tt)).
    vm_compute. reflexivity. }
  split.
  { apply (proj1 (proj2 (proj2 (proj2 scene_text_by_variant))) Fixtures.scripted
             Fixtures.refParser (Num 1) Fixtures.copyStarted copyAnswers copyNextScene
             ({| CopyGame.currentScene := copyNextScene;
                 CopyGame.history := [Fixtures.copyStartedScene];
                 CopyGame.choices := [] |}, [])).
    vm_compute. reflexivity. }
  apply (proj2 (proj2 (proj2 (proj2 (proj2 (proj2 scene_text_by_variant)))
                         contentAnswer (JStr "Once upon a time") eq_refl))).
  intros data v [= <-] _ [= <-]. by eexists.
Defined.

(** ** Thrown values *)


(** Values whose properties can be read. *)
Definition is_object (e : JsVal) : Prop := exists fields, e = JObj fields.

Definition throws_objects {A} (c : Completion A) : Prop :=
  forall e, c = Throw e -> is_object e.

Lemma Error_object msg : is_object (Error msg).
Proof. by eexists. Qed.

Lemma TypeError_object msg : is_object (TypeError msg).
Proof. by eexists. Qed.

#[local] Hint Resolve Error_object TypeError_object : core.

Lemma throws_objects_normal {A} (a : A) : throws_objects (Normal a).
Proof. intros e. discriminate. Qed.

Lemma throws_objects_bind {A B} (c : Completion A) (k : A -> Completion B) :
  throws_objects c -> (forall a, throws_objects (k a)) -> throws_objects (c ≫= k).
Proof.
  intros Hc Hk e. destruct c as [a | e1]; simpl.
  - apply Hk.
  - intros [= <-]. by apply Hc.
Qed.

Lemma Get_throws v p : throws_objects (Get v p).
Proof. intros e. destruct v; simpl; intros [= <-]; auto. Qed.

Lemma GetIdx_throws v n : throws_objects (GetIdx v n).
Proof. intros e. destruct v; simpl; intros [= <-]; auto. Qed.

Lemma call_match_quoted_throws v : throws_objects (call_match_quoted v).
Proof. intros e. destruct v; simpl; intros [= <-]; auto. Qed.

Lemma call_substring_throws v n : throws_objects (call_substring v n).
Proof. intros e. destruct v; simpl; intros [= <-]; auto. Qed.

Lemma stringify_opt_throws v : throws_objects (stringify_opt v).
Proof.
  induction v as [| | b | n | s | elems IH | fields IH | | a src] using JsVal_nested_ind;
    try (intros e; simpl; discriminate).
  - intros e. destruct b; discriminate.
  - intros e. destruct n; discriminate.
  - simpl. apply throws_objects_bind; [| intros; apply throws_objects_normal].
    induction IH as [| x rest Hx _ IHrest]; [apply throws_objects_normal |].
    apply throws_objects_bind; [exact Hx | intros sx].
    apply throws_objects_bind; [exact IHrest | intros; apply throws_objects_normal].
  - simpl. apply throws_objects_bind; [| intros; apply throws_objects_normal].
    induction IH as [| [k x] rest Hx _ IHrest]; [apply throws_objects_normal |].
    apply throws_objects_bind; [exact Hx | intros sx].
    apply throws_objects_bind; [exact IHrest | intros; apply throws_objects_normal].
  - intros e [= <-]. auto.
Qed.

Lemma JSON_stringify_throws v : throws_objects (JSON_stringify v).
Proof.
  unfold JSON_stringify. apply throws_objects_bind.
  - apply stringify_opt_throws.
  - intros a. apply throws_objects_normal.
Qed.

Lemma log_preview_throws v : throws_objects (MainIndex.log_preview v).
Proof.
  unfold MainIndex.log_preview.
  apply throws_objects_bind; [apply JSON_stringify_throws | intros s].
  apply throws_objects_bind; [apply call_substring_throws | intros t].
  apply throws_objects_normal.
Qed.

(** ** [makeChoice] with an index that selects nothing (main variant) *)

Definition text_like (r : JsVal) : Prop :=
  MainGame.data_output r = Normal None
  \/ exists s, MainGame.data_output r = Normal (Some (JStr s)).

(** The default action for a non-negative index. *)
Definition default_action (z : Z) : string :=
  nth (Z.to_nat (z mod 3)) MainGame.DEFAULT_CHOICES "".

(** The index selects no entry of the choices. *)
Definition selects_nothing (choices : JsVal) (z : Z) : Prop :=
  Array_isArray choices = false
  \/ exists l, choices = JArr l /\ Z.of_nat (length l) <= z.

Lemma selectChoice_default scene choices z :
  Get scene "choices" = Normal choices ->
  selects_nothing choices z -> 0 <= z ->
  MainGame.selectChoice scene (Num z) = Normal (JStr (default_action z)).
Proof.
  intros Hch Hsel Hz. unfold MainGame.selectChoice. rewrite Hch.
  change (mbind ?k (Normal choices)) with (k choices). cbv beta.
  assert (Hdef : nth_elem (map JStr MainGame.DEFAULT_CHOICES)
                   (js_rem (Num z) (Num (Z.of_nat (length MainGame.DEFAULT_CHOICES))))
                 = JStr (default_action z)).
  { change (Z.of_nat (length MainGame.DEFAULT_CHOICES)) with 3.
    unfold js_rem. change (3 =? 0) with false. cbv iota.
    rewrite Z.rem_mod_nonneg by lia. unfold nth_elem, default_action.
    pose proof (Z.mod_pos_bound z 3 ltac:(lia)) as Hb.
    destruct (0 <=? z mod 3) eqn:Hle; [| lia].
    assert (z mod 3 = 0 \/ z mod 3 = 1 \/ z mod 3 = 2) as [-> | [-> | ->]] by lia;
      reflexivity. }
  destruct Hsel as [Hna | (l & -> & Hlen)].
  - rewrite Hna. change (mbind ?k (Normal false)) with (k false). cbv beta iota.
    by rewrite Hdef.
  - simpl Array_isArray. cbv iota. simpl GetIdx.
    destruct (0 <=? z) eqn:Hle; [| lia].
    rewrite nth_overflow by lia.
    change (mbind ?k (Normal JUndefined)) with (k JUndefined). cbv beta.
    simpl truthy.
    change (mbind ?k (Normal false)) with (k false). cbv beta iota.
    by rewrite Hdef.
Qed.

Section WellBehavedService.
Context `{Provider}.
Import MainGame.

Hypothesis key_set : truthy FAL_KEY = true.
Hypothesis errors_are_objects :
  forall endpoint input w e w',
    fal_subscribe endpoint input w = (Throw e, w') -> is_object e.
Hypothesis text_answers :
  forall input w r w',
    fal_subscribe "fal-ai/any-llm" input w = (Normal r, w') -> text_like r.

Lemma configure_ok {S} (s : S) : configureFalClient s = (Normal tt, s).
Proof. unfold configureFalClient. rewrite key_set. reflexivity. Qed.

Lemma thisScene_eq g w : thisScene (g, w) = (Normal (currentScene g), (g, w)).
Proof. reflexivity. Qed.

Lemma pushHistory_eq g w entry :
  pushHistory entry (g, w)
  = (Normal tt, ({| currentScene := currentScene g;
                    history := history g ++ [entry] |}, w)).
Proof. reflexivity. Qed.

Lemma Get_object e p : is_object e -> exists v, Get e p = Normal v.
Proof. intros (fields & ->). by eexists. Qed.

Lemma fallback_text_like message : text_like (mainFallbackText message).
Proof. right. by eexists. Qed.

Lemma generateStoryText_ok c u cs us g w :
  ToString c = Normal cs -> ToString u = Normal us ->
  exists r w', generateStoryText c u (g, w) = (Normal r, (g, w')) /\ text_like r.
Proof.
  intros Hc Hu. unfold generateStoryText.
  rewrite (bind_normal _ _ _ _ _ (configure_ok _)).
  rewrite (lift_bind_normal _ _ _ _ Hc), (lift_bind_normal _ _ _ _ Hu).
  unfold try_catchM, on_world, subscribe.
  destruct (fal_subscribe "fal-ai/any-llm"
              (JObj [("prompt", JStr (storyPrompt cs us))]) w) as [[r | e] w1] eqn:Hsub.
  - exists r, w1. split; [reflexivity |]. by eapply text_answers.
  - apply errors_are_objects in Hsub as (fields & ->).
    eexists _, w1. split; [reflexivity |]. apply fallback_text_like.
Qed.

Lemma generateStoryImage_ok d ds g w :
  ToString d = Normal ds ->
  exists r w', generateStoryImage d (g, w) = (Normal r, (g, w')).
Proof.
  intros Hd. unfold generateStoryImage.
  rewrite (bind_normal _ _ _ _ _ (configure_ok _)).
  rewrite (lift_bind_normal _ _ _ _ Hd).
  unfold try_catchM, on_world, subscribe. unfold mbind at 1, M_bind.
  destruct (fal_subscribe "fal-ai/flux-pro"
              (JObj [("prompt", JStr (imagePromptOf ds))]) w) as [[r | e] w1] eqn:Hsub.
  - unfold lift at 1. destruct (Get r "data") as [data | e] eqn:Hdata.
    + by eexists _, _.
    + apply Get_throws in Hdata as (fields & ->). by eexists _, _.
  - apply errors_are_objects in Hsub as (fields & ->). by eexists _, _.
Qed.

Lemma choicesOfResult_throws result : throws_objects (choicesOfResult result).
Proof.
  unfold choicesOfResult.
  apply throws_objects_bind; [apply log_preview_throws | intros _].
  apply throws_objects_bind; [apply Get_throws | intros data].
  assert (Hrest : throws_objects
    (if negb (truthy data) || negb (String.eqb (typeof data) "object")
     then Normal (str_list DEFAULT_CHOICES)
     else
       output ← Get data "output";
       if truthy output then
         manualExtract ← call_match_quoted output;
         match manualExtract with
         | Some matches =>
             let cleanedChoices := map Str.remove_quotes matches in
             Normal (match cleanedChoices with
                     | [] => str_list DEFAULT_CHOICES
                     | _ => str_list cleanedChoices
                     end)
         | None => Normal (str_list DEFAULT_CHOICES)
         end
       else Normal (str_list DEFAULT_CHOICES))).
  { destruct (negb (truthy data) || negb (String.eqb (typeof data) "object"));
      [apply throws_objects_normal |].
    apply throws_objects_bind; [apply Get_throws | intros output].
    destruct (truthy output); [| apply throws_objects_normal].
    apply throws_objects_bind; [apply call_match_quoted_throws | intros [ms |]];
      apply throws_objects_normal. }
  destruct data; try exact Hrest. apply throws_objects_normal.
Qed.

Lemma generateChoices_ok t g w :
  exists r w', generateChoices (JStr t) (g, w) = (Normal r, (g, w')).
Proof.
  unfold generateChoices.
  rewrite (bind_normal _ _ _ _ _ (configure_ok _)).
  unfold try_catchM, on_world, subscribe. unfold mbind at 1, M_bind.
  destruct (fal_subscribe "fal-ai/any-llm"
              (JObj [("prompt", JStr (choicePrompt t))]) w) as [[r | e] w1] eqn:Hsub.
  - unfold lift at 1. destruct (choicesOfResult r) as [choices | e] eqn:Hc.
    + by eexists _, _.
    + apply choicesOfResult_throws in Hc as (fields & ->). by eexists _, _.
  - apply errors_are_objects in Hsub as (fields & ->). by eexists _, _.
Qed.

(** A scene as the engine builds it, with a text result whose output, if
    any, is a string. *)
Definition good_scene (scene : JsVal) : Prop :=
  exists text image choices, scene = sceneOf text image choices /\ text_like text.

Lemma text_like_output r :
  text_like r ->
  exists o, data_output r = Normal o
    /\ exists s, default (JStr "") o = JStr s.
Proof.
  intros [Hn | (s & Hs)].
  - exists None. split; [assumption |]. by exists "".
  - exists (Some (JStr s)). split; [assumption |]. by exists s.
Qed.

Lemma continueWith_ok d g w :
  good_scene (currentScene g) ->
  exists scene g' w',
    continueWith (JStr d) (g, w) = (Normal scene, (g', w')) /\ good_scene scene.
Proof.
  intros (text & image & choices & Hscene & Htext).
  destruct (text_like_output _ Htext) as (o & Ho & ctx & Hctx).
  unfold continueWith. unfold Eng.
  rewrite (bind_normal _ _ _ _ _ (thisScene_eq _ _)).
  rewrite Hscene.
  assert (Hget : Get (sceneOf text image choices) "text" = Normal text)
    by reflexivity.
  rewrite (lift_bind_normal _ _ _ _ Hget).
  rewrite (lift_bind_normal _ _ _ _ Ho). rewrite Hctx.
  destruct (generateStoryText_ok (JStr ctx) (JStr d) ctx d g w eq_refl eq_refl)
    as (textResult & w1 & Hgen & Htl).
  rewrite (bind_normal _ _ _ _ _ Hgen).
  destruct (text_like_output _ Htl) as (o1 & Ho1 & s1 & Hs1).
  rewrite (lift_bind_normal _ _ _ _ Ho1).
  assert (Hprompt : exists ip ips,
    match o1 with
    | Some o =>
        head100 ← call_substring o 100;
        sel ← ToString (JStr d);
        Normal (JStr (sel +:+ " - " +:+ head100))
    | None => Normal (JStr d)
    end = Normal ip /\ ToString ip = Normal ips).
  { destruct o1 as [o1 |].
    - simpl in Hs1. subst o1. by eexists _, _.
    - by eexists _, _. }
  destruct Hprompt as (ip & ips & Hip & Hips).
  rewrite (lift_bind_normal _ _ _ _ Hip).
  destruct (generateStoryImage_ok ip ips g w1 Hips) as (imageResult & w2 & Himg).
  rewrite (bind_normal _ _ _ _ _ Himg).
  rewrite (lift_bind_normal _ _ _ _ Ho1). rewrite Hs1.
  destruct (generateChoices_ok s1 g w2) as (choicesResult & w3 & Hcho).
  rewrite (bind_normal _ _ _ _ _ Hcho).
  eexists _, _, _. split; [reflexivity |].
  by eexists _, _, _.
Qed.

Definition pushed_main (g : GameState) (entry : JsVal) : GameState :=
  {| currentScene := currentScene g; history := history g ++ [entry] |}.

Lemma makeChoice_selects_nothing g w z text image choices :
  currentScene g = sceneOf text image choices ->
  selects_nothing choices z -> 0 <= z ->
  makeChoice (Num z) (g, w)
  = continueWith (JStr (default_action z)) (pushed_main g (currentScene g), w).
Proof.
  intros Hscene Hsel Hz. unfold makeChoice. unfold Eng.
  rewrite (bind_normal _ _ _ _ _ (configure_ok _)).
  rewrite (bind_normal _ _ _ _ _ (thisScene_eq _ _)).
  assert (Hspread : spread (currentScene g) = Normal (currentScene g))
    by (by rewrite Hscene).
  rewrite (lift_bind_normal _ _ _ _ Hspread).
  rewrite (bind_normal _ _ _ _ _ (pushHistory_eq _ _ _)).
  fold (pushed_main g (currentScene g)).
  rewrite (bind_normal _ _ _ _ _ (thisScene_eq _ _)).
  change (currentScene (pushed_main g (currentScene g))) with (currentScene g).
  assert (Hch : Get (currentScene g) "choices" = Normal choices)
    by (by rewrite Hscene).
  rewrite (lift_bind_normal _ _ _ _ (selectChoice_default _ _ _ Hch Hsel Hz)).
  reflexivity.
Qed.

Lemma startNewGame_ok g w :
  exists scene g' w',
    startNewGame (g, w) = (Normal scene, (g', w')) /\ good_scene scene.
Proof.
  unfold startNewGame. unfold Eng.
  rewrite (bind_normal _ _ _ _ _ (configure_ok _)).
  destruct (generateStoryText_ok (JStr initialContext) (JStr "Game start")
              initialContext "Game start" g w eq_refl eq_refl)
    as (textResult & w1 & Hgen & Htl).
  rewrite (bind_normal _ _ _ _ _ Hgen).
  destruct (generateStoryImage_ok (JStr initialContext) initialContext g w1 eq_refl)
    as (imageResult & w2 & Himg).
  rewrite (bind_normal _ _ _ _ _ Himg).
  destruct (text_like_output _ Htl) as (o1 & Ho1 & s1 & Hs1).
  rewrite (lift_bind_normal _ _ _ _ Ho1). rewrite Hs1.
  destruct (generateChoices_ok s1 g w2) as (choicesResult & w3 & Hcho).
  rewrite (bind_normal _ _ _ _ _ Hcho).
  eexists _, _, _. split; [reflexivity |].
  by eexists _, _, _.
Qed.

End WellBehavedService.

(** C5 fails in the copy variant: an index past the end of the choices makes
    [makeChoice] throw. *)
Lemma copy_makeChoice_out_of_range_throws :
  exists st,
    @CopyGame.makeChoice Fixtures.failing Fixtures.refParser (Num 3)
      (Fixtures.copyStarted, tt)
    = (Throw (Error "Invalid choice index"), st).
Proof. eexists. vm_compute. reflexivity. Qed.

(** In the main variant a negative index that is not a multiple of three
    selects [undefined]: the remainder keeps the sign of the index. *)
Example main_negative_index_selects_undefined :
  MainGame.selectChoice Fixtures.mainStartedScene (Num (-1)) = Normal JUndefined.
Proof. reflexivity. Qed.

(** C5 (amended): main variant, with the key configured and a service whose
    failures are error objects and whose text answers carry a string output
    or none.  For an engine whose current scene was built by the engine,
    [makeChoice] with an integer index that is at least
    [currentScene.choices.length] (or with choices that are not an array)
    resolves the selected action to [DEFAULT_CHOICES[index mod 3]], runs
    story generation with that action on the engine whose history has
    received the current scene, and returns a scene without throwing. *)
Theorem main_makeChoice_out_of_range_uses_default (P : Provider) :
  truthy FAL_KEY = true ->
  (forall endpoint input w e w',
     fal_subscribe endpoint input w = (Throw e, w') -> is_object e) ->
  (forall input w r w',
     fal_subscribe "fal-ai/any-llm" input w = (Normal r, w') -> text_like r) ->
  forall g w z text image choices,
    MainGame.currentScene g = MainGame.sceneOf text image choices ->
    text_like text ->
    selects_nothing choices z -> 0 <= z ->
    MainGame.selectChoice (MainGame.currentScene g) (Num z)
      = Normal (JStr (default_action z))
    /\ MainGame.makeChoice (Num z) (g, w)
       = MainGame.continueWith (JStr (default_action z))
           (pushed_main g (MainGame.currentScene g), w)
    /\ exists scene g' w',
         MainGame.makeChoice (Num z) (g, w) = (Normal scene, (g', w'))
         /\ good_scene scene.
Proof.
  intros Hkey Herr Htext g w z text image choices Hscene Htl Hsel Hz.
  assert (Hch : Get (MainGame.currentScene g) "choices" = Normal choices)
    by (by rewrite Hscene).
  split; [by eapply selectChoice_default |].
  pose proof (makeChoice_selects_nothing Hkey g w z text image choices Hscene Hsel Hz)
    as Hmk.
  split; [exact Hmk |]. rewrite Hmk.
  apply (continueWith_ok Hkey Herr Htext).
  exists text, image, choices. auto.
Qed.

Lemma failing_errors_are_objects endpoint input w e w' :
  @fal_subscribe Fixtures.failing endpoint input w = (Throw e, w') -> is_object e.
Proof. intros [= <- _]. by eexists. Qed.

Lemma failing_text_answers input w r w' :
  @fal_subscribe Fixtures.failing "fal-ai/any-llm" input w = (Normal r, w') ->
  text_like r.
Proof. discriminate. Qed.

Lemma main_makeChoice_out_of_range_uses_default_witness :
  MainGame.selectChoice Fixtures.mainStartedScene (Num 7)
    = Normal (JStr "Take a different path")
  /\ @MainGame.makeChoice Fixtures.failing (Num 7) (Fixtures.mainStarted, tt)
     = @MainGame.continueWith Fixtures.failing (JStr "Take a different path")
         (pushed_main Fixtures.mainStarted Fixtures.mainStartedScene, tt)
  /\ exists scene g' w',
       @MainGame.makeChoice Fixtures.failing (Num 7) (Fixtures.mainStarted, tt)
       = (Normal scene, (g', w'))
       /\ good_scene scene.
Proof.
  apply (main_makeChoice_out_of_range_uses_default Fixtures.failing eq_refl
           failing_errors_are_objects failing_text_answers
           Fixtures.mainStarted tt 7
           (JObj [("data", JObj [("output",
                     JStr "The adventure continues... (Error generating story text)")]);
                  ("error", JStr "service unavailable")])
           (JObj [("images", JArr []); ("error", JStr "service unavailable")])
           (str_list MainGame.DEFAULT_CHOICES)).
  - reflexivity.
  - right. by eexists.
  - right. eexists. split; [reflexivity |]. simpl. lia.
  - lia.
Defined.

(** ** The claims on [extractText] and [extractChoices] *)


Section ExtractTextByInput.
Context `{JsonParser}.

Lemma extractText_default v :
  truthy v = false \/ (typeof v <> "string" /\ typeof v <> "object") ->
  CopyIndex.extractText v = JStr CopyIndex.defaultText.
Proof.
  unfold CopyIndex.extractText, CopyIndex.extractText_try.
  intros [Hf | [Hs Ho]].
  - by rewrite Hf.
  - destruct v; try reflexivity; try (by destruct Hs); try (by destruct Ho).
    + by destruct b.
    + by destruct (truthy (JNum n)).
Qed.

Lemma extractText_of_object v :
  truthy v = true -> typeof v = "object" ->
  CopyIndex.extractText v
  = match (data ← Get v "data";
           if truthy data then
             match data with
             | JStr d => CopyIndex.parsed_output_or d
             | _ => textOfData data
             end
           else textOfFields v) with
    | Normal r => r
    | Throw _ => JStr catchText
    end.
Proof.
  intros Ht Hty. unfold CopyIndex.extractText.
  by rewrite (extractText_try_object v Ht Hty).
Qed.

Lemma extractText_string_data v d :
  truthy v = true -> typeof v = "object" ->
  Get v "data" = Normal (JStr d) -> d <> "" ->
  CopyIndex.extractText v = CopyIndex.extractText (JStr d).
Proof.
  intros Ht Hty Hd Hne. rewrite (extractText_of_object v Ht Hty), Hd.
  change (mbind ?k (Normal (JStr d))) with (k (JStr d)). cbv beta.
  assert (Htd : truthy (JStr d) = true) by (by destruct d).
  rewrite Htd. unfold CopyIndex.extractText. by rewrite extractText_try_string.
Qed.

Lemma extractText_of_data v data :
  truthy v = true -> typeof v = "object" ->
  Get v "data" = Normal data -> truthy data = true -> typeof data <> "string" ->
  CopyIndex.extractText v
  = match textOfData data with Normal r => r | Throw _ => JStr catchText end.
Proof.
  intros Ht Hty Hd Htd Hns. rewrite (extractText_of_object v Ht Hty), Hd.
  change (mbind ?k (Normal data)) with (k data). cbv beta. rewrite Htd.
  destruct data; try reflexivity. by destruct Hns.
Qed.

Lemma extractText_of_fields v data o t :
  truthy v = true -> typeof v = "object" ->
  Get v "data" = Normal data -> truthy data = false ->
  Get v "output" = Normal o -> Get v "text" = Normal t ->
  CopyIndex.extractText v
  = if truthy o then o else if truthy t then t else JStr CopyIndex.defaultText.
Proof.
  intros Ht Hty Hd Htd Ho Htx. rewrite (extractText_of_object v Ht Hty), Hd.
  change (mbind ?k (Normal data)) with (k data). cbv beta. rewrite Htd.
  unfold textOfFields. rewrite Ho.
  change (mbind ?k (Normal o)) with (k o). cbv beta.
  destruct (truthy o); [reflexivity |]. rewrite Htx.
  change (mbind ?k (Normal t)) with (k t). cbv beta.
  by destruct (truthy t).
Qed.

End ExtractTextByInput.



Example extractText_null :
  @CopyIndex.extractText Fixtures.refParser JNull = JStr "The adventure continues...".
Proof. reflexivity. Qed.

Example extractText_exotic :
  @CopyIndex.extractText Fixtures.refParser JExotic = JStr "The story continues...".
Proof. reflexivity. Qed.

Section GenerateChoicesFacts.
Context `{Provider}.

Lemma main_choicesOfResult_nonempty result r :
  MainGame.choicesOfResult result = Normal r -> nonempty_array r.
Proof.
  unfold MainGame.choicesOfResult.
  destruct (MainIndex.log_preview result) as [preview | e]; [| discriminate].
  change (mbind ?k (Normal preview)) with (k preview). cbv beta.
  destruct (Get result "data") as [data | e]; [| discriminate].
  change (mbind ?k (Normal data)) with (k data). cbv beta.
  assert (Hdef : nonempty_array (str_list MainGame.DEFAULT_CHOICES))
    by (by eexists _, _).
  assert (Hrest :
    (if negb (truthy data) || negb (String.eqb (typeof data) "object")
     then Normal (str_list MainGame.DEFAULT_CHOICES)
     else
       output ← Get data "output";
       if truthy output then
         manualExtract ← call_match_quoted output;
         match manualExtract with
         | Some matches =>
             let cleanedChoices := map Str.remove_quotes matches in
             Normal (match cleanedChoices with
                     | [] => str_list MainGame.DEFAULT_CHOICES
                     | _ => str_list cleanedChoices
                     end)
         | None => Normal (str_list MainGame.DEFAULT_CHOICES)
         end
       else Normal (str_list MainGame.DEFAULT_CHOICES)) = Normal r ->
    nonempty_array r).
  { destruct (negb (truthy data) || negb (String.eqb (typeof data) "object"));
      [by intros [= <-] |].
    destruct (Get data "output") as [output | e]; [| discriminate].
    change (mbind ?k (Normal output)) with (k output). cbv beta.
    destruct (truthy output); [| by intros [= <-]].
    destruct (call_match_quoted output) as [[ms |] | e]; try discriminate.
    - change (mbind ?k (Normal (Some ms))) with (k (Some ms)). cbv beta iota zeta.
      destruct (map Str.remove_quotes ms) as [| x l]; intros [= <-]; [assumption |].
      by eexists _, _.
    - by intros [= <-]. }
  destruct data as [| | | | | [| x l] | | |]; try exact Hrest.
  intros [= <-]. by eexists _, _.
Qed.

Lemma main_generateChoices_nonempty t st r st' :
  MainGame.generateChoices t st = (Normal r, st') -> nonempty_array r.
Proof.
  unfold MainGame.generateChoices. intros Hg.
  assert (Hdef : nonempty_array (str_list MainGame.DEFAULT_CHOICES))
    by (by eexists _, _).
  apply bind_normal_inv in Hg as ([] & s1 & _ & Hg).
  destruct t; try (by injection Hg as <- _).
  apply try_catchM_normal_inv in Hg as [Hok | (e & s2 & _ & Hh)].
  - apply bind_normal_inv in Hok as (result & s3 & _ & Hok).
    injection Hok as Hok _. by eapply main_choicesOfResult_nonempty.
  - apply bind_normal_inv in Hh as (status & s4 & _ & Hh).
    by injection Hh as <- _.
Qed.

(** What the main engine's [generateChoices] makes of an answer that can be
    read: a non-empty array in [data] as it is, and the quoted substrings of
    [data.output], all of them, without their quotes. *)
Lemma main_choicesOfResult_array result x l :
  readable result = true -> Get result "data" = Normal (JArr (x :: l)) ->
  MainGame.choicesOfResult result = Normal (JArr (x :: l)).
Proof.
  intros Hr Hd.
  assert (Hty : typeof result = "object").
  { destruct result; try discriminate Hd; try reflexivity;
      simpl in Hd; destruct (String.eqb "data" "length"); discriminate Hd. }
  destruct (log_preview_readable result Hr Hty) as [preview Hp].
  unfold MainGame.choicesOfResult. rewrite Hp.
  change (mbind ?k (Normal preview)) with (k preview). cbv beta.
  rewrite Hd. reflexivity.
Qed.

Lemma main_choicesOfResult_quoted result data o ms :
  readable result = true -> Get result "data" = Normal data ->
  Get data "output" = Normal (JStr o) -> Str.match_quoted o = Some ms ->
  MainGame.choicesOfResult result = Normal (str_list (map Str.remove_quotes ms)).
Proof.
  intros Hr Hd Ho Hm.
  assert (Hdata : exists f2, data = JObj f2).
  { destruct data; simpl in Ho; try discriminate; try (by eexists);
      destruct (String.eqb "output" "length"); discriminate. }
  destruct Hdata as [f2 ->].
  assert (Hty : typeof result = "object").
  { destruct result; try discriminate Hd; try reflexivity;
      simpl in Hd; destruct (String.eqb "data" "length"); discriminate Hd. }
  assert (Hto : truthy (JStr o) = true).
  { apply match_quoted_nonempty in Hm. by destruct o. }
  destruct (log_preview_readable result Hr Hty) as [preview Hp].
  unfold MainGame.choicesOfResult. rewrite Hp.
  change (mbind ?k (Normal preview)) with (k preview). cbv beta.
  rewrite Hd. change (mbind ?k (Normal (JObj f2))) with (k (JObj f2)). cbv beta iota.
  simpl truthy. simpl typeof. simpl negb. simpl orb. cbv iota.
  rewrite Ho. change (mbind ?k (Normal (JStr o))) with (k (JStr o)). cbv beta.
  rewrite Hto. simpl call_match_quoted. rewrite Hm.
  change (mbind ?k (Normal (Some ms))) with (k (Some ms)). cbv beta iota zeta.
  destruct ms as [| m rest]; [| reflexivity].
  unfold Str.match_quoted in Hm. destruct (Str.quoted_go None o); discriminate.
Qed.

Lemma main_generateChoices_of_result t g w result w' r :
  truthy FAL_KEY = true ->
  fal_subscribe "fal-ai/any-llm" (JObj [("prompt", JStr (MainGame.choicePrompt t))]) w
  = (Normal result, w') ->
  MainGame.choicesOfResult result = Normal r ->
  MainGame.generateChoices (JStr t) (g, w) = (Normal r, (g, w')).
Proof.
  intros Hkey Hsub Hc. unfold MainGame.generateChoices. unfold MainGame.Eng.
  rewrite (bind_normal _ _ _ _ _ (configure_ok Hkey _)).
  unfold try_catchM, on_world, subscribe. unfold mbind at 1, M_bind.
  rewrite Hsub. unfold lift. by rewrite Hc.
Qed.

End GenerateChoicesFacts.

(** C1 fails: the main server's [extractChoices] returns an array it is
    given as it is, whatever its length, and an extracted choice may be the
    empty string. *)
Lemma extractChoices_not_always_triple :
  MainIndex.extractChoices (JArr [JStr "Run"]) = JArr [JStr "Run"]
  /\ ~ is_choice_triple (MainIndex.extractChoices (JArr [JStr "Run"]))
  /\ MainIndex.extractChoices
       (JObj [("data", JObj [("output", JStr (String Str.dq (String Str.dq "")))])])
     = str_list [""; "Continue exploring"; "Take a different path"].
Proof.
  split; [reflexivity |]. split; [| reflexivity].
  intros (a & b & c & Heq & _). vm_compute in Heq. discriminate.
Qed.

(** C1 (amended): the main server's [extractChoices] returns exactly three
    strings for every response that is not an array.  When the response
    can be read and [data.output] is a string with quoted substrings, these
    are the first three of the quoted substrings followed by the defaults:
    fewer than three extracted are padded with the leading defaults, three
    or more are cut to the first three (an extracted string may be empty);
    in every other case they are the defaults.  An array is returned as it
    is, whatever its length, when it is not empty and can be read, and is
    replaced by the defaults otherwise.  The copy server's [extractChoices]
    and the main engine's [generateChoices] pad and cut nothing: they
    return a non-empty array, the array found in the response as it is, and
    [generateChoices] all the quoted substrings of [data.output]. *)
Theorem extractChoices_shape :
  (forall v, Array_isArray v = false ->
     (exists a b c, MainIndex.extractChoices v = str_list [a; b; c])
     /\ (MainIndex.extractChoices v = str_list MainIndex.DEFAULT_CHOICES
         \/ exists data o ms,
              Get v "data" = Normal data /\ Get data "output" = Normal (JStr o)
              /\ Str.match_quoted o = Some ms
              /\ MainIndex.extractChoices v
                 = str_list (firstn 3 (map Str.remove_quotes ms
                                       ++ MainIndex.DEFAULT_CHOICES))))
  /\ (forall v data o ms,
        Array_isArray v = false -> readable v = true ->
        Get v "data" = Normal data -> Get data "output" = Normal (JStr o) ->
        Str.match_quoted o = Some ms ->
        MainIndex.extractChoices v
        = str_list (firstn 3 (map Str.remove_quotes ms ++ MainIndex.DEFAULT_CHOICES))
        /\ ((length ms < 3)%nat ->
            MainIndex.extractChoices v
            = str_list (map Str.remove_quotes ms
                        ++ firstn (3 - length ms) MainIndex.DEFAULT_CHOICES))
        /\ ((3 <= length ms)%nat ->
            MainIndex.extractChoices v
            = str_list (firstn 3 (map Str.remove_quotes ms))))
  /\ (forall v,
        Array_isArray v = false ->
        (forall data o ms,
           Get v "data" = Normal data -> Get data "output" = Normal (JStr o) ->
           Str.match_quoted o = Some ms -> False) ->
        MainIndex.extractChoices v = str_list MainIndex.DEFAULT_CHOICES)
  /\ (forall arr,
        MainIndex.extractChoices (JArr arr) = JArr arr
        \/ MainIndex.extractChoices (JArr arr) = str_list MainIndex.DEFAULT_CHOICES)
  /\ MainIndex.extractChoices (JArr []) = str_list MainIndex.DEFAULT_CHOICES
  /\ (forall x l,
        readable (JArr (x :: l)) = true ->
        MainIndex.extractChoices (JArr (x :: l)) = JArr (x :: l))
  /\ (forall (J : JsonParser) v, exists x l, CopyIndex.extractChoices v = JArr (x :: l))
  /\ (forall (J : JsonParser) x l,
        CopyIndex.extractChoices (JArr (x :: l)) = JArr (x :: l))
  /\ (forall (J : JsonParser) v x l,
        Array_isArray v = false -> Get v "data" = Normal (JArr (x :: l)) ->
        CopyIndex.extractChoices v = JArr (x :: l))
  /\ (forall (P : Provider) t st r st',
        MainGame.generateChoices t st = (Normal r, st') ->
        exists x l, r = JArr (x :: l))
  /\ (forall (P : Provider) t g w result w',
        truthy FAL_KEY = true ->
        fal_subscribe "fal-ai/any-llm"
          (JObj [("prompt", JStr (MainGame.choicePrompt t))]) w
        = (Normal result, w') ->
        readable result = true ->
        (forall x l,
           Get result "data" = Normal (JArr (x :: l)) ->
           MainGame.generateChoices (JStr t) (g, w)
           = (Normal (JArr (x :: l)), (g, w')))
        /\ (forall data o ms,
              Get result "data" = Normal data ->
              Get data "output" = Normal (JStr o) ->
              Str.match_quoted o = Some ms ->
              MainGame.generateChoices (JStr t) (g, w)
              = (Normal (str_list (map Str.remove_quotes ms)), (g, w')))).
Proof.
  split.
  { intros v Harr. split.
    - by apply main_extractChoices_three.
    - by apply main_extractChoices_non_array. }
  split.
  { intros v data o ms Harr Hr Hd Ho Hm.
    rewrite (main_extractChoices_quoted v data o ms Harr Hr Hd Ho Hm).
    split; [by rewrite pad_or_truncate_firstn |]. split; intros Hlen.
    - rewrite pad_or_truncate_short by (by rewrite length_map).
      by rewrite length_map.
    - by rewrite pad_or_truncate_long by (by rewrite length_map). }
  split.
  { intros v Harr Hno. apply main_extractChoices_unquoted; [exact Harr |].
    intros ms (data & o & Hd & Ho & Hm). by eapply Hno. }
  split; [apply main_extractChoices_array |].
  split; [reflexivity |].
  split; [apply main_extractChoices_array_readable |].
  split; [intros J v; apply copy_extractChoices_nonempty |].
  split; [intros J x l; apply copy_extractChoices_array |].
  split; [intros J v x l; apply copy_extractChoices_data_array |].
  split; [intros P t st r st'; apply main_generateChoices_nonempty |].
  intros P t g w result w' Hkey Hsub Hr. split.
  - intros x l Hd. eapply main_generateChoices_of_result; eauto.
    by apply main_choicesOfResult_array.
  - intros data o ms Hd Ho Hm. eapply main_generateChoices_of_result; eauto.
    by eapply main_choicesOfResult_quoted.
Qed.

(** The text [s] between two double quotes. *)
Definition in_quotes (s : string) : string := String Str.dq (s +:+ String Str.dq "").

(** Two quoted substrings are padded with the first default; four are cut
    to the first three. *)
Lemma extractChoices_shape_witness :
  MainIndex.extractChoices
    (JObj [("data", JObj [("output",
              JStr (in_quotes "Run" +:+ " or " +:+ in_quotes "Hide"))])])
  = str_list ["Run"; "Hide"; "Continue exploring"]
  /\ MainIndex.extractChoices
       (JObj [("data", JObj [("output",
                 JStr (in_quotes "a" +:+ in_quotes "b" +:+ in_quotes "c"
                       +:+ in_quotes "d"))])])
     = str_list ["a"; "b"; "c"]
  /\ MainIndex.extractChoices (JObj [("data", JObj [])])
     = str_list MainIndex.DEFAULT_CHOICES
  /\ MainIndex.extractChoices (JArr [JStr "Run"; JStr "Hide"; JStr "Wait"; JStr "Go"])
     = JArr [JStr "Run"; JStr "Hide"; JStr "Wait"; JStr "Go"]
  /\ @CopyIndex.extractChoices Fixtures.refParser
       (JObj [("data", JArr [JStr "Run"; JStr "Hide"])])
     = JArr [JStr "Run"; JStr "Hide"]
  /\ @MainGame.generateChoices Fixtures.scripted (JStr "A dark wood.")
       ({| MainGame.currentScene := JNull; MainGame.history := [] |},
        [Normal (JObj [("data", JArr [JStr "Run"])])])
     = (Normal (JArr [JStr "Run"]),
        ({| MainGame.currentScene := JNull; MainGame.history := [] |}, [])).
Proof.
  destruct extractChoices_shape
    as (_ & Hquoted & Hunquoted & _ & _ & Harray & _ & _ & Hdata & _ & Hgen).
  split; [| split; [| split; [| split; [| split]]]].
  - eassert (Hm : Str.match_quoted (in_quotes "Run" +:+ " or " +:+ in_quotes "Hide")
                  = Some _) by (vm_compute; reflexivity).
    destruct (Hquoted (JObj [("data", JObj [("output",
                         JStr (in_quotes "Run" +:+ " or " +:+ in_quotes "Hide"))])])
                _ _ _ eq_refl eq_refl eq_refl eq_refl Hm) as (_ & Hshort & _).
    etransitivity; [apply Hshort; simpl; lia | vm_compute; reflexivity].
  - eassert (Hm : Str.match_quoted (in_quotes "a" +:+ in_quotes "b" +:+ in_quotes "c"
                                    +:+ in_quotes "d")
                  = Some _) by (vm_compute; reflexivity).
    destruct (Hquoted (JObj [("data", JObj [("output",
                         JStr (in_quotes "a" +:+ in_quotes "b" +:+ in_quotes "c"
                               +:+ in_quotes "d"))])])
                _ _ _ eq_refl eq_refl eq_refl eq_refl Hm) as (_ & _ & Hlong).
    etransitivity; [apply Hlong; simpl; lia | vm_compute; reflexivity].
  - apply Hunquoted; [reflexivity |].
    intros data o ms Hd Ho. injection Hd as <-. discriminate Ho.
  - apply Harray. reflexivity.
  - apply (Hdata Fixtures.refParser); reflexivity.
  - destruct (Hgen Fixtures.scripted "A dark wood."
                {| MainGame.currentScene := JNull; MainGame.history := [] |}
                [Normal (JObj [("data", JArr [JStr "Run"])])]
                (JObj [("data", JArr [JStr "Run"])]) []
                eq_refl eq_refl eq_refl) as (Harr & _).
    apply Harr. reflexivity.
Defined.

(** C3 fails: when the inspection throws, the copy server's [extractChoices]
    returns the triple of its [catch] block, which is not the default
    triple. *)
Lemma copy_extractChoices_catch_triple :
  @CopyIndex.extractChoices Fixtures.refParser JExotic
  = str_list ["Continue forward"; "Look for another path";
              "Rest and consider your options"]
  /\ @CopyIndex.extractChoices Fixtures.refParser JExotic
     <> str_list ["Continue exploring"; "Take a different path";
                  "Stop and observe your surroundings"].
Proof. split; [reflexivity | discriminate]. Qed.

(** C3 (amended): a response in which no choices are found gives the
    default triple in both servers.  In the main server that is every
    response that is no array and has no quoted substring in a string
    [data.output], the empty array, and every response whose inspection
    throws.  In the copy server it is every response that is no array, has
    no non-empty array as [data], and has no fenced JSON array in a string
    [data] or [data.output], provided no property read throws, and the
    empty array.  In the copy server an exception is raised exactly when the
    response or its [data] is an object whose property reads throw, and the
    result is then the triple of its [catch] block:
    "Continue forward", "Look for another path",
    "Rest and consider your options". *)
Theorem extractChoices_defaults :
  (forall v,
     Array_isArray v = false ->
     (forall data o ms,
        Get v "data" = Normal data -> Get data "output" = Normal (JStr o) ->
        Str.match_quoted o = Some ms -> False) ->
     MainIndex.extractChoices v
     = str_list ["Continue exploring"; "Take a different path";
                 "Stop and observe your surroundings"])
  /\ MainIndex.extractChoices (JArr [])
     = str_list ["Continue exploring"; "Take a different path";
                 "Stop and observe your surroundings"]
  /\ (forall v e, MainIndex.extractChoices_try v = Throw e ->
        MainIndex.extractChoices v
        = str_list ["Continue exploring"; "Take a different path";
                    "Stop and observe your surroundings"])
  /\ (forall (J : JsonParser) v,
        Array_isArray v = false ->
        v <> JExotic -> Get v "data" <> Normal JExotic ->
        (forall c, ~ copy_payload v c) ->
        CopyIndex.extractChoices v
        = str_list ["Continue exploring"; "Take a different path";
                    "Stop and observe your surroundings"])
  /\ (forall (J : JsonParser),
        CopyIndex.extractChoices (JArr [])
        = str_list ["Continue exploring"; "Take a different path";
                    "Stop and observe your surroundings"])
  /\ (forall (J : JsonParser) v e,
        CopyIndex.extractChoices_try v = Throw e ->
        v = JExotic \/ Get v "data" = Normal JExotic)
  /\ (forall (J : JsonParser) v,
        v = JExotic \/ Get v "data" = Normal JExotic ->
        CopyIndex.extractChoices v
        = str_list ["Continue forward"; "Look for another path";
                    "Rest and consider your options"]).
Proof.
  split.
  { intros v Harr Hno. apply main_extractChoices_unquoted; [exact Harr |].
    intros ms (data & o & Hd & Ho & Hm). by eapply Hno. }
  split; [reflexivity |].
  split.
  { intros v e Ht. unfold MainIndex.extractChoices. by rewrite Ht. }
  split; [intros J v; apply copy_extractChoices_no_choices |].
  split; [reflexivity |].
  split; [intros J v e; apply copy_extractChoices_try_throws |].
  intros J v. apply copy_extractChoices_exotic.
Qed.

(** No fenced array is found in a text without a fence. *)
Lemma no_fenced_choices `{JsonParser} s c :
  Str.match_codeblock s = None -> ~ fenced_choices s c.
Proof. intros Hm (g & Hg & _). rewrite Hm in Hg. discriminate. Qed.

(** The text of the spec's scenario: no quotes, no brackets, no fence. *)
Definition plainText : string := "no quotes or brackets here".

Lemma extractChoices_defaults_witness :
  (MainIndex.extractChoices (JStr plainText) = str_list MainIndex.DEFAULT_CHOICES
   /\ MainIndex.extractChoices (JObj [("data", JObj [])])
      = str_list MainIndex.DEFAULT_CHOICES
   /\ MainIndex.extractChoices (JObj [("data", JNum (Num 42))])
      = str_list MainIndex.DEFAULT_CHOICES
   /\ MainIndex.extractChoices (JObj [("data", JStr plainText)])
      = str_list MainIndex.DEFAULT_CHOICES
   /\ MainIndex.extractChoices (JObj [("data", JObj [("output", JStr plainText)])])
      = str_list MainIndex.DEFAULT_CHOICES
   /\ MainIndex.extractChoices JUndefined = str_list MainIndex.DEFAULT_CHOICES)
  /\ (@CopyIndex.extractChoices Fixtures.refParser (JStr plainText)
      = CopyIndex.defaultChoices
      /\ @CopyIndex.extractChoices Fixtures.refParser (JObj [("data", JObj [])])
         = CopyIndex.defaultChoices
      /\ @CopyIndex.extractChoices Fixtures.refParser (JObj [("data", JNum (Num 42))])
         = CopyIndex.defaultChoices
      /\ @CopyIndex.extractChoices Fixtures.refParser (JObj [("data", JStr plainText)])
         = CopyIndex.defaultChoices
      /\ @CopyIndex.extractChoices Fixtures.refParser
           (JObj [("data", JObj [("output", JStr plainText)])])
         = CopyIndex.defaultChoices)
  /\ @CopyIndex.extractChoices Fixtures.refParser (JObj [("data", JExotic)])
     = CopyIndex.catchChoices.
Proof.
  destruct extractChoices_defaults as (Hmain & _ & Hthrow & Hcopy & _ & _ & Hcatch).
  assert (Hplain : Str.match_quoted plainText = None) by (vm_compute; reflexivity).
  assert (Hfence : Str.match_codeblock plainText = None) by (vm_compute; reflexivity).
  split; [| split].
  - split; [| split; [| split; [| split; [| split]]]].
    + apply Hmain; [reflexivity |].
      intros data o ms Hd Ho. injection Hd as <-. discriminate Ho.
    + apply Hmain; [reflexivity |].
      intros data o ms Hd Ho. injection Hd as <-. discriminate Ho.
    + apply Hmain; [reflexivity |].
      intros data o ms Hd Ho. injection Hd as <-. discriminate Ho.
    + apply Hmain; [reflexivity |].
      intros data o ms Hd Ho. injection Hd as <-. discriminate Ho.
    + apply Hmain; [reflexivity |].
      intros data o ms Hd Ho Hm. injection Hd as <-. injection Ho as <-.
      rewrite Hplain in Hm. discriminate Hm.
    + apply (Hthrow JUndefined
               (TypeError "Cannot read properties of undefined or null")).
      reflexivity.
  - (split; [| split; [| split; [| split]]]); apply (Hcopy Fixtures.refParser);
      try reflexivity; try discriminate;
      intros c (data & Hd & [[-> (x & l & Hc)] | [(d & -> & Hf) | (o & Ho & Hf)]]);
      try discriminate Hd; injection Hd as Hd; subst;
      try discriminate Ho; try discriminate;
      try (by eapply (@no_fenced_choices Fixtures.refParser); [exact Hfence | exact Hf]).
    injection Ho as <-.
    by eapply (@no_fenced_choices Fixtures.refParser); [exact Hfence | exact Hf].
  - apply (Hcatch Fixtures.refParser). right. reflexivity.
Defined.

(** ** A fenced JSON array of three strings *)

Section FencedArrayFacts.
Import Str.

Lemma app_assoc_str (s t u : string) : (s +:+ t) +:+ u = s +:+ (t +:+ u).
Proof.
  induction s as [| c s IH]; [reflexivity |].
  rewrite !app_cons. by rewrite IH.
Qed.

Lemma app_nil_r_str (s : string) : s +:+ "" = s.
Proof.
  induction s as [| c s IH]; [reflexivity |]. rewrite app_cons. by rewrite IH.
Qed.

Lemma forallb_chars_cons p c s :
  forallb_chars p (String c s) = true -> p c = true /\ forallb_chars p s = true.
Proof. simpl. intros Hp. by apply andb_prop in Hp. Qed.

Lemma no_char_cons c0 c s :
  no_char c0 (String c s) = true -> Ascii.eqb c c0 = false /\ no_char c0 s = true.
Proof.
  intros Hn. unfold no_char in Hn. apply forallb_chars_cons in Hn as [Hc Hs].
  split; [by apply negb_true_iff in Hc | exact Hs].
Qed.

(** *** The quoted-substring pattern *)

Lemma quoted_go_skip p r :
  no_char dq p = true -> quoted_go None (p +:+ r) = quoted_go None r.
Proof.
  induction p as [| c p IH]; [reflexivity |].
  intros Hn. apply no_char_cons in Hn as [Hc Hp].
  rewrite app_cons. simpl. unfold is_dq. rewrite Hc. by apply IH.
Qed.

Lemma quoted_go_close a acc u :
  no_char dq a = true -> one_line a = true ->
  quoted_go (Some acc) (a +:+ String dq u)
  = (acc +:+ a +:+ String dq "") :: quoted_go None u.
Proof.
  revert acc. induction a as [| c a IH]; intros acc Hn Hl.
  - reflexivity.
  - apply no_char_cons in Hn as [Hc Hn].
    unfold one_line in Hl.
    apply forallb_chars_cons in Hl as [Hlc Hl]. apply negb_true_iff in Hlc.
    rewrite app_cons. simpl. unfold is_dq. rewrite Hc, Hlc.
    rewrite (IH _ Hn Hl). f_equal.
    rewrite app_assoc_str. reflexivity.
Qed.

Lemma quoted_go_open a u :
  no_char dq a = true -> one_line a = true ->
  quoted_go None (String dq (a +:+ String dq u))
  = String dq (a +:+ String dq "") :: quoted_go None u.
Proof.
  intros Hn Hl. simpl. by rewrite (quoted_go_close a _ u Hn Hl).
Qed.

Lemma filter_chars_id keep s :
  forallb_chars keep s = true -> filter_chars keep s = s.
Proof.
  induction s as [| c s IH]; [reflexivity |].
  intros Hk. apply forallb_chars_cons in Hk as [Hc Hs].
  simpl. rewrite Hc. by rewrite IH.
Qed.

Lemma filter_chars_app keep s t :
  filter_chars keep (s +:+ t) = filter_chars keep s +:+ filter_chars keep t.
Proof.
  induction s as [| c s IH]; [reflexivity |].
  rewrite app_cons. simpl. destruct (keep c); [| exact IH].
  rewrite app_cons. by rewrite IH.
Qed.

Lemma remove_quotes_quoted a :
  no_char dq a = true -> remove_quotes (String dq (a +:+ String dq "")) = a.
Proof.
  intros Hn. unfold remove_quotes.
  change (filter_chars ?k (String dq ?s)) with (filter_chars k s).
  rewrite filter_chars_app.
  rewrite (filter_chars_id _ a) by exact Hn.
  change (filter_chars _ (String dq "")) with "".
  apply app_nil_r_str.
Qed.

(** *** The code-block pattern *)

Lemma prefix_cons_eq a s1 s2 :
  String.prefix (String a s1) (String a s2) = String.prefix s1 s2.
Proof. simpl. destruct (ascii_dec a a); [reflexivity | contradiction]. Qed.

Lemma skip_spaces_all ws c r :
  all_space ws = true -> is_js_space c = false ->
  skip_spaces (ws +:+ String c r) = String c r.
Proof.
  induction ws as [| x ws IH]; intros Hs Hc.
  - rewrite app_nil_l. simpl. by rewrite Hc.
  - unfold all_space in Hs. apply forallb_chars_cons in Hs as [Hx Hs].
    rewrite app_cons. simpl. rewrite Hx. by apply IH.
Qed.

(** *** More on the code-block pattern: where it can start and end *)

Lemma prefix_cons a s1 b s2 :
  String.prefix (String a s1) (String b s2)
  = if Ascii.eqb a b then String.prefix s1 s2 else false.
Proof.
  simpl. destruct (ascii_dec a b) as [-> | Hne].
  - by rewrite Ascii.eqb_refl.
  - destruct (Ascii.eqb_spec a b); [contradiction | reflexivity].
Qed.

Lemma prefix_nil s : String.prefix "" s = true.
Proof. by destruct s. Qed.

Lemma prefix_app_long p x y :
  (String.length p <= String.length x)%nat ->
  String.prefix p (x +:+ y) = String.prefix p x.
Proof.
  revert x. induction p as [| a p IH]; intros x Hlen.
  - by rewrite !prefix_nil.
  - destruct x as [| b x]; [simpl in Hlen; lia |].
    rewrite app_cons, !prefix_cons. destruct (Ascii.eqb a b); [| reflexivity].
    apply IH. simpl in Hlen. lia.
Qed.

(** After text that ends before a character that is neither white space nor
    a back quote, a fence is found exactly when it is found in the text. *)
Lemma fence_after t c0 u :
  is_js_space c0 = false -> Ascii.eqb bquote c0 = false ->
  String.prefix fence (skip_spaces (t +:+ String c0 u))
  = String.prefix fence (skip_spaces t).
Proof.
  intros Hs Hb. induction t as [| c t IH].
  - rewrite app_nil_l. simpl skip_spaces. rewrite Hs.
    unfold fence. by rewrite prefix_cons, Hb.
  - rewrite app_cons. simpl skip_spaces.
    destruct (is_js_space c); [exact IH |].
    unfold fence. rewrite !prefix_cons.
    destruct (Ascii.eqb bquote c); [| reflexivity].
    destruct t as [| c2 t]; [rewrite app_nil_l; by rewrite prefix_cons, Hb |].
    rewrite app_cons, !prefix_cons.
    destruct (Ascii.eqb bquote c2); [| reflexivity].
    destruct t as [| c3 t]; [rewrite app_nil_l; by rewrite prefix_cons, Hb |].
    rewrite app_cons, !prefix_cons.
    destruct (Ascii.eqb bquote c3); [| reflexivity].
    by rewrite !prefix_nil.
Qed.

Lemma lazy_to_close_char c x :
  Ascii.eqb c "]" = false ->
  lazy_to_close (String c x) = option_map (String c) (lazy_to_close x).
Proof.
  intros Hc.
  change (lazy_to_close (String c x))
    with (if Ascii.eqb c "]" && String.prefix fence (skip_spaces x)
          then Some (String c "")
          else option_map (String c) (lazy_to_close x)).
  by rewrite Hc.
Qed.

(** The pattern does not end inside text without a closing bracket ... *)
Lemma lazy_to_close_skip p x :
  no_char "]" p = true ->
  lazy_to_close (p +:+ x) = option_map (String.append p) (lazy_to_close x).
Proof.
  induction p as [| c p IH]; intros Hn.
  - rewrite app_nil_l. by destruct (lazy_to_close x).
  - apply no_char_cons in Hn as [Hc Hn].
    rewrite app_cons, (lazy_to_close_char c _ Hc), (IH Hn).
    destruct (lazy_to_close x); [| reflexivity]. simpl. by rewrite app_cons.
Qed.

(** ... nor inside a string in which no closing bracket is followed by a
    fence. *)
Lemma lazy_to_close_string t c0 u :
  block_end_free t = true ->
  is_js_space c0 = false -> Ascii.eqb bquote c0 = false ->
  lazy_to_close (t +:+ String c0 u)
  = option_map (String.append t) (lazy_to_close (String c0 u)).
Proof.
  intros Ht Hs Hb. induction t as [| c t IH].
  - rewrite app_nil_l. by destruct (lazy_to_close (String c0 u)).
  - simpl in Ht. apply andb_prop in Ht as [Hc Ht]. apply negb_true_iff in Hc.
    rewrite app_cons.
    change (lazy_to_close (String c (t +:+ String c0 u)))
      with (if Ascii.eqb c "]" && String.prefix fence (skip_spaces (t +:+ String c0 u))
            then Some (String c "")
            else option_map (String c) (lazy_to_close (t +:+ String c0 u))).
    rewrite (fence_after t c0 u Hs Hb), Hc, (IH Ht).
    destruct (lazy_to_close (String c0 u)); [| reflexivity]. simpl. by rewrite app_cons.
Qed.

(** The closing bracket of the array, followed by white space and the
    closing fence, ends the pattern. *)
Lemma lazy_to_close_bracket ws post :
  all_space ws = true ->
  lazy_to_close (String "]" (ws +:+ fence +:+ post)) = Some "]".
Proof.
  intros Hs.
  change (lazy_to_close (String "]" (ws +:+ fence +:+ post)))
    with (if Ascii.eqb "]" "]" && String.prefix fence (skip_spaces (ws +:+ fence +:+ post))
          then Some "]"
          else option_map (String "]") (lazy_to_close (ws +:+ fence +:+ post))).
  change (fence +:+ post) with (String bquote (String bquote (String bquote post))).
  rewrite (skip_spaces_all ws bquote _ Hs eq_refl).
  unfold fence. rewrite !prefix_cons_eq, prefix_nil. reflexivity.
Qed.

Definition block_tag : string := fence +:+ "json".

Ltac prefix_steps :=
  repeat (rewrite prefix_cons;
          match goal with
          | |- (if Ascii.eqb ?a ?b then _ else _) = false =>
              destruct (Ascii.eqb_spec a b) as [? | ?];
              [try discriminate; subst | reflexivity]
          end).

(** The opening fence with its tag does not straddle the end of a text that
    is followed by one. *)
Lemma block_tag_straddle q r :
  q <> "" -> String.prefix block_tag q = false ->
  String.prefix block_tag (q +:+ block_tag +:+ r) = false.
Proof.
  intros Hq Hp.
  destruct (le_lt_dec (String.length block_tag) (String.length q)) as [Hlen | Hlen].
  { by rewrite prefix_app_long. }
  clear Hp. change (String.length block_tag) with 7%nat in Hlen.
  change (block_tag +:+ r)
    with (String bquote (String bquote (String bquote
            (String "j" (String "s" (String "o" (String "n" r))))))).
  change block_tag
    with (String bquote (String bquote (String bquote
            (String "j" (String "s" (String "o" (String "n" ""))))))).
  destruct q as [| c1 [| c2 [| c3 [| c4 [| c5 [| c6 [| c7 q]]]]]]];
    try (by destruct Hq); try (simpl in Hlen; lia);
    repeat rewrite app_cons; rewrite ?app_nil_l; prefix_steps.
Qed.

Lemma skip_spaces_app t c0 u :
  is_js_space c0 = false ->
  skip_spaces (t +:+ String c0 u) = skip_spaces t +:+ String c0 u.
Proof.
  intros Hc. induction t as [| c t IH].
  - rewrite !app_nil_l. simpl. by rewrite Hc.
  - rewrite app_cons. simpl skip_spaces.
    destruct (is_js_space c); [exact IH | by rewrite app_cons].
Qed.

Lemma drop_app n q x :
  (n <= String.length q)%nat -> drop n (q +:+ x) = drop n q +:+ x.
Proof.
  revert q. induction n as [| n IH]; intros q Hlen; [reflexivity |].
  destruct q as [| c q]; [simpl in Hlen; lia |].
  rewrite app_cons. simpl. apply IH. simpl in Hlen. lia.
Qed.

Lemma codeblock_at_start s : block_start_at s = false -> codeblock_at s = None.
Proof.
  unfold block_start_at, codeblock_at.
  destruct (String.prefix (fence +:+ "json") s); [| reflexivity].
  destruct (skip_spaces (drop 7 s)) as [| c rest]; [reflexivity |].
  destruct (Ascii.eqb_spec c "[") as [-> | Hne]; [discriminate |].
  intros _. destruct c as [[] [] [] [] [] [] [] []]; try reflexivity.
  by destruct Hne.
Qed.

(** A place of [q] that does not begin like a fenced array does not begin
    like one either when an opening fence with its tag follows [q]. *)
Lemma block_start_at_before q r :
  q <> "" -> block_start_at q = false ->
  block_start_at (q +:+ block_tag +:+ r) = false.
Proof.
  intros Hq Hs.
  destruct (String.prefix block_tag (q +:+ block_tag +:+ r)) eqn:Hp;
    [| unfold block_start_at; fold block_tag; by rewrite Hp].
  destruct (le_lt_dec (String.length block_tag) (String.length q)) as [Hlen | Hlen].
  - assert (Hpq : String.prefix block_tag q = true)
      by (by rewrite <- (prefix_app_long block_tag q (block_tag +:+ r) Hlen)).
    unfold block_start_at in Hs. fold block_tag in Hs.
    rewrite Hpq, andb_true_l in Hs.
    unfold block_start_at. fold block_tag. rewrite Hp, andb_true_l.
    rewrite (drop_app 7 q _ Hlen).
    change (block_tag +:+ r)
      with (String bquote (String bquote (String bquote
              (String "j" (String "s" (String "o" (String "n" r))))))).
    rewrite (skip_spaces_app (drop 7 q) bquote _ eq_refl).
    destruct (skip_spaces (drop 7 q)) as [| c rest].
    + by rewrite app_nil_l.
    + rewrite app_cons. exact Hs.
  - destruct (String.prefix block_tag q) eqn:Hpq.
    + exfalso. clear -Hpq Hlen. change (String.length block_tag) with 7%nat in Hlen.
      destruct q as [| c1 [| c2 [| c3 [| c4 [| c5 [| c6 [| c7 q]]]]]]];
        try (simpl in Hlen; lia);
        change block_tag
          with (String bquote (String bquote (String bquote
                  (String "j" (String "s" (String "o" (String "n" ""))))))) in Hpq;
        repeat (rewrite prefix_cons in Hpq;
                match type of Hpq with
                | (if ?b then _ else _) = true => destruct b; [| discriminate Hpq]
                end);
        discriminate Hpq.
    + by rewrite (block_tag_straddle q r Hq Hpq) in Hp.
Qed.

End FencedArrayFacts.
Section FencedArrayAssembly.
Import Str.

Lemma no_char_app c0 s t :
  no_char c0 (s +:+ t) = no_char c0 s && no_char c0 t.
Proof.
  unfold no_char. induction s as [| c s IH]; [reflexivity |].
  rewrite app_cons. simpl. rewrite IH. by rewrite andb_assoc.
Qed.

Lemma all_space_no_char c0 ws :
  is_js_space c0 = false -> all_space ws = true -> no_char c0 ws = true.
Proof.
  intros Hc0. unfold all_space, no_char.
  induction ws as [| c ws IH]; [reflexivity |].
  intros Hs. apply forallb_chars_cons in Hs as [Hc Hs].
  simpl. rewrite (IH Hs), andb_true_r.
  apply negb_true_iff. destruct (Ascii.eqb_spec c c0) as [-> | Hne]; [| reflexivity].
  congruence.
Qed.

Lemma white_gaps_spec sp :
  white_gaps sp = true ->
  all_space (gap0 sp) = true /\ all_space (gap1 sp) = true
  /\ all_space (gap2 sp) = true /\ all_space (gap3 sp) = true
  /\ all_space (gap4 sp) = true /\ all_space (gap5 sp) = true.
Proof.
  unfold white_gaps. intros Hw.
  repeat (apply andb_prop in Hw as [Hw ?]). by repeat split.
Qed.

(** The text between the brackets of [spaced_array]. *)
Definition spaced_inner (sp : Spacing) (a b c : string) : string :=
  gap0 sp +:+ String dq (a +:+ String dq (gap1 sp +:+
    String "," (gap2 sp +:+ String dq (b +:+ String dq (gap3 sp +:+
    String "," (gap4 sp +:+ String dq (c +:+ String dq (gap5 sp)))))))).

Lemma spaced_inner_app sp a b c tail :
  spaced_inner sp a b c +:+ tail
  = gap0 sp +:+ String dq (a +:+ String dq (gap1 sp +:+
      String "," (gap2 sp +:+ String dq (b +:+ String dq (gap3 sp +:+
      String "," (gap4 sp +:+ String dq (c +:+ String dq (gap5 sp +:+ tail)))))))).
Proof.
  unfold spaced_inner.
  repeat (rewrite app_cons || rewrite app_assoc_str). reflexivity.
Qed.

Lemma spaced_array_inner sp a b c :
  spaced_array sp a b c = String "[" (spaced_inner sp a b c +:+ "]").
Proof. unfold spaced_array. by rewrite spaced_inner_app. Qed.

Lemma spaced_array_app sp a b c tail :
  spaced_array sp a b c +:+ tail
  = String "[" (spaced_inner sp a b c +:+ String "]" tail).
Proof.
  rewrite spaced_array_inner, app_cons, app_assoc_str, app_cons, app_nil_l.
  reflexivity.
Qed.

(** Without white space the array text is the compact one. *)
Lemma spaced_array_no_gaps a b c :
  spaced_array no_gaps a b c = array_text a b c.
Proof.
  unfold spaced_array, array_text, no_gaps. simpl gap0. simpl gap1. simpl gap2.
  simpl gap3. simpl gap4. simpl gap5. by rewrite !app_nil_l.
Qed.

Lemma prefix_fence_json r :
  String.prefix (fence +:+ "json") (fence +:+ "json" +:+ r) = true.
Proof.
  change (fence +:+ "json" +:+ r)
    with (String bquote (String bquote (String bquote
            (String "j" (String "s" (String "o" (String "n" r))))))).
  change (fence +:+ "json")
    with (String bquote (String bquote (String bquote "json"))).
  rewrite !prefix_cons_eq. by destruct r.
Qed.

(** The search for the block passes over text no place of which begins
    like a fenced array. *)
Lemma match_codeblock_before pre r :
  block_start_free pre = true ->
  match_codeblock (pre +:+ block_tag +:+ r) = match_codeblock (block_tag +:+ r).
Proof.
  induction pre as [| c p IH]; [reflexivity |].
  intros Hn.
  change (block_start_free (String c p))
    with (negb (block_start_at (String c p)) && block_start_free p) in Hn.
  apply andb_prop in Hn as [Hp Hn]. apply negb_true_iff in Hp.
  assert (Hat : codeblock_at (String c p +:+ block_tag +:+ r) = None).
  { apply codeblock_at_start. by apply block_start_at_before. }
  rewrite <- (IH Hn). revert Hat. rewrite app_cons. intros Hat.
  change (match_codeblock (String c (p +:+ block_tag +:+ r)))
    with (match codeblock_at (String c (p +:+ block_tag +:+ r)) with
          | Some g => Some g
          | None => match_codeblock (p +:+ block_tag +:+ r)
          end).
  by rewrite Hat.
Qed.

(** The lazy tail of the pattern runs through the whole array text. *)
Lemma lazy_to_close_inner sp a b c ws post :
  white_gaps sp = true -> all_space ws = true ->
  block_end_free a = true -> block_end_free b = true -> block_end_free c = true ->
  lazy_to_close (spaced_inner sp a b c +:+ String "]" (ws +:+ fence +:+ post))
  = Some (spaced_inner sp a b c +:+ "]").
Proof.
  intros Hw Hws Ha Hb Hc.
  destruct (white_gaps_spec sp Hw) as (H0 & H1 & H2 & H3 & H4 & H5).
  rewrite !spaced_inner_app.
  rewrite (lazy_to_close_skip (gap0 sp)) by (by apply all_space_no_char).
  rewrite (lazy_to_close_char dq) by reflexivity.
  rewrite (lazy_to_close_string a dq _ Ha eq_refl eq_refl).
  rewrite (lazy_to_close_char dq) by reflexivity.
  rewrite (lazy_to_close_skip (gap1 sp)) by (by apply all_space_no_char).
  rewrite (lazy_to_close_char ",") by reflexivity.
  rewrite (lazy_to_close_skip (gap2 sp)) by (by apply all_space_no_char).
  rewrite (lazy_to_close_char dq) by reflexivity.
  rewrite (lazy_to_close_string b dq _ Hb eq_refl eq_refl).
  rewrite (lazy_to_close_char dq) by reflexivity.
  rewrite (lazy_to_close_skip (gap3 sp)) by (by apply all_space_no_char).
  rewrite (lazy_to_close_char ",") by reflexivity.
  rewrite (lazy_to_close_skip (gap4 sp)) by (by apply all_space_no_char).
  rewrite (lazy_to_close_char dq) by reflexivity.
  rewrite (lazy_to_close_string c dq _ Hc eq_refl eq_refl).
  rewrite (lazy_to_close_char dq) by reflexivity.
  rewrite (lazy_to_close_skip (gap5 sp)) by (by apply all_space_no_char).
  rewrite (lazy_to_close_bracket ws post Hws).
  reflexivity.
Qed.

Lemma match_codeblock_fenced pre ws1 sp a b c ws2 post :
  block_start_free pre = true ->
  all_space ws1 = true -> all_space ws2 = true -> white_gaps sp = true ->
  block_end_free a = true -> block_end_free b = true -> block_end_free c = true ->
  match_codeblock (fenced_payload pre ws1 (spaced_array sp a b c) ws2 post)
  = Some (spaced_array sp a b c).
Proof.
  intros Hpre Hws1 Hws2 Hw Ha Hb Hc. unfold fenced_payload.
  set (tail := ws2 +:+ fence +:+ post).
  set (r := ws1 +:+ spaced_array sp a b c +:+ tail).
  change (pre +:+ fence +:+ "json" +:+ r) with (pre +:+ block_tag +:+ r).
  rewrite (match_codeblock_before pre r Hpre).
  assert (Hat : codeblock_at (fence +:+ "json" +:+ r) = Some (spaced_array sp a b c)).
  { unfold codeblock_at. rewrite prefix_fence_json.
    change (drop 7 (fence +:+ "json" +:+ r)) with r. unfold r.
    rewrite spaced_array_app.
    rewrite (skip_spaces_all ws1 "[" _ Hws1 eq_refl).
    unfold tail. rewrite (lazy_to_close_inner sp a b c ws2 post Hw Hws2 Ha Hb Hc).
    simpl option_map. by rewrite spaced_array_inner. }
  change (block_tag +:+ r)
    with (String bquote (String bquote (String bquote
            (String "j" (String "s" (String "o" (String "n" r))))))).
  change (fence +:+ "json" +:+ r)
    with (String bquote (String bquote (String bquote
            (String "j" (String "s" (String "o" (String "n" r))))))) in Hat.
  simpl match_codeblock. by rewrite Hat.
Qed.

Lemma match_quoted_fenced pre ws1 sp a b c ws2 post :
  no_char dq pre = true -> all_space ws1 = true -> white_gaps sp = true ->
  no_char dq a = true -> no_char dq b = true -> no_char dq c = true ->
  one_line a = true -> one_line b = true -> one_line c = true ->
  exists more,
    match_quoted (fenced_payload pre ws1 (spaced_array sp a b c) ws2 post)
    = Some (String dq (a +:+ String dq "") :: String dq (b +:+ String dq "")
            :: String dq (c +:+ String dq "") :: more).
Proof.
  intros Hpre Hws1 Hw Ha Hb Hc Hla Hlb Hlc.
  destruct (white_gaps_spec sp Hw) as (H0 & H1 & H2 & H3 & H4 & H5).
  unfold match_quoted, fenced_payload.
  rewrite (quoted_go_skip pre _ Hpre).
  rewrite (quoted_go_skip fence _ eq_refl).
  rewrite (quoted_go_skip "json" _ eq_refl).
  rewrite (quoted_go_skip ws1 _ (all_space_no_char dq ws1 eq_refl Hws1)).
  rewrite spaced_array_app, spaced_inner_app.
  change (quoted_go None (String "[" ?r)) with (quoted_go None r).
  rewrite (quoted_go_skip (gap0 sp) _ (all_space_no_char dq _ eq_refl H0)).
  rewrite (quoted_go_open a _ Ha Hla).
  rewrite (quoted_go_skip (gap1 sp) _ (all_space_no_char dq _ eq_refl H1)).
  change (quoted_go None (String "," ?r)) with (quoted_go None r).
  rewrite (quoted_go_skip (gap2 sp) _ (all_space_no_char dq _ eq_refl H2)).
  rewrite (quoted_go_open b _ Hb Hlb).
  rewrite (quoted_go_skip (gap3 sp) _ (all_space_no_char dq _ eq_refl H3)).
  change (quoted_go None (String "," ?r)) with (quoted_go None r).
  rewrite (quoted_go_skip (gap4 sp) _ (all_space_no_char dq _ eq_refl H4)).
  rewrite (quoted_go_open c _ Hc Hlc).
  by eexists.
Qed.

Lemma match_brackets_skip p x :
  no_char "[" p = true -> match_brackets (p +:+ x) = match_brackets x.
Proof.
  induction p as [| c p IH]; [reflexivity |].
  intros Hn. apply no_char_cons in Hn as [Hc Hn].
  rewrite app_cons. simpl. rewrite Hc. by apply IH.
Qed.

Lemma upto_last_close_none tail :
  no_char "]" tail = true -> upto_last_close tail = None.
Proof.
  induction tail as [| c tail IH]; [reflexivity |].
  intros Hn. apply no_char_cons in Hn as [Hc Hn].
  simpl. by rewrite (IH Hn), Hc.
Qed.

Lemma upto_last_close_end t tail :
  no_char "]" tail = true ->
  upto_last_close (t +:+ String "]" tail) = Some (t +:+ "]").
Proof.
  intros Hn. induction t as [| c t IH].
  - rewrite !app_nil_l. simpl. by rewrite (upto_last_close_none tail Hn).
  - rewrite !app_cons. simpl. by rewrite IH.
Qed.

Lemma match_brackets_fenced pre ws1 body ws2 post :
  no_char "[" pre = true -> all_space ws1 = true -> all_space ws2 = true ->
  no_char "]" post = true ->
  match_brackets (fenced_payload pre ws1 (String "[" (body +:+ "]")) ws2 post)
  = Some (String "[" (body +:+ "]")).
Proof.
  intros Hpre Hws1 Hws2 Hpost. unfold fenced_payload.
  rewrite (match_brackets_skip pre _ Hpre).
  rewrite (match_brackets_skip fence _ eq_refl).
  rewrite (match_brackets_skip "json" _ eq_refl).
  rewrite (match_brackets_skip ws1 _ (all_space_no_char "[" ws1 eq_refl Hws1)).
  rewrite app_cons, app_assoc_str, app_cons, app_nil_l.
  change (match_brackets (String "[" ?r))
    with (option_map (String "[") (upto_last_close r)).
  rewrite upto_last_close_end; [reflexivity |].
  rewrite no_char_app, (all_space_no_char "]" ws2 eq_refl Hws2).
  rewrite no_char_app, Hpost. reflexivity.
Qed.

End FencedArrayAssembly.

(** ** The round trip of a fenced array *)

Section RoundTripFacts.
Context `{Provider} `{JsonParser}.
Import Str.

Variables pre ws1 a b c ws2 post : string.
Variable sp : Spacing.

Let payload : string := fenced_payload pre ws1 (spaced_array sp a b c) ws2 post.
Let choices : JsVal := str_list [a; b; c].

Hypothesis Hws1 : all_space ws1 = true.
Hypothesis Hws2 : all_space ws2 = true.
Hypothesis Hgaps : white_gaps sp = true.

Lemma payload_truthy : truthy (JStr payload) = true.
Proof. unfold payload, fenced_payload. by destruct pre. Qed.

Section CodeBlock.
Hypothesis parse_array : JSON_parse (spaced_array sp a b c) = Normal choices.
Hypothesis Hpre : block_start_free pre = true.
Hypothesis Ha : block_end_free a = true.
Hypothesis Hb : block_end_free b = true.
Hypothesis Hc : block_end_free c = true.

Lemma choices_in_codeblock_payload :
  CopyIndex.choices_in_codeblock payload = Normal (Some choices).
Proof.
  unfold CopyIndex.choices_in_codeblock, payload.
  rewrite match_codeblock_fenced by assumption.
  change (truthy (JStr (spaced_array sp a b c))) with true. cbv iota.
  rewrite parse_array. reflexivity.
Qed.

Lemma copy_extractChoices_data_payload :
  CopyIndex.extractChoices (JObj [("data", JStr payload)]) = choices.
Proof.
  unfold CopyIndex.extractChoices, CopyIndex.extractChoices_try.
  simpl truthy. simpl typeof. simpl andb. cbv iota. simpl Get.
  change (mbind ?k (Normal (JStr payload))) with (k (JStr payload)). cbv beta.
  rewrite payload_truthy.
  change (mbind ?k (Normal true)) with (k true). cbv beta iota.
  change (mbind ?k (Normal (JStr payload))) with (k (JStr payload)). cbv beta iota.
  rewrite choices_in_codeblock_payload. reflexivity.
Qed.

Lemma copy_extractChoices_output_payload :
  CopyIndex.extractChoices (JObj [("data", JObj [("output", JStr payload)])])
  = choices.
Proof.
  unfold CopyIndex.extractChoices, CopyIndex.extractChoices_try.
  simpl truthy. simpl typeof. simpl andb. cbv iota. simpl Get.
  unfold_bind. simpl truthy. cbv iota. simpl typeof. simpl String.eqb. cbv iota.
  change (Get (JObj [("output", JStr payload)]) "output") with (Normal (JStr payload)).
  cbv iota. rewrite payload_truthy. cbv iota.
  rewrite choices_in_codeblock_payload. reflexivity.
Qed.

End CodeBlock.

Section QuotedSubstrings.
Hypothesis Hpre : no_char dq pre = true.
Hypothesis Ha : no_char dq a = true.
Hypothesis Hb : no_char dq b = true.
Hypothesis Hc : no_char dq c = true.
Hypothesis Hla : one_line a = true.
Hypothesis Hlb : one_line b = true.
Hypothesis Hlc : one_line c = true.

Lemma main_extractChoices_output_payload :
  MainIndex.extractChoices (JObj [("data", JObj [("output", JStr payload)])])
  = choices.
Proof.
  destruct (match_quoted_fenced pre ws1 sp a b c ws2 post Hpre Hws1 Hgaps
              Ha Hb Hc Hla Hlb Hlc) as (more & Hmatch).
  fold payload in Hmatch.
  unfold MainIndex.extractChoices, MainIndex.extractChoices_try.
  assert (Hlog : exists preview,
    MainIndex.log_preview (JObj [("data", JObj [("output", JStr payload)])])
    = Normal preview) by (by eexists).
  destruct Hlog as (preview & ->).
  change (mbind ?k (Normal preview)) with (k preview). cbv beta iota.
  simpl truthy. simpl typeof. simpl negb. simpl orb. cbv iota. simpl Get.
  unfold_bind. simpl truthy. cbv iota.
  change (Get (JObj [("output", JStr payload)]) "output") with (Normal (JStr payload)).
  cbv iota. rewrite payload_truthy. cbv iota.
  simpl call_match_quoted. rewrite Hmatch. cbv iota.
  simpl map. rewrite !remove_quotes_quoted by assumption.
  reflexivity.
Qed.

End QuotedSubstrings.

Section Brackets.
Hypothesis parse_array : JSON_parse (spaced_array sp a b c) = Normal choices.
Hypothesis Hpre : no_char "[" pre = true.
Hypothesis Hpost : no_char "]" post = true.

Lemma copy_choicesOfResult_payload :
  CopyGame.choicesOfResult (JObj [("data", JStr payload)]) = Normal choices.
Proof.
  unfold CopyGame.choicesOfResult.
  simpl truthy. cbv iota. simpl Get.
  unfold_bind. rewrite payload_truthy. cbv iota.
  unfold CopyGame.choicesFromJson. unfold_bind. fold payload.
  unfold payload at 1. rewrite spaced_array_inner.
  rewrite match_brackets_fenced by assumption.
  rewrite <- spaced_array_inner, parse_array. reflexivity.
Qed.

Lemma copy_generateChoices_payload text w w' :
  fal_subscribe "fal-ai/any-llm"
    (JObj [("prompt", JStr (CopyGame.choicePrompt text))]) w
  = (Normal (JObj [("data", JStr payload)]), w') ->
  CopyGame.generateChoices (JStr text) w = (Normal choices, w').
Proof.
  intros Hsub. unfold CopyGame.generateChoices, try_catchM, subscribe.
  unfold mbind, M_bind. rewrite Hsub. unfold lift.
  rewrite copy_choicesOfResult_payload. reflexivity.
Qed.

End Brackets.

End RoundTripFacts.



(** The layout of the witness: every string on a line of its own, indented
    by two spaces. *)
Definition one_per_line : Str.Spacing :=
  {| Str.gap0 := String Str.nl "  "; Str.gap1 := "";
     Str.gap2 := String Str.nl "  "; Str.gap3 := "";
     Str.gap4 := String Str.nl "  "; Str.gap5 := String Str.nl "" |}.


(** * Further properties of the engines and the servers *)

(** ** History and current scene under every outcome *)

Lemma bind_keeps_any {G W A B} (m : M (G * W) A) (k : A -> M (G * W) B) g w r s' :
  keeps fst m ->
  (m ≫= k) (g, w) = (r, s') ->
  (exists e, r = Throw e /\ fst s' = g)
  \/ exists a w1, m (g, w) = (Normal a, (g, w1)) /\ k a (g, w1) = (r, s').
Proof.
  intros Hm. unfold mbind, M_bind.
  destruct (m (g, w)) as [[a | e] [g1 w1]] eqn:Hmg;
    pose proof (Hm _ _ _ Hmg) as Hg; simpl in Hg; subst g1.
  - intros Hk. right. by exists a, w1.
  - intros [= <- <-]. left. by exists e.
Qed.

(** The step [pushHistory copy] of the main [makeChoice]. *)
Lemma bind_normal_inv' `{Provider} {B} copy (k : unit -> M (MainGame.GameState * World) B)
    g w r s' :
  (MainGame.pushHistory copy ≫= k) (g, w) = (r, s') ->
  exists g1,
    g1 = {| MainGame.currentScene := MainGame.currentScene g;
            MainGame.history := MainGame.history g ++ [copy] |}
    /\ k tt (g1, w) = (r, s').
Proof. intros Hk. eexists. split; [reflexivity | exact Hk]. Qed.

Section OutcomeFacts.
Context `{Provider} `{JsonParser}.

(** What [continueWith] does to the engine: nothing when it throws, and the
    new scene installed when it returns; the history is never touched. *)
Lemma main_continueWith_outcome sel g w r g' w' :
  MainGame.continueWith sel (g, w) = (r, (g', w')) ->
  MainGame.history g' = MainGame.history g
  /\ (forall e, r = Throw e -> g' = g)
  /\ (forall scene, r = Normal scene -> MainGame.currentScene g' = scene).
Proof.
  unfold MainGame.continueWith. intros Hc.
  assert (Hthrow : forall e : JsVal, fst (g', w') = g ->
    MainGame.history g' = MainGame.history g
    /\ (forall e0, @Throw JsVal e = Throw e0 -> g' = g)
    /\ (forall scene, @Throw JsVal e = Normal scene -> MainGame.currentScene g' = scene)).
  { intros e Hg. simpl in Hg. subst g'. repeat split; auto; discriminate. }
  apply bind_keeps_any in Hc; [| keeps_tac].
  destruct Hc as [(e & -> & Hg) | (scene0 & w0 & _ & Hc)]; [by apply Hthrow |].
  apply bind_keeps_any in Hc; [| keeps_tac].
  destruct Hc as [(e & -> & Hg) | (text & w1 & _ & Hc)]; [by apply Hthrow |].
  apply bind_keeps_any in Hc; [| keeps_tac].
  destruct Hc as [(e & -> & Hg) | (context & w2 & _ & Hc)]; [by apply Hthrow |].
  apply bind_keeps_any in Hc; [| apply generateStoryText_keeps].
  destruct Hc as [(e & -> & Hg) | (textResult & w3 & _ & Hc)]; [by apply Hthrow |].
  apply bind_keeps_any in Hc; [| keeps_tac].
  destruct Hc as [(e & -> & Hg) | (output & w4 & _ & Hc)]; [by apply Hthrow |].
  apply bind_keeps_any in Hc; [| keeps_tac].
  destruct Hc as [(e & -> & Hg) | (imagePrompt & w5 & _ & Hc)]; [by apply Hthrow |].
  apply bind_keeps_any in Hc; [| apply generateStoryImage_keeps].
  destruct Hc as [(e & -> & Hg) | (imageResult & w6 & _ & Hc)]; [by apply Hthrow |].
  apply bind_keeps_any in Hc; [| keeps_tac].
  destruct Hc as [(e & -> & Hg) | (output' & w7 & _ & Hc)]; [by apply Hthrow |].
  apply bind_keeps_any in Hc; [| apply generateChoices_keeps].
  destruct Hc as [(e & -> & Hg) | (choicesResult & w8 & _ & Hc)]; [by apply Hthrow |].
  injection Hc as <- <- <-. simpl.
  repeat split; [discriminate | by intros scene [= <-]].
Qed.

Lemma main_makeChoice_outcome idx g w r g' w' :
  MainGame.makeChoice idx (g, w) = (r, (g', w')) ->
  (MainGame.history g' = MainGame.history g
   \/ exists copy, spread (MainGame.currentScene g) = Normal copy
        /\ MainGame.history g' = MainGame.history g ++ [copy])
  /\ (forall e, r = Throw e -> MainGame.currentScene g' = MainGame.currentScene g)
  /\ (forall scene, r = Normal scene -> MainGame.currentScene g' = scene).
Proof.
  unfold MainGame.makeChoice. intros Hm.
  assert (Hsame : forall e : JsVal, fst (g', w') = g ->
    (MainGame.history g' = MainGame.history g
     \/ exists copy, spread (MainGame.currentScene g) = Normal copy
          /\ MainGame.history g' = MainGame.history g ++ [copy])
    /\ (forall e0, @Throw JsVal e = Throw e0 ->
          MainGame.currentScene g' = MainGame.currentScene g)
    /\ (forall scene, @Throw JsVal e = Normal scene ->
          MainGame.currentScene g' = scene)).
  { intros e Hg. simpl in Hg. subst g'. repeat split; auto; discriminate. }
  apply bind_keeps_any in Hm; [| apply configure_keeps].
  destruct Hm as [(e & -> & Hg) | ([] & w0 & _ & Hm)]; [by apply Hsame |].
  apply bind_keeps_any in Hm; [| keeps_tac].
  destruct Hm as [(e & -> & Hg) | (scene0 & w1 & Hs0 & Hm)]; [by apply Hsame |].
  injection Hs0 as <- <-.
  apply bind_keeps_any in Hm; [| keeps_tac].
  destruct Hm as [(e & -> & Hg) | (copy & w1 & Hcopy & Hm)]; [by apply Hsame |].
  injection Hcopy as Hcopy <-.
  apply bind_normal_inv' in Hm.
  destruct Hm as (g1 & Hg1 & Hm).
  apply bind_keeps_any in Hm; [| keeps_tac].
  destruct Hm as [(e & -> & Hg) | (scene1 & w2 & _ & Hm)].
  { simpl in Hg. subst g' g1. simpl.
    split; [right; by exists copy | split; [auto | discriminate]]. }
  apply bind_keeps_any in Hm; [| keeps_tac].
  destruct Hm as [(e & -> & Hg) | (sel & w3 & _ & Hm)].
  { simpl in Hg. subst g' g1. simpl.
    split; [right; by exists copy | split; [auto | discriminate]]. }
  apply main_continueWith_outcome in Hm as (Hh & Ht & Hn). subst g1.
  split; [right; exists copy; by rewrite Hh |].
  split; [| exact Hn].
  intros e He. by rewrite (Ht e He).
Qed.

End OutcomeFacts.

Lemma modify_bind {S B} (f : S -> S) (k : unit -> M S B) s :
  (modify f ≫= k) s = k tt (f s).
Proof. reflexivity. Qed.

Section CopyOutcomeFacts.
Context `{Provider} `{JsonParser}.
Import CopyGame.

Lemma copy_makeChoice_outcome idx g w r g' w' :
  makeChoice idx (g, w) = (r, (g', w')) ->
  (history g' = history g
   \/ exists copy, spread (currentScene g) = Normal copy
        /\ history g' = history g ++ [copy])
  /\ (forall e, r = Throw e -> currentScene g' = currentScene g)
  /\ (forall scene, r = Normal scene -> currentScene g' = scene).
Proof.
  unfold makeChoice. intros Hm.
  assert (Hsame : forall e : JsVal, fst (g', w') = g ->
    (history g' = history g
     \/ exists copy, spread (currentScene g) = Normal copy
          /\ history g' = history g ++ [copy])
    /\ (forall e0, @Throw JsVal e = Throw e0 -> currentScene g' = currentScene g)
    /\ (forall scene, @Throw JsVal e = Normal scene -> currentScene g' = scene)).
  { intros e Hg. simpl in Hg. subst g'. repeat split; auto; discriminate. }
  apply bind_keeps_any in Hm; [| keeps_tac].
  destruct Hm as [(e & -> & Hg) | (scene0 & w1 & Hs0 & Hm)]; [by apply Hsame |].
  injection Hs0 as <- <-.
  apply bind_keeps_any in Hm; [| keeps_tac].
  destruct Hm as [(e & -> & Hg) | (copy & w1 & Hcopy & Hm)]; [by apply Hsame |].
  injection Hcopy as Hcopy <-.
  unfold pushHistory in Hm. rewrite modify_bind in Hm.
  fold (pushed g copy) in Hm.
  assert (Hpushed : forall e : JsVal, fst (g', w') = pushed g copy ->
    (history g' = history g
     \/ exists copy, spread (currentScene g) = Normal copy
          /\ history g' = history g ++ [copy])
    /\ (forall e0, @Throw JsVal e = Throw e0 -> currentScene g' = currentScene g)
    /\ (forall scene, @Throw JsVal e = Normal scene -> currentScene g' = scene)).
  { intros e Hg. simpl in Hg. subst g'. simpl.
    split; [right; by exists copy | split; [auto | discriminate]]. }
  apply bind_keeps_any in Hm; [| keeps_tac].
  destruct Hm as [(e & -> & Hg) | (scene1 & w2 & _ & Hm)]; [by apply Hpushed |].
  apply bind_keeps_any in Hm; [| keeps_tac].
  destruct Hm as [(e & -> & Hg) | (sceneChoices & w3 & _ & Hm)]; [by apply Hpushed |].
  apply bind_keeps_any in Hm; [| keeps_tac].
  destruct Hm as [(e & -> & Hg) | (selectedChoice & w4 & _ & Hm)]; [by apply Hpushed |].
  destruct (negb (truthy selectedChoice)).
  { injection Hm as <- <- <-. by apply (Hpushed (Error "Invalid choice index")). }
  apply bind_keeps_any in Hm; [| keeps_tac].
  destruct Hm as [(e & -> & Hg) | (ctx & w5 & _ & Hm)]; [by apply Hpushed |].
  apply bind_keeps_any in Hm; [| keeps_tac].
  destruct Hm as [(e & -> & Hg) | (textResult & w6 & _ & Hm)]; [by apply Hpushed |].
  apply bind_keeps_any in Hm; [| keeps_tac].
  destruct Hm as [(e & -> & Hg) | (success & w7 & _ & Hm)]; [by apply Hpushed |].
  apply bind_keeps_any in Hm; [| keeps_tac].
  destruct Hm as [(e & -> & Hg) | (text & w8 & _ & Hm)]; [by apply Hpushed |].
  apply bind_keeps_any in Hm; [| keeps_tac].
  destruct Hm as [(e & -> & Hg) | (descr & w9 & _ & Hm)]; [by apply Hpushed |].
  apply bind_keeps_any in Hm; [| keeps_tac].
  destruct Hm as [(e & -> & Hg) | (imageResult & w10 & _ & Hm)]; [by apply Hpushed |].
  apply bind_keeps_any in Hm; [| keeps_tac].
  destruct Hm as [(e & -> & Hg) | (text' & w11 & _ & Hm)]; [by apply Hpushed |].
  apply bind_keeps_any in Hm; [| keeps_tac].
  destruct Hm as [(e & -> & Hg) | (newChoices & w12 & _ & Hm)]; [by apply Hpushed |].
  apply bind_keeps_any in Hm; [| keeps_tac].
  destruct Hm as [(e & -> & Hg) | (text'' & w13 & _ & Hm)]; [by apply Hpushed |].
  apply bind_keeps_any in Hm; [| keeps_tac].
  destruct Hm as [(e & -> & Hg) | (image & w14 & _ & Hm)]; [by apply Hpushed |].
  injection Hm as <- <- <-. simpl.
  split; [right; by exists copy |].
  split; [discriminate | by intros scene [= <-]].
Qed.

(** [startNewGame] never touches the history; it changes the engine only by
    installing the scene it returns. *)
Lemma copy_startNewGame_outcome g w r g' w' :
  startNewGame (g, w) = (r, (g', w')) ->
  history g' = history g
  /\ (forall e, r = Throw e -> g' = g)
  /\ (forall scene, r = Normal scene ->
        currentScene g' = scene
        /\ Get scene "choices" = Normal (str_list initialChoices)).
Proof.
  unfold startNewGame. intros Hs.
  assert (Hthrow : forall e : JsVal, fst (g', w') = g ->
    history g' = history g
    /\ (forall e0, @Throw JsVal e = Throw e0 -> g' = g)
    /\ (forall scene, @Throw JsVal e = Normal scene ->
          currentScene g' = scene
          /\ Get scene "choices" = Normal (str_list initialChoices))).
  { intros e Hg. simpl in Hg. subst g'. repeat split; auto; discriminate. }
  apply bind_keeps_any in Hs; [| keeps_tac].
  destruct Hs as [(e & -> & Hg) | (textResult & w1 & _ & Hs)]; [by apply Hthrow |].
  apply bind_keeps_any in Hs; [| keeps_tac].
  destruct Hs as [(e & -> & Hg) | (imageResult & w2 & _ & Hs)]; [by apply Hthrow |].
  apply bind_keeps_any in Hs; [| keeps_tac].
  destruct Hs as [(e & -> & Hg) | (text & w3 & _ & Hs)]; [by apply Hthrow |].
  apply bind_keeps_any in Hs; [| keeps_tac].
  destruct Hs as [(e & -> & Hg) | (image & w4 & _ & Hs)]; [by apply Hthrow |].
  injection Hs as <- <- <-. simpl.
  split; [reflexivity |]. split; [discriminate |].
  intros scene [= <-]. by split.
Qed.

End CopyOutcomeFacts.

Section MainStartOutcome.
Context `{Provider}.
Import MainGame.

Lemma main_startNewGame_outcome g w r g' w' :
  startNewGame (g, w) = (r, (g', w')) ->
  history g' = history g
  /\ (forall e, r = Throw e -> g' = g)
  /\ (forall scene, r = Normal scene ->
        currentScene g' = scene
        /\ exists choices, Get scene "choices" = Normal choices
                           /\ nonempty_array choices).
Proof.
  unfold startNewGame. intros Hs.
  assert (Hthrow : forall e : JsVal, fst (g', w') = g ->
    history g' = history g
    /\ (forall e0, @Throw JsVal e = Throw e0 -> g' = g)
    /\ (forall scene, @Throw JsVal e = Normal scene ->
          currentScene g' = scene
          /\ exists choices, Get scene "choices" = Normal choices
                             /\ nonempty_array choices)).
  { intros e Hg. simpl in Hg. subst g'. repeat split; auto; discriminate. }
  apply bind_keeps_any in Hs; [| apply configure_keeps].
  destruct Hs as [(e & -> & Hg) | ([] & w0 & _ & Hs)]; [by apply Hthrow |].
  apply bind_keeps_any in Hs; [| apply generateStoryText_keeps].
  destruct Hs as [(e & -> & Hg) | (textResult & w1 & _ & Hs)]; [by apply Hthrow |].
  apply bind_keeps_any in Hs; [| apply generateStoryImage_keeps].
  destruct Hs as [(e & -> & Hg) | (imageResult & w2 & _ & Hs)]; [by apply Hthrow |].
  apply bind_keeps_any in Hs; [| keeps_tac].
  destruct Hs as [(e & -> & Hg) | (output & w3 & _ & Hs)]; [by apply Hthrow |].
  apply bind_keeps_any in Hs; [| apply generateChoices_keeps].
  destruct Hs as [(e & -> & Hg) | (choicesResult & w4 & Hcho & Hs)]; [by apply Hthrow |].
  injection Hs as <- <- <-. simpl.
  split; [reflexivity |]. split; [discriminate |].
  intros scene [= <-]. split; [reflexivity |].
  exists choicesResult. split; [reflexivity |].
  by eapply main_generateChoices_nonempty.
Qed.

End MainStartOutcome.

(** X1: whatever [makeChoice] does, it returns or it throws, the history it
    leaves is the history it found or that history with one entry appended,
    the spread copy of the scene that was current; and a call that throws
    leaves [currentScene] as it was.  Both variants. *)
Theorem makeChoice_history_any_outcome :
  (forall (P : Provider) idx g w r g' w',
     MainGame.makeChoice idx (g, w) = (r, (g', w')) ->
     (MainGame.history g' = MainGame.history g
      \/ exists copy, spread (MainGame.currentScene g) = Normal copy
           /\ MainGame.history g' = MainGame.history g ++ [copy])
     /\ (forall e, r = Throw e -> MainGame.currentScene g' = MainGame.currentScene g))
  /\
  (forall (P : Provider) (J : JsonParser) idx g w r g' w',
     CopyGame.makeChoice idx (g, w) = (r, (g', w')) ->
     (CopyGame.history g' = CopyGame.history g
      \/ exists copy, spread (CopyGame.currentScene g) = Normal copy
           /\ CopyGame.history g' = CopyGame.history g ++ [copy])
     /\ (forall e, r = Throw e -> CopyGame.currentScene g' = CopyGame.currentScene g)).
Proof.
  split.
  - intros P idx g w r g' w' Hm.
    apply main_makeChoice_outcome in Hm as (Hh & Ht & _). auto.
  - intros P J idx g w r g' w' Hm.
    apply copy_makeChoice_outcome in Hm as (Hh & Ht & _). auto.
Qed.

(** A text answer whose [output] is a number makes the main [makeChoice]
    throw at [substring], after the scene was pushed. *)
Lemma makeChoice_history_any_outcome_witness :
  exists e g' w',
    @MainGame.makeChoice Fixtures.scripted (Num 0)
      (Fixtures.mainStarted,
       [Normal (JObj [("data", JObj [("output", JNum (Num 5))])])])
    = (Throw e, (g', w'))
    /\ (MainGame.history g' = MainGame.history Fixtures.mainStarted
        \/ exists copy,
             spread (MainGame.currentScene Fixtures.mainStarted) = Normal copy
             /\ MainGame.history g' = MainGame.history Fixtures.mainStarted ++ [copy])
    /\ MainGame.history g' = [Fixtures.mainStartedScene]
    /\ MainGame.currentScene g' = MainGame.currentScene Fixtures.mainStarted.
Proof.
  eassert (Hrun : @MainGame.makeChoice Fixtures.scripted (Num 0)
                    (Fixtures.mainStarted,
                     [Normal (JObj [("data", JObj [("output", JNum (Num 5))])])])
                  = (Throw _, (_, _))) by (vm_compute; reflexivity).
  destruct (proj1 makeChoice_history_any_outcome Fixtures.scripted _ _ _ _ _ _ Hrun)
    as (Hh & Ht).
  eexists _, _, _. split; [exact Hrun |].
  split; [exact Hh |]. split; [reflexivity |].
  by apply (Ht _ eq_refl).
Defined.

(** X2: [startNewGame] never touches the history.  When it throws the engine
    is as it was; when it returns, the returned scene is the current one, and
    its choices are a non-empty array in the main variant and the three
    fixed opening choices in the copy variant.  So starting an engine again
    replaces the current scene and keeps the history. *)
Theorem startNewGame_any_outcome :
  (forall (P : Provider) g w r g' w',
     MainGame.startNewGame (g, w) = (r, (g', w')) ->
     MainGame.history g' = MainGame.history g
     /\ (forall e, r = Throw e -> g' = g)
     /\ (forall scene, r = Normal scene ->
           MainGame.currentScene g' = scene
           /\ exists x l, Get scene "choices" = Normal (JArr (x :: l))))
  /\
  (forall (P : Provider) g w r g' w',
     CopyGame.startNewGame (g, w) = (r, (g', w')) ->
     CopyGame.history g' = CopyGame.history g
     /\ (forall e, r = Throw e -> g' = g)
     /\ (forall scene, r = Normal scene ->
           CopyGame.currentScene g' = scene
           /\ Get scene "choices"
              = Normal (str_list ["Follow the faint glowing light in the distance";
                                  "Set up camp and wait until morning";
                                  "Climb a tree to get a better view"]))).
Proof.
  split.
  - intros P g w r g' w' Hs.
    apply main_startNewGame_outcome in Hs as (Hh & Ht & Hn).
    split; [exact Hh |]. split; [exact Ht |].
    intros scene Hr. destruct (Hn scene Hr) as (Hc & choices & Hg & x & l & ->).
    split; [exact Hc |]. by exists x, l.
  - intros P g w r g' w' Hs.
    by apply copy_startNewGame_outcome in Hs.
Qed.

(** A second start of the copy engine after one choice: the history entry
    stays, the scene is the opening one again. *)
Lemma startNewGame_any_outcome_witness :
  exists scene g' w',
    @CopyGame.startNewGame Fixtures.failing
      (pushed Fixtures.copyStarted Fixtures.copyStartedScene, tt)
    = (Normal scene, (g', w'))
    /\ CopyGame.history g' = [Fixtures.copyStartedScene]
    /\ CopyGame.currentScene g' = scene
    /\ Get scene "choices" = Normal (str_list CopyGame.initialChoices).
Proof.
  eassert (Hrun : @CopyGame.startNewGame Fixtures.failing
                    (pushed Fixtures.copyStarted Fixtures.copyStartedScene, tt)
                  = (Normal _, (_, _))) by (vm_compute; reflexivity).
  destruct (proj2 startNewGame_any_outcome Fixtures.failing _ _ _ _ _ Hrun)
    as (Hh & _ & Hn).
  destruct (Hn _ eq_refl) as (Hc & Hch).
  eexists _, _, _. split; [exact Hrun |]. split; [exact Hh |].
  split; [exact Hc | exact Hch].
Defined.

(** ** The main variant without its key *)

Definition key_error : JsVal := Error "FAL_KEY environment variable not set".

Section MissingKey.
Context `{Provider}.
Hypothesis no_key : truthy FAL_KEY = false.

Lemma configure_fails {S} (s : S) :
  MainGame.configureFalClient s = (Throw key_error, s).
Proof. unfold MainGame.configureFalClient. rewrite no_key. reflexivity. Qed.

Lemma newGameState_fails : MainGame.newGameState = Throw key_error.
Proof. unfold MainGame.newGameState. rewrite no_key. reflexivity. Qed.

Lemma startNewGame_fails st : MainGame.startNewGame st = (Throw key_error, st).
Proof.
  unfold MainGame.startNewGame. by rewrite (bind_throw _ _ _ _ _ (configure_fails st)).
Qed.

Lemma makeChoice_fails idx st : MainGame.makeChoice idx st = (Throw key_error, st).
Proof.
  unfold MainGame.makeChoice. by rewrite (bind_throw _ _ _ _ _ (configure_fails st)).
Qed.

Lemma main_start_without_key now st :
  MainServer.start now st
  = (Normal (status_json 500 (error_body "Failed to start game")), st).
Proof.
  unfold MainServer.start, try_catchM, lift. unfold mbind at 1, M_bind.
  rewrite newGameState_fails. reflexivity.
Qed.

Lemma main_choice_without_key key choiceIndex idx
    (sessions : gmap string MainGame.GameState) game w :
  sessions !! key = Some game ->
  parseInt10 choiceIndex = Normal idx ->
  MainServer.choice (JObj [("sessionId", JStr key); ("choiceIndex", choiceIndex)])
    (sessions, w)
  = (Normal (status_json 500 (error_body "Failed to process choice")), (sessions, w)).
Proof.
  intros Hfound Hidx.
  unfold MainServer.choice, try_catchM, the_sessions, gets, lift, on_session.
  unfold mbind, M_bind. simpl Get. cbv iota.
  change ((sessions, w).1) with sessions.
  change (sessions_get sessions (JStr key)) with (sessions !! key).
  rewrite Hfound, Hidx, makeChoice_fails.
  by rewrite (insert_id _ _ _ Hfound).
Qed.

End MissingKey.

(** X3: without [FAL_KEY] the main engine cannot be built, and every call of
    [startNewGame] or [makeChoice] throws
    [Error("FAL_KEY environment variable not set")] before anything else:
    the engine, its history and the service are untouched.  The server then
    answers [/api/game/start] with status 500 and stores no session, and
    answers a choice on a stored session with status 500, the session being
    as it was. *)
Theorem main_without_key (P : Provider) :
  truthy FAL_KEY = false ->
  MainGame.newGameState = Throw (Error "FAL_KEY environment variable not set")
  /\ (forall st, MainGame.startNewGame st
                 = (Throw (Error "FAL_KEY environment variable not set"), st))
  /\ (forall idx st, MainGame.makeChoice idx st
                     = (Throw (Error "FAL_KEY environment variable not set"), st))
  /\ (forall now st,
        MainServer.start now st
        = (Normal {| status := 500;
                     body := JObj [("error", JStr "Failed to start game")] |}, st))
  /\ (forall key choiceIndex idx (sessions : gmap string MainGame.GameState) game w,
        sessions !! key = Some game ->
        parseInt10 choiceIndex = Normal idx ->
        MainServer.choice
          (JObj [("sessionId", JStr key); ("choiceIndex", choiceIndex)]) (sessions, w)
        = (Normal {| status := 500;
                     body := JObj [("error", JStr "Failed to process choice")] |},
           (sessions, w))).
Proof.
  intros Hkey. split; [by apply newGameState_fails |].
  split; [by apply startNewGame_fails |].
  split; [by apply makeChoice_fails |].
  split; [by apply main_start_without_key |].
  intros. by eapply main_choice_without_key.
Qed.

Lemma main_without_key_witness :
  @MainGame.newGameState Fixtures.keyless
    = Throw (Error "FAL_KEY environment variable not set")
  /\ @MainServer.start Fixtures.keyless 1700000000000 (∅, tt)
     = (Normal {| status := 500;
                  body := JObj [("error", JStr "Failed to start game")] |}, (∅, tt)).
Proof.
  destruct (main_without_key Fixtures.keyless eq_refl) as (Hnew & _ & _ & Hstart & _).
  split; [exact Hnew | apply Hstart].
Defined.

(** ** A service that always fails *)

Definition placeholderText : string :=
  "The adventure continues... (Error generating story text)".

Lemma default_for_index z :
  nth_elem (map JStr MainGame.DEFAULT_CHOICES)
    (js_rem (Num z) (Num (Z.of_nat (length MainGame.DEFAULT_CHOICES))))
  = if 0 <=? z then JStr (default_action z)
    else if Z.rem z 3 =? 0 then JStr "Continue exploring" else JUndefined.
Proof.
  change (Z.of_nat (length MainGame.DEFAULT_CHOICES)) with 3.
  unfold js_rem. change (3 =? 0) with false. cbv iota.
  destruct (0 <=? z) eqn:Hz.
  - apply Z.leb_le in Hz. rewrite Z.rem_mod_nonneg by lia.
    unfold nth_elem, default_action.
    pose proof (Z.mod_pos_bound z 3 ltac:(lia)) as Hb.
    destruct (0 <=? z mod 3) eqn:Hle; [| lia].
    assert (z mod 3 = 0 \/ z mod 3 = 1 \/ z mod 3 = 2) as [-> | [-> | ->]] by lia;
      reflexivity.
  - apply Z.leb_gt in Hz.
    pose proof (Z.rem_nonpos z 3 ltac:(lia) ltac:(lia)) as Hr.
    unfold nth_elem. destruct (Z.rem z 3 =? 0) eqn:H0.
    + apply Z.eqb_eq in H0. rewrite H0. reflexivity.
    + apply Z.eqb_neq in H0. destruct (0 <=? Z.rem z 3) eqn:Hle; [lia | reflexivity].
Qed.

Lemma selectChoice_array scene l n :
  Get scene "choices" = Normal (JArr l) ->
  MainGame.selectChoice scene n
  = Normal (if truthy (nth_elem l n) then nth_elem l n
            else nth_elem (map JStr MainGame.DEFAULT_CHOICES)
                   (js_rem n (Num (Z.of_nat (length MainGame.DEFAULT_CHOICES))))).
Proof.
  intros Hch. unfold MainGame.selectChoice. rewrite Hch.
  change (mbind ?k (Normal (JArr l))) with (k (JArr l)). cbv beta.
  simpl Array_isArray. cbv iota. simpl GetIdx.
  change (mbind ?k (Normal (nth_elem l n))) with (k (nth_elem l n)). cbv beta.
  change (mbind ?k (Normal (truthy (nth_elem l n)))) with (k (truthy (nth_elem l n))).
  cbv beta. by destruct (truthy (nth_elem l n)).
Qed.

Section AlwaysFailing.
Context `{Provider} `{JsonParser}.

(** Every call is rejected with an error object. *)
Hypothesis always_fails :
  forall endpoint input w,
    exists fields w', fal_subscribe endpoint input w = (Throw (JObj fields), w').

Section Main.
Hypothesis key_set : truthy FAL_KEY = true.

Lemma generateStoryText_failing c u cs us g w :
  ToString c = Normal cs -> ToString u = Normal us ->
  exists message w',
    MainGame.generateStoryText c u (g, w)
    = (Normal (mainFallbackText message), (g, w')).
Proof.
  intros Hc Hu. unfold MainGame.generateStoryText.
  rewrite (bind_normal _ _ _ _ _ (configure_ok key_set _)).
  rewrite (lift_bind_normal _ _ _ _ Hc), (lift_bind_normal _ _ _ _ Hu).
  unfold try_catchM, on_world, subscribe.
  destruct (always_fails "fal-ai/any-llm"
              (JObj [("prompt", JStr (MainGame.storyPrompt cs us))]) w)
    as (fields & w1 & ->).
  by eexists _, _.
Qed.

Lemma generateStoryImage_failing d ds g w :
  ToString d = Normal ds ->
  exists message w',
    MainGame.generateStoryImage d (g, w)
    = (Normal (JObj [("images", JArr []); ("error", message)]), (g, w')).
Proof.
  intros Hd. unfold MainGame.generateStoryImage.
  rewrite (bind_normal _ _ _ _ _ (configure_ok key_set _)).
  rewrite (lift_bind_normal _ _ _ _ Hd).
  unfold try_catchM, on_world, subscribe. unfold mbind at 1, M_bind.
  destruct (always_fails "fal-ai/flux-pro"
              (JObj [("prompt", JStr (MainGame.imagePromptOf ds))]) w)
    as (fields & w1 & ->).
  by eexists _, _.
Qed.

Lemma generateChoices_failing t g w :
  exists w',
    MainGame.generateChoices (JStr t) (g, w)
    = (Normal (str_list MainGame.DEFAULT_CHOICES), (g, w')).
Proof.
  unfold MainGame.generateChoices.
  rewrite (bind_normal _ _ _ _ _ (configure_ok key_set _)).
  unfold try_catchM, on_world, subscribe. unfold mbind at 1, M_bind.
  destruct (always_fails "fal-ai/any-llm"
              (JObj [("prompt", JStr (MainGame.choicePrompt t))]) w)
    as (fields & w1 & ->).
  by eexists.
Qed.

Definition failedScene (m1 m2 : JsVal) : JsVal :=
  MainGame.sceneOf (mainFallbackText m1)
    (JObj [("images", JArr []); ("error", m2)])
    (str_list MainGame.DEFAULT_CHOICES).

Lemma main_startNewGame_failing g w :
  exists m1 m2 w',
    MainGame.startNewGame (g, w)
    = (Normal (failedScene m1 m2),
       ({| MainGame.currentScene := failedScene m1 m2;
           MainGame.history := MainGame.history g |}, w')).
Proof.
  unfold MainGame.startNewGame. unfold MainGame.Eng.
  rewrite (bind_normal _ _ _ _ _ (configure_ok key_set _)).
  destruct (generateStoryText_failing (JStr MainGame.initialContext) (JStr "Game start")
              _ _ g w eq_refl eq_refl) as (m1 & w1 & Hgen).
  rewrite (bind_normal _ _ _ _ _ Hgen).
  destruct (generateStoryImage_failing (JStr MainGame.initialContext) _ g w1 eq_refl)
    as (m2 & w2 & Himg).
  rewrite (bind_normal _ _ _ _ _ Himg).
  assert (Hout : MainGame.data_output (mainFallbackText m1)
                 = Normal (Some (JStr placeholderText))) by reflexivity.
  rewrite (lift_bind_normal _ _ _ _ Hout).
  destruct (generateChoices_failing placeholderText g w2) as (w3 & Hcho).
  simpl default. rewrite (bind_normal _ _ _ _ _ Hcho).
  by eexists m1, m2, w3.
Qed.

Lemma generateSpeech_failing t w :
  exists w', MainServer.generateSpeech (JStr t) w = (Normal JNull, w').
Proof.
  unfold MainServer.generateSpeech, try_catchM.
  unfold mbind, M_bind, lift, subscribe.
  change (call_substring (JStr t) 100) with (Normal (Str.take 100 t)).
  change (call_includes (JStr t) "[S1]") with (Normal (Str.includes "[S1]" t)).
  change (call_includes (JStr t) "[S2]") with (Normal (Str.includes "[S2]" t)).
  change (ToString (JStr t)) with (Normal t). cbv iota.
  destruct (Str.includes "[S1]" t); cbv iota.
  - simpl orb. cbv iota.
    destruct (always_fails "fal-ai/dia-tts" (JObj [("text", JStr t)]) w)
      as (fields & w1 & ->).
    by eexists.
  - destruct (Str.includes "[S2]" t); simpl orb; cbv iota.
    + destruct (always_fails "fal-ai/dia-tts" (JObj [("text", JStr t)]) w)
        as (fields & w1 & ->).
      by eexists.
    + destruct (always_fails "fal-ai/dia-tts"
                  (JObj [("text", JStr ("[S1] " +:+ t))]) w)
        as (fields & w1 & ->).
      by eexists.
Qed.

Lemma main_start_failing_service now (sessions : gmap string MainGame.GameState) w :
  exists game w',
    MainServer.start now (sessions, w)
    = (Normal (json (JObj [("sessionId", JStr (pretty now));
                           ("text", JStr placeholderText);
                           ("imageUrl", JNull); ("audioUrl", JNull);
                           ("choices", str_list MainGame.DEFAULT_CHOICES)])),
       (<[pretty now := game]> sessions, w'))
    /\ MainGame.history game = []
    /\ exists m1 m2, MainGame.currentScene game = failedScene m1 m2.
Proof.
  destruct (main_startNewGame_failing
              {| MainGame.currentScene := JNull; MainGame.history := [] |} w)
    as (m1 & m2 & w1 & Hstart).
  destruct (generateSpeech_failing placeholderText w1) as (w2 & Hspeech).
  eexists _, w2. split.
  2: shelve.
  unfold MainServer.start, try_catchM, lift, on_new_engine, sessions_set, modify,
    MainGame.newGameState.
  rewrite key_set. unfold mbind at 1, M_bind. cbv beta iota. simpl negb. cbv iota.
  unfold mbind at 1, M_bind. cbv beta iota.
  rewrite Hstart. cbv beta iota.
  unfold mbind at 1, M_bind. cbv beta iota.
  unfold MainServer.respond, lift, on_world.
  unfold mbind, M_bind. simpl Get.
  assert (Hout : MainGame.data_output (mainFallbackText m1)
                 = Normal (Some (JStr placeholderText))) by reflexivity.
  cbv beta iota. rewrite Hout. cbv beta iota. simpl default. rewrite Hspeech.
  assert (Himg : imageUrlOf false (failedScene m1 m2) = Normal JNull) by reflexivity.
  cbv beta iota. rewrite Himg. reflexivity.
  Unshelve. split; [reflexivity | by eexists _, _].
Qed.

Lemma respond_failedScene sid m1 m2 (sessions : gmap string MainGame.GameState) w :
  exists w',
    MainServer.respond sid (failedScene m1 m2) (sessions, w)
    = (Normal (json (JObj [("sessionId", sid);
                           ("text", JStr placeholderText);
                           ("imageUrl", JNull); ("audioUrl", JNull);
                           ("choices", str_list MainGame.DEFAULT_CHOICES)])),
       (sessions, w')).
Proof.
  destruct (generateSpeech_failing placeholderText w) as (w2 & Hspeech).
  exists w2.
  unfold MainServer.respond, lift, on_world.
  unfold mbind, M_bind. simpl Get.
  assert (Hout : MainGame.data_output (mainFallbackText m1)
                 = Normal (Some (JStr placeholderText))) by reflexivity.
  cbv beta iota. rewrite Hout. cbv beta iota. simpl default. rewrite Hspeech.
  assert (Himg : imageUrlOf false (failedScene m1 m2) = Normal JNull) by reflexivity.
  cbv beta iota. rewrite Himg. reflexivity.
Qed.

Lemma nth_elem_strings l n :
  (exists s, nth_elem (map JStr l) n = JStr s) \/ nth_elem (map JStr l) n = JUndefined.
Proof.
  destruct n as [z |]; [| by right]. unfold nth_elem.
  destruct (0 <=? z); [| by right].
  generalize (Z.to_nat z) as k. induction l as [| a l IH]; intros [| k]; simpl;
    try (by right); try (left; by eexists). apply IH.
Qed.

Lemma selectChoice_failedScene m1 m2 n :
  exists sel s,
    MainGame.selectChoice (failedScene m1 m2) n = Normal sel
    /\ ToString sel = Normal s.
Proof.
  rewrite (selectChoice_array (failedScene m1 m2)
             (map JStr MainGame.DEFAULT_CHOICES) n eq_refl).
  destruct (nth_elem_strings MainGame.DEFAULT_CHOICES n) as [[s Hs] | Hs];
    rewrite Hs.
  - destruct (truthy (JStr s)); [by eexists _, _ |].
    destruct (nth_elem_strings MainGame.DEFAULT_CHOICES
                (js_rem n (Num (Z.of_nat (length MainGame.DEFAULT_CHOICES)))))
      as [[s' Hs'] | Hs']; rewrite Hs'; by eexists _, _.
  - simpl truthy. cbv iota.
    destruct (nth_elem_strings MainGame.DEFAULT_CHOICES
                (js_rem n (Num (Z.of_nat (length MainGame.DEFAULT_CHOICES)))))
      as [[s' Hs'] | Hs']; rewrite Hs'; by eexists _, _.
Qed.

Lemma main_continueWith_failing sel s g m1 m2 w :
  ToString sel = Normal s ->
  MainGame.currentScene g = failedScene m1 m2 ->
  exists m1' m2' w',
    MainGame.continueWith sel (g, w)
    = (Normal (failedScene m1' m2'),
       ({| MainGame.currentScene := failedScene m1' m2';
           MainGame.history := MainGame.history g |}, w')).
Proof.
  intros Hsel Hscene. unfold MainGame.continueWith. unfold MainGame.Eng.
  rewrite (bind_normal _ _ _ _ _ (thisScene_eq _ _)). rewrite Hscene.
  assert (Hget : Get (failedScene m1 m2) "text" = Normal (mainFallbackText m1))
    by reflexivity.
  rewrite (lift_bind_normal _ _ _ _ Hget).
  assert (Hctx : MainGame.data_output (mainFallbackText m1)
                 = Normal (Some (JStr placeholderText))) by reflexivity.
  rewrite (lift_bind_normal _ _ _ _ Hctx). simpl default.
  destruct (generateStoryText_failing (JStr placeholderText) sel _ _ g w eq_refl Hsel)
    as (m1' & w1 & Hgen).
  rewrite (bind_normal _ _ _ _ _ Hgen).
  assert (Hout : MainGame.data_output (mainFallbackText m1')
                 = Normal (Some (JStr placeholderText))) by reflexivity.
  rewrite (lift_bind_normal _ _ _ _ Hout).
  change (call_substring (JStr placeholderText) 100)
    with (Normal (Str.take 100 placeholderText)).
  change (mbind ?k (Normal (Str.take 100 placeholderText)))
    with (k (Str.take 100 placeholderText)). cbv beta.
  rewrite Hsel. change (mbind ?k (Normal s)) with (k s). cbv beta.
  match goal with
  | |- context [lift (Normal (JStr ?p))] =>
      rewrite (lift_bind_normal (Normal (JStr p)) _ _ _ eq_refl);
      destruct (generateStoryImage_failing (JStr p) _ g w1 eq_refl)
        as (m2' & w2 & Himg)
  end.
  rewrite (bind_normal _ _ _ _ _ Himg).
  rewrite (lift_bind_normal _ _ _ _ Hout). simpl default.
  destruct (generateChoices_failing placeholderText g w2) as (w3 & Hcho).
  rewrite (bind_normal _ _ _ _ _ Hcho).
  by eexists m1', m2', w3.
Qed.

Lemma main_makeChoice_failing n g m1 m2 w :
  MainGame.currentScene g = failedScene m1 m2 ->
  exists m1' m2' w',
    MainGame.makeChoice n (g, w)
    = (Normal (failedScene m1' m2'),
       ({| MainGame.currentScene := failedScene m1' m2';
           MainGame.history := MainGame.history g ++ [failedScene m1 m2] |}, w')).
Proof.
  intros Hscene. unfold MainGame.makeChoice. unfold MainGame.Eng.
  rewrite (bind_normal _ _ _ _ _ (configure_ok key_set _)).
  rewrite (bind_normal _ _ _ _ _ (thisScene_eq _ _)). rewrite Hscene.
  assert (Hsp : spread (failedScene m1 m2) = Normal (failedScene m1 m2))
    by reflexivity.
  rewrite (lift_bind_normal _ _ _ _ Hsp).
  rewrite (bind_normal _ _ _ _ _ (pushHistory_eq _ _ _)).
  rewrite (bind_normal _ _ _ _ _ (thisScene_eq _ _)). simpl MainGame.currentScene.
  rewrite Hscene.
  destruct (selectChoice_failedScene m1 m2 n) as (sel & s & Hsel & Hs).
  rewrite (lift_bind_normal _ _ _ _ Hsel).
  destruct (main_continueWith_failing sel s
              {| MainGame.currentScene := failedScene m1 m2;
                 MainGame.history := MainGame.history g ++ [failedScene m1 m2] |}
              m1 m2 w Hs eq_refl) as (m1' & m2' & w' & Hcont).
  rewrite Hcont. by eexists m1', m2', w'.
Qed.

Lemma main_choice_failing_service key ci n game m1 m2
    (sessions : gmap string MainGame.GameState) w :
  sessions !! key = Some game ->
  MainGame.currentScene game = failedScene m1 m2 ->
  parseInt10 ci = Normal n ->
  exists game' w',
    MainServer.choice (JObj [("sessionId", JStr key); ("choiceIndex", ci)])
      (sessions, w)
    = (Normal (json (JObj [("sessionId", JStr key);
                           ("text", JStr placeholderText);
                           ("imageUrl", JNull); ("audioUrl", JNull);
                           ("choices", str_list MainGame.DEFAULT_CHOICES)])),
       (<[key := game']> sessions, w'))
    /\ MainGame.history game' = MainGame.history game ++ [MainGame.currentScene game]
    /\ exists m1' m2', MainGame.currentScene game' = failedScene m1' m2'.
Proof.
  intros Hkey Hscene Hci.
  destruct (main_makeChoice_failing n game m1 m2 w Hscene)
    as (m1' & m2' & w1 & Hmake).
  destruct (respond_failedScene (JStr key) m1' m2'
              (<[key := {| MainGame.currentScene := failedScene m1' m2';
                           MainGame.history :=
                             MainGame.history game ++ [failedScene m1 m2] |}]> sessions)
              w1) as (w2 & Hresp).
  eexists _, w2. split.
  2: shelve.
  unfold MainServer.choice, try_catchM, lift, the_sessions, gets, on_session.
  unfold mbind at 1, M_bind. simpl Get. cbv beta iota.
  unfold mbind at 1, M_bind. cbv beta iota.
  unfold mbind at 1, M_bind. cbv beta iota.
  change ((sessions, w).1) with sessions.
  change (sessions_get sessions (JStr key)) with (sessions !! key).
  rewrite Hkey. cbv beta iota.
  unfold mbind at 1, M_bind. rewrite Hci. cbv beta iota.
  unfold mbind at 1, M_bind. rewrite Hmake. cbv beta iota.
  rewrite Hresp. reflexivity.
  Unshelve. rewrite Hscene. split; [reflexivity | by eexists _, _].
Qed.

End Main.

(** The copy variant. *)

Lemma copy_generateStoryText_failing c u cs us w :
  ToString c = Normal cs -> ToString u = Normal us ->
  exists message w',
    CopyGame.generateStoryText c u w
    = (Normal (JObj [("success", JBool false); ("text", JStr CopyGame.failedText);
                     ("error", message)]), w').
Proof.
  intros Hc Hu. unfold CopyGame.generateStoryText.
  rewrite (lift_bind_normal _ _ _ _ Hc), (lift_bind_normal _ _ _ _ Hu).
  unfold try_catchM, subscribe. unfold mbind at 1, M_bind.
  destruct (always_fails "fal-ai/any-llm"
              (JObj [("prompt", JStr (CopyGame.storyPrompt cs us))]) w)
    as (fields & w1 & ->).
  by eexists _, _.
Qed.

Lemma copy_generateStoryImage_failing d ds w :
  ToString d = Normal ds ->
  exists message w',
    CopyGame.generateStoryImage d w
    = (Normal (JObj [("success", JBool false); ("error", message)]), w').
Proof.
  intros Hd. unfold CopyGame.generateStoryImage.
  rewrite (lift_bind_normal _ _ _ _ Hd).
  unfold try_catchM, subscribe. unfold mbind at 1, M_bind.
  destruct (always_fails "fal-ai/flux/schnell"
              (JObj [("prompt", JStr (CopyGame.imagePromptOf ds))]) w)
    as (fields & w1 & ->).
  by eexists _, _.
Qed.

Lemma copy_startNewGame_failing g w :
  exists w',
    CopyGame.startNewGame (g, w)
    = (Normal Fixtures.copyStartedScene,
       ({| CopyGame.currentScene := Fixtures.copyStartedScene;
           CopyGame.history := CopyGame.history g;
           CopyGame.choices := CopyGame.choices g |}, w')).
Proof.
  unfold CopyGame.startNewGame. unfold CopyGame.Eng.
  destruct (copy_generateStoryText_failing (JStr CopyGame.initialContext)
              (JStr "Game start") _ _ w eq_refl eq_refl) as (m1 & w1 & Hgen).
  destruct (copy_generateStoryImage_failing (JStr CopyGame.initialContext) _ w1 eq_refl)
    as (m2 & w2 & Himg).
  unfold on_world, lift. unfold mbind, M_bind.
  rewrite Hgen, Himg. by eexists.
Qed.

Lemma copy_start_failing_service now (sessions : gmap string CopyGame.GameState) w e :
  JSON_parse CopyGame.startFallbackText = Throw e ->
  exists game w',
    CopyServer.start now (sessions, w)
    = (Normal (json (JObj [("sessionId", JStr (pretty now));
                           ("text", JStr CopyGame.startFallbackText);
                           ("imageUrl", JNull);
                           ("choices", str_list CopyGame.initialChoices)])),
       (<[pretty now := game]> sessions, w'))
    /\ CopyGame.history game = [].
Proof.
  intros Hparse.
  destruct (copy_startNewGame_failing CopyGame.newGameState w) as (w1 & Hstart).
  eexists _, w1. split.
  2: shelve.
  unfold CopyServer.start, try_catchM, on_new_engine, sessions_set, modify.
  unfold mbind at 1, M_bind. cbv beta iota.
  rewrite Hstart. cbv beta iota.
  unfold mbind at 1, M_bind. cbv beta iota.
  unfold CopyServer.respond, lift. unfold mbind, M_bind.
  change (imageUrlOf true Fixtures.copyStartedScene) with (Normal JNull).
  cbv iota.
  change (Get Fixtures.copyStartedScene "text")
    with (Normal (JStr CopyGame.startFallbackText)).
  cbv iota.
  change (Get Fixtures.copyStartedScene "choices")
    with (Normal (str_list CopyGame.initialChoices)).
  cbv iota.
  assert (Htext : CopyIndex.extractText (JStr CopyGame.startFallbackText)
                  = JStr CopyGame.startFallbackText).
  { unfold CopyIndex.extractText, CopyIndex.extractText_try.
    change (truthy (JStr CopyGame.startFallbackText)) with true. simpl negb. cbv iota.
    unfold CopyIndex.parsed_output_or, try_catch. unfold mbind, Completion_bind.
    by rewrite Hparse. }
  rewrite Htext. reflexivity.
  Unshelve. reflexivity.
Qed.

Definition copyFailedScene : JsVal :=
  CopyGame.sceneOf (JStr CopyGame.choiceFallbackText) JNull
    (str_list CopyGame.defaultChoices).

Lemma copy_generateChoices_failing t w :
  exists w',
    CopyGame.generateChoices (JStr t) w = (Normal (str_list CopyGame.defaultChoices), w').
Proof.
  unfold CopyGame.generateChoices, try_catchM, subscribe. unfold mbind at 1, M_bind.
  destruct (always_fails "fal-ai/any-llm"
              (JObj [("prompt", JStr (CopyGame.choicePrompt t))]) w)
    as (fields & w1 & ->).
  by eexists.
Qed.

Lemma copy_makeChoice_failing idx g w copy sceneChoices c ctx cs :
  spread (CopyGame.currentScene g) = Normal copy ->
  Get (CopyGame.currentScene g) "choices" = Normal sceneChoices ->
  GetIdx sceneChoices idx = Normal (JStr c) -> c <> "" ->
  Get (CopyGame.currentScene g) "text" = Normal ctx ->
  ToString ctx = Normal cs ->
  exists w',
    CopyGame.makeChoice idx (g, w)
    = (Normal copyFailedScene,
       ({| CopyGame.currentScene := copyFailedScene;
           CopyGame.history := CopyGame.history g ++ [copy];
           CopyGame.choices := CopyGame.choices g |}, w')).
Proof.
  intros Hcopy Hch Hidx Hc Hctx Hcs.
  rewrite (makeChoice_prefix idx g w copy sceneChoices (JStr c) Hcopy Hch Hidx).
  assert (Htruthy : truthy (JStr c) = true) by (by destruct c).
  rewrite Htruthy. change (negb true) with false. cbv iota.
  destruct (copy_generateStoryText_failing ctx (JStr c) cs c w Hcs eq_refl)
    as (m1 & w1 & Hgen).
  destruct (copy_generateStoryImage_failing (JStr c) c w1 eq_refl) as (m2 & w2 & Himg).
  destruct (copy_generateChoices_failing CopyGame.failedText w2) as (w3 & Hcho).
  exists w3.
  assert (Hon : forall {A} (m : M World A) a g0 w0 w0',
             m w0 = (Normal a, w0') ->
             @on_world CopyGame.GameState World A m (g0, w0) = (Normal a, (g0, w0'))).
  { intros A m a g0 w0 w0' Hm. unfold on_world. by rewrite Hm. }
  unfold CopyGame.Eng.
  rewrite (lift_bind_normal _ _ _ _ Hctx).
  rewrite (bind_normal _ _ _ _ _ (Hon _ _ _ _ _ _ Hgen)).
  rewrite (lift_bind_normal _ _ _ (JBool false) eq_refl).
  rewrite (lift_bind_normal _ _ _ (JStr CopyGame.failedText) eq_refl).
  simpl truthy. cbv iota.
  rewrite (lift_bind_normal (Normal (JStr c)) _ _ _ eq_refl).
  rewrite (bind_normal _ _ _ _ _ (Hon _ _ _ _ _ _ Himg)).
  rewrite (lift_bind_normal _ _ _ (JStr CopyGame.failedText) eq_refl).
  rewrite (bind_normal _ _ _ _ _ (Hon _ _ _ _ _ _ Hcho)).
  reflexivity.
Qed.

Lemma copy_choice_failing_service key ci idx game copy sceneChoices c ctx cs e
    (sessions : gmap string CopyGame.GameState) w :
  JSON_parse CopyGame.choiceFallbackText = Throw e ->
  sessions !! key = Some game ->
  parseInt10 ci = Normal idx ->
  spread (CopyGame.currentScene game) = Normal copy ->
  Get (CopyGame.currentScene game) "choices" = Normal sceneChoices ->
  GetIdx sceneChoices idx = Normal (JStr c) -> c <> "" ->
  Get (CopyGame.currentScene game) "text" = Normal ctx ->
  ToString ctx = Normal cs ->
  exists game' w',
    CopyServer.choice (JObj [("sessionId", JStr key); ("choiceIndex", ci)])
      (sessions, w)
    = (Normal (json (JObj [("sessionId", JStr key);
                           ("text", JStr CopyGame.choiceFallbackText);
                           ("imageUrl", JNull);
                           ("choices", str_list CopyGame.defaultChoices)])),
       (<[key := game']> sessions, w'))
    /\ CopyGame.history game' = CopyGame.history game ++ [copy]
    /\ CopyGame.currentScene game' = copyFailedScene.
Proof.
  intros Hparse Hkey Hci Hcopy Hch Hidx Hc Hctx Hcs.
  destruct (copy_makeChoice_failing idx game w copy sceneChoices c ctx cs
              Hcopy Hch Hidx Hc Hctx Hcs) as (w1 & Hmake).
  eexists _, w1. split.
  2: shelve.
  unfold CopyServer.choice, try_catchM, lift, the_sessions, gets, on_session.
  unfold mbind at 1, M_bind. simpl Get. cbv beta iota.
  unfold mbind at 1, M_bind. cbv beta iota.
  unfold mbind at 1, M_bind. cbv beta iota.
  change ((sessions, w).1) with sessions.
  change (sessions_get sessions (JStr key)) with (sessions !! key).
  rewrite Hkey. cbv beta iota.
  unfold mbind at 1, M_bind. rewrite Hci. cbv beta iota.
  unfold mbind at 1, M_bind. rewrite Hmake. cbv beta iota.
  unfold CopyServer.respond, lift. unfold mbind, M_bind.
  change (imageUrlOf true copyFailedScene) with (Normal JNull). cbv iota.
  change (Get copyFailedScene "text") with (Normal (JStr CopyGame.choiceFallbackText)).
  cbv iota.
  change (Get copyFailedScene "choices") with (Normal (str_list CopyGame.defaultChoices)).
  cbv iota.
  assert (Htext : CopyIndex.extractText (JStr CopyGame.choiceFallbackText)
                  = JStr CopyGame.choiceFallbackText).
  { unfold CopyIndex.extractText, CopyIndex.extractText_try.
    change (truthy (JStr CopyGame.choiceFallbackText)) with true. simpl negb. cbv iota.
    unfold CopyIndex.parsed_output_or, try_catch. unfold mbind, Completion_bind.
    by rewrite Hparse. }
  rewrite Htext. reflexivity.
  Unshelve. split; reflexivity.
Qed.

End AlwaysFailing.

(** ** How the main [makeChoice] selects the action *)

(** X4: the action the main [makeChoice] takes from an array of choices.
    For an index [z >= 0] it is [choices[z]] when that entry is truthy, and
    [DEFAULT_CHOICES[z mod 3]] otherwise, also inside the array when the
    entry is falsy (an empty string, say).  For a negative index it is
    "Continue exploring" when the index is a multiple of 3 and [undefined]
    when it is not, the remainder of the division having the sign of the
    index; for [NaN] it is [undefined]. *)
Theorem main_selectChoice_by_index scene l :
  Get scene "choices" = Normal (JArr l) ->
  (forall z, 0 <= z ->
     MainGame.selectChoice scene (Num z)
     = Normal (if truthy (nth (Z.to_nat z) l JUndefined)
               then nth (Z.to_nat z) l JUndefined
               else JStr (nth (Z.to_nat (z mod 3)) MainGame.DEFAULT_CHOICES "")))
  /\ (forall z, z < 0 ->
        MainGame.selectChoice scene (Num z)
        = Normal (if Z.rem z 3 =? 0 then JStr "Continue exploring" else JUndefined))
  /\ MainGame.selectChoice scene NaN = Normal JUndefined.
Proof.
  intros Hch. split; [| split].
  - intros z Hz. rewrite (selectChoice_array _ _ _ Hch), default_for_index.
    unfold nth_elem. destruct (0 <=? z) eqn:Hle; [reflexivity | lia].
  - intros z Hz. rewrite (selectChoice_array _ _ _ Hch), default_for_index.
    unfold nth_elem. destruct (0 <=? z) eqn:Hle; [lia | reflexivity].
  - by rewrite (selectChoice_array _ _ _ Hch).
Qed.

Lemma main_selectChoice_by_index_witness :
  MainGame.selectChoice
    (MainGame.sceneOf JNull JNull (str_list ["Go left"; ""; "Wait"])) (Num 1)
  = Normal (JStr "Take a different path")
  /\ MainGame.selectChoice
       (MainGame.sceneOf JNull JNull (str_list ["Go left"; ""; "Wait"])) (Num (-4))
     = Normal JUndefined
  /\ MainGame.selectChoice
       (MainGame.sceneOf JNull JNull (str_list ["Go left"; ""; "Wait"])) (Num (-3))
     = Normal (JStr "Continue exploring").
Proof.
  destruct (main_selectChoice_by_index
              (MainGame.sceneOf JNull JNull (str_list ["Go left"; ""; "Wait"]))
              (map JStr ["Go left"; ""; "Wait"]) eq_refl) as (Hpos & Hneg & _).
  split; [apply (Hpos 1); lia |].
  split; [apply (Hneg (-4)); lia | apply (Hneg (-3)); lia].
Defined.

(** ** The servers in front of a service that rejects every call *)

(** Every call of the service is rejected with an error object. *)
Definition always_rejects (P : Provider) : Prop :=
  forall endpoint input w,
    exists fields w', fal_subscribe endpoint input w = (Throw (JObj fields), w').

(** The body both main handlers answer with when every call is rejected. *)
Definition degraded_body (sessionId : string) : JsVal :=
  JObj [("sessionId", JStr sessionId);
        ("text", JStr placeholderText);
        ("imageUrl", JNull); ("audioUrl", JNull);
        ("choices", str_list MainGame.DEFAULT_CHOICES)].

(** X5: with the key set and a service that rejects every call, the main
    server's [POST /api/game/start] still answers with status 200: the text
    is the placeholder of [generateStoryText]'s catch block, the image and
    audio URLs are [null], the choices are the three defaults, and the new
    engine is stored under the session id with an empty history.  None of
    the four failures reaches the handler's own catch block. *)
Theorem main_start_degrades (P : Provider) :
  truthy FAL_KEY = true -> always_rejects P ->
  forall now (sessions : gmap string MainGame.GameState) w,
    exists game w',
      MainServer.start now (sessions, w)
      = (Normal (json (degraded_body (pretty now))),
         (<[pretty now := game]> sessions, w'))
      /\ MainGame.history game = []
      /\ exists m1 m2, MainGame.currentScene game = failedScene m1 m2.
Proof.
  intros Hkey Hrej now sessions w.
  exact (main_start_failing_service Hrej Hkey now sessions w).
Qed.

Lemma failing_always_rejects : always_rejects Fixtures.failing.
Proof. intros endpoint input w. by eexists _, _. Qed.

Lemma main_start_degrades_witness :
  exists game w',
    @MainServer.start Fixtures.failing 1700000000000 (∅, tt)
    = (Normal (json (degraded_body "1700000000000")),
       (<[pretty 1700000000000 := game]> ∅, w'))
    /\ MainGame.history game = [].
Proof.
  destruct (main_start_degrades Fixtures.failing eq_refl failing_always_rejects
              1700000000000 ∅ tt) as (game & w' & Hstart & Hhist & _).
  exists game, w'. split; [exact Hstart | exact Hhist].
Defined.

(** X6: with the key set and a service that rejects every call, a session
    whose scene is such a degraded scene answers every
    [POST /api/game/choice] whose index [parseInt] accepts with status 200
    and the same degraded body, whatever the index is, negative, out of
    range and [NaN] included; the engine stored back has the old scene
    appended to its history and again a degraded scene as its current one. *)
Theorem main_choice_degrades (P : Provider) :
  truthy FAL_KEY = true -> always_rejects P ->
  forall key ci n game m1 m2 (sessions : gmap string MainGame.GameState) w,
    sessions !! key = Some game ->
    MainGame.currentScene game = failedScene m1 m2 ->
    parseInt10 ci = Normal n ->
    exists game' w',
      MainServer.choice (JObj [("sessionId", JStr key); ("choiceIndex", ci)])
        (sessions, w)
      = (Normal (json (degraded_body key)), (<[key := game']> sessions, w'))
      /\ MainGame.history game'
         = MainGame.history game ++ [MainGame.currentScene game]
      /\ exists m1' m2', MainGame.currentScene game' = failedScene m1' m2'.
Proof.
  intros Hkey Hrej key ci n game m1 m2 sessions w Hin Hscene Hci.
  exact (main_choice_failing_service Hrej Hkey key ci n game m1 m2 sessions w
           Hin Hscene Hci).
Qed.

Lemma main_choice_degrades_witness :
  let game := {| MainGame.currentScene := failedScene JUndefined JUndefined;
                 MainGame.history := [] |} in
  exists game' w',
    @MainServer.choice Fixtures.failing
      (JObj [("sessionId", JStr "s1"); ("choiceIndex", JStr "seven")])
      (<["s1" := game]> ∅, tt)
    = (Normal (json (degraded_body "s1")),
       (<["s1" := game']> (<["s1" := game]> ∅), w'))
    /\ MainGame.history game' = [failedScene JUndefined JUndefined].
Proof.
  intros game.
  assert (Hin : (<["s1" := game]> ∅ : gmap string MainGame.GameState) !! "s1"
                = Some game) by (vm_compute; reflexivity).
  destruct (main_choice_degrades Fixtures.failing eq_refl failing_always_rejects
              "s1" (JStr "seven") NaN game JUndefined JUndefined
              (<["s1" := game]> ∅) tt Hin eq_refl eq_refl)
    as (game' & w' & Hchoice & Hhist & _).
  exists game', w'. split; [exact Hchoice | exact Hhist].
Defined.

(** X7: the copy server's [POST /api/game/start] in front of a service that
    rejects every call, given that [JSON.parse] rejects the fallback
    sentence (it is no JSON text): the answer has status 200, the fallback
    sentence of [startNewGame] as its text, a [null] image URL and the three
    initial choices, and the new engine is stored with an empty history. *)
Theorem copy_start_degrades (P : Provider) (J : JsonParser) :
  always_rejects P ->
  (exists e, JSON_parse CopyGame.startFallbackText = Throw e) ->
  forall now (sessions : gmap string CopyGame.GameState) w,
    exists game w',
      CopyServer.start now (sessions, w)
      = (Normal (json (JObj [("sessionId", JStr (pretty now));
                             ("text", JStr CopyGame.startFallbackText);
                             ("imageUrl", JNull);
                             ("choices", str_list CopyGame.initialChoices)])),
         (<[pretty now := game]> sessions, w'))
      /\ CopyGame.history game = [].
Proof.
  intros Hrej [e He] now sessions w.
  exact (copy_start_failing_service Hrej now sessions w e He).
Qed.

Lemma copy_start_degrades_witness :
  exists game w',
    @CopyServer.start Fixtures.failing Fixtures.refParser 1700000000000 (∅, tt)
    = (Normal (json (JObj [("sessionId", JStr "1700000000000");
                           ("text", JStr CopyGame.startFallbackText);
                           ("imageUrl", JNull);
                           ("choices", str_list CopyGame.initialChoices)])),
       (<[pretty 1700000000000 := game]> ∅, w'))
    /\ CopyGame.history game = [].
Proof.
  eassert (Hparse : exists e, @JSON_parse Fixtures.refParser CopyGame.startFallbackText
                              = Throw e)
    by (eexists; vm_compute; reflexivity).
  exact (copy_start_degrades Fixtures.failing Fixtures.refParser
           failing_always_rejects Hparse 1700000000000 ∅ tt).
Defined.

(** X8: the copy server's [POST /api/game/choice] in front of a service
    that rejects every call, for a stored session and an index that selects
    a non-empty string of the scene's choices, given that [JSON.parse]
    rejects the fallback sentence: the answer has status 200, the fallback
    sentence of [makeChoice] as its text (not the text of
    [generateStoryText]'s catch block), a [null] image URL and the three
    default choices; the engine stored back has the old scene appended to
    its history. *)
Theorem copy_choice_degrades (P : Provider) (J : JsonParser) :
  always_rejects P ->
  (exists e, JSON_parse CopyGame.choiceFallbackText = Throw e) ->
  forall key ci idx game copy sceneChoices c ctx cs
         (sessions : gmap string CopyGame.GameState) w,
    sessions !! key = Some game ->
    parseInt10 ci = Normal idx ->
    spread (CopyGame.currentScene game) = Normal copy ->
    Get (CopyGame.currentScene game) "choices" = Normal sceneChoices ->
    GetIdx sceneChoices idx = Normal (JStr c) -> c <> "" ->
    Get (CopyGame.currentScene game) "text" = Normal ctx ->
    ToString ctx = Normal cs ->
    exists game' w',
      CopyServer.choice (JObj [("sessionId", JStr key); ("choiceIndex", ci)])
        (sessions, w)
      = (Normal (json (JObj [("sessionId", JStr key);
                             ("text", JStr CopyGame.choiceFallbackText);
                             ("imageUrl", JNull);
                             ("choices", str_list CopyGame.defaultChoices)])),
         (<[key := game']> sessions, w'))
      /\ CopyGame.history game' = CopyGame.history game ++ [copy]
      /\ CopyGame.currentScene game' = copyFailedScene.
Proof.
  intros Hrej [e He] key ci idx game copy sceneChoices c ctx cs sessions w
    Hkey Hci Hcopy Hch Hidx Hc Hctx Hcs.
  exact (copy_choice_failing_service Hrej key ci idx game copy sceneChoices c ctx cs e
           sessions w He Hkey Hci Hcopy Hch Hidx Hc Hctx Hcs).
Qed.

Lemma copy_choice_degrades_witness :
  exists game' w',
    @CopyServer.choice Fixtures.failing Fixtures.refParser
      (JObj [("sessionId", JStr "5"); ("choiceIndex", JStr "1")])
      (<["5" := Fixtures.copyStarted]> ∅, tt)
    = (Normal (json (JObj [("sessionId", JStr "5");
                           ("text", JStr CopyGame.choiceFallbackText);
                           ("imageUrl", JNull);
                           ("choices", str_list CopyGame.defaultChoices)])),
       (<["5" := game']> (<["5" := Fixtures.copyStarted]> ∅), w'))
    /\ CopyGame.history game'
       = CopyGame.history Fixtures.copyStarted ++ [Fixtures.copyStartedScene]
    /\ CopyGame.currentScene game' = copyFailedScene.
Proof.
  eassert (Hparse : exists e, @JSON_parse Fixtures.refParser CopyGame.choiceFallbackText
                              = Throw e)
    by (eexists; vm_compute; reflexivity).
  assert (Hin : (<["5" := Fixtures.copyStarted]> ∅ : gmap string CopyGame.GameState)
                !! "5" = Some Fixtures.copyStarted) by (vm_compute; reflexivity).
  apply (copy_choice_degrades Fixtures.failing Fixtures.refParser
           failing_always_rejects Hparse
           "5" (JStr "1") (Num 1) Fixtures.copyStarted Fixtures.copyStartedScene
           (str_list CopyGame.initialChoices) "Set up camp and wait until morning"
           (JStr CopyGame.startFallbackText) CopyGame.startFallbackText
           (<["5" := Fixtures.copyStarted]> ∅) tt Hin);
    solve [reflexivity | discriminate].
Defined.

(** ** What the handlers answer and what they do to the session map *)

Lemma bind_inv {S A B} (m : M S A) (k : A -> M S B) s r s' :
  (m ≫= k) s = (r, s') ->
  (exists e, m s = (Throw e, s') /\ r = Throw e)
  \/ exists a s1, m s = (Normal a, s1) /\ k a s1 = (r, s').
Proof.
  unfold mbind, M_bind. destruct (m s) as [[a | e] s1].
  - intros Hk. right. by exists a, s1.
  - intros [= <- <-]. left. by exists e.
Qed.

(** A handler body wrapped in its [try]/[catch]: the answer is the body's,
    or the fixed error answer when the body throws; the state is the one the
    body left. *)
Lemma guarded_answer {S} (m : M S Response) (failure : Response) s :
  exists resp s',
    try_catchM m (fun _ => mret failure) s = (Normal resp, s')
    /\ (m s = (Normal resp, s')
        \/ resp = failure /\ exists e, m s = (Throw e, s')).
Proof.
  unfold try_catchM. destruct (m s) as [[resp | e] s'].
  - exists resp, s'. split; [reflexivity | by left].
  - exists failure, s'. split; [reflexivity | right; split; [reflexivity | by exists e]].
Qed.

Definition start_failed : Response := status_json 500 (error_body "Failed to start game").
Definition choice_failed : Response :=
  status_json 500 (error_body "Failed to process choice").

(** What a handler may do to the session map: nothing, or one entry set. *)
Definition stored_at {G} (key : string) (before after : gmap string G) : Prop :=
  after = before \/ exists game, after = <[key := game]> before.

Section HandlerFacts.
Context `{Provider} `{JsonParser}.

Lemma main_respond_json sid scene st r st' :
  MainServer.respond sid scene st = (Normal r, st') -> exists b, r = json b.
Proof.
  unfold MainServer.respond. intros Hr.
  repeat (apply bind_normal_inv in Hr as (? & ? & _ & Hr)).
  injection Hr as <- _. by eexists.
Qed.

Lemma copy_respond_json sid scene st r st' :
  CopyServer.respond sid scene st = (Normal r, st') -> exists b, r = json b.
Proof.
  unfold CopyServer.respond. intros Hr.
  repeat (apply bind_normal_inv in Hr as (? & ? & _ & Hr)).
  injection Hr as <- _. by eexists.
Qed.

Lemma on_session_sessions {G A} key (game : G) (m : M (G * World) A)
    (sessions : gmap string G) w r sessions' w' :
  on_session key game m (sessions, w) = (r, (sessions', w')) ->
  exists game', sessions' = <[key := game']> sessions
                /\ m (game, w) = (r, (game', w')).
Proof.
  unfold on_session. destruct (m (game, w)) as [r1 [game' w1]].
  intros [= <- <- <-]. by exists game'.
Qed.

(** The body of the main [start] handler. *)
Lemma main_start_body (now : Z) sessions w r sessions' w' :
  (game ← lift MainGame.newGameState;
   '(initialScene, game) ← on_new_engine game MainGame.startNewGame;
   _ ← sessions_set (pretty now) game;
   MainServer.respond (JStr (pretty now)) initialScene) (sessions, w)
  = (r, (sessions', w')) ->
  stored_at (pretty now) sessions sessions'
  /\ forall resp, r = Normal resp ->
       (exists b, resp = json b)
       /\ exists game, sessions' = <[pretty now := game]> sessions.
Proof.
  intros Hb.
  apply bind_inv in Hb as [(e & Hm & ->) | (game0 & [ss1 w1] & Hm & Hb)].
  { injection Hm as _ <- <-. split; [by left | discriminate]. }
  injection Hm as _ <- <-.
  apply bind_inv in Hb as [(e & Hm & ->) | ([scene game] & [ss2 w2] & Hm & Hb)].
  { apply on_new_engine_sessions in Hm as ->. split; [by left | discriminate]. }
  apply on_new_engine_sessions in Hm as ->.
  apply bind_inv in Hb as [(e & Hm & ->) | ([] & [ss3 w3] & Hm & Hb)];
    [discriminate Hm |].
  injection Hm as <- <-.
  pose proof (main_respond_keeps _ _ _ _ _ Hb) as Hk. simpl in Hk. subst sessions'.
  split; [right; by exists game |].
  intros resp ->. split; [by eapply main_respond_json | by exists game].
Qed.

Lemma copy_start_body (now : Z) sessions w r sessions' w' :
  ('(initialScene, game) ← on_new_engine CopyGame.newGameState CopyGame.startNewGame;
   _ ← sessions_set (pretty now) game;
   CopyServer.respond (JStr (pretty now)) initialScene) (sessions, w)
  = (r, (sessions', w')) ->
  stored_at (pretty now) sessions sessions'
  /\ forall resp, r = Normal resp ->
       (exists b, resp = json b)
       /\ exists game, sessions' = <[pretty now := game]> sessions.
Proof.
  intros Hb.
  apply bind_inv in Hb as [(e & Hm & ->) | ([scene game] & [ss2 w2] & Hm & Hb)].
  { apply on_new_engine_sessions in Hm as ->. split; [by left | discriminate]. }
  apply on_new_engine_sessions in Hm as ->.
  apply bind_inv in Hb as [(e & Hm & ->) | ([] & [ss3 w3] & Hm & Hb)];
    [discriminate Hm |].
  injection Hm as <- <-.
  pose proof (copy_respond_keeps _ _ _ _ _ Hb) as Hk. simpl in Hk. subst sessions'.
  split; [right; by exists game |].
  intros resp ->. split; [by eapply copy_respond_json | by exists game].
Qed.

(** The body of the main [choice] handler: the session map changes only at
    a key that is present, and a normal answer is the 404 answer, given for
    a session that is not there, or a 200 answer. *)
Definition choice_outcome {G} (reqBody : JsVal) (sessions sessions' : gmap string G)
    (r : Completion Response) : Prop :=
  (sessions' = sessions
   \/ exists key game game',
        Get reqBody "sessionId" = Normal (JStr key)
        /\ sessions !! key = Some game
        /\ sessions' = <[key := game']> sessions)
  /\ forall resp, r = Normal resp ->
       (resp = not_found
        /\ forall key, Get reqBody "sessionId" = Normal (JStr key) ->
                       sessions !! key = None)
       \/ exists b, resp = json b.

Lemma main_choice_body reqBody sessions w r sessions' w' :
  (sessionId ← lift (Get reqBody "sessionId");
   choiceIndex ← lift (Get reqBody "choiceIndex");
   sessions ← the_sessions;
   match sessionId, sessions_get sessions sessionId with
   | JStr key, Some game =>
       index ← lift (parseInt10 choiceIndex);
       nextScene ← on_session key game (MainGame.makeChoice index);
       MainServer.respond sessionId nextScene
   | _, _ => mret (status_json 404 (error_body "Game session not found"))
   end) (sessions, w)
  = (r, (sessions', w')) ->
  choice_outcome reqBody sessions sessions' r.
Proof.
  intros Hb.
  apply bind_inv in Hb as [(e & Hm & ->) | (sid & [ss1 w1] & Hm & Hb)].
  { injection Hm as _ <- <-. split; [by left | discriminate]. }
  injection Hm as Hsid <- <-.
  apply bind_inv in Hb as [(e & Hm & ->) | (ci & [ss1 w1] & Hm & Hb)].
  { injection Hm as _ <- <-. split; [by left | discriminate]. }
  injection Hm as Hci <- <-.
  apply bind_inv in Hb as [(e & Hm & ->) | (ss & [ss1 w1] & Hm & Hb)];
    [discriminate Hm |].
  injection Hm as <- <- <-. change ((sessions, w).1) with sessions in Hb.
  assert (Hmiss : (r, (sessions', w')) = (Normal not_found, (sessions, w)) ->
                  (forall key, sid = JStr key -> sessions !! key = None) ->
                  choice_outcome reqBody sessions sessions' r).
  { intros [= -> -> ->] Hnone. split; [by left |].
    intros resp [= <-]. left. split; [reflexivity |].
    intros key Hkey. rewrite Hsid in Hkey. injection Hkey as ->. by apply Hnone. }
  destruct sid as [| | | | key | | | |];
    try (apply Hmiss; [by rewrite <- Hb | discriminate]).
  change (sessions_get sessions (JStr key)) with (sessions !! key) in Hb.
  destruct (sessions !! key) as [game |] eqn:Hkey.
  2: { apply Hmiss; [by rewrite <- Hb | by intros ? [= <-]]. }
  clear Hmiss.
  apply bind_inv in Hb as [(e & Hm & ->) | (idx & [ss1 w1] & Hm & Hb)].
  { injection Hm as _ <- <-. split; [by left | discriminate]. }
  injection Hm as Hidx <- <-.
  apply bind_inv in Hb as [(e & Hm & ->) | (scene & [ss1 w1] & Hm & Hb)].
  { apply on_session_sessions in Hm as (game' & -> & _).
    split; [right; by exists key, game, game' | discriminate]. }
  apply on_session_sessions in Hm as (game' & -> & _).
  pose proof (main_respond_keeps _ _ _ _ _ Hb) as Hk. simpl in Hk. subst sessions'.
  split; [right; by exists key, game, game' |].
  intros resp ->. right. by eapply main_respond_json.
Qed.

Lemma copy_choice_body reqBody sessions w r sessions' w' :
  (sessionId ← lift (Get reqBody "sessionId");
   choiceIndex ← lift (Get reqBody "choiceIndex");
   sessions ← the_sessions;
   match sessionId, sessions_get sessions sessionId with
   | JStr key, Some game =>
       index ← lift (parseInt10 choiceIndex);
       nextScene ← on_session key game (CopyGame.makeChoice index);
       CopyServer.respond sessionId nextScene
   | _, _ => mret (status_json 404 (error_body "Game session not found"))
   end) (sessions, w)
  = (r, (sessions', w')) ->
  choice_outcome reqBody sessions sessions' r.
Proof.
  intros Hb.
  apply bind_inv in Hb as [(e & Hm & ->) | (sid & [ss1 w1] & Hm & Hb)].
  { injection Hm as _ <- <-. split; [by left | discriminate]. }
  injection Hm as Hsid <- <-.
  apply bind_inv in Hb as [(e & Hm & ->) | (ci & [ss1 w1] & Hm & Hb)].
  { injection Hm as _ <- <-. split; [by left | discriminate]. }
  injection Hm as Hci <- <-.
  apply bind_inv in Hb as [(e & Hm & ->) | (ss & [ss1 w1] & Hm & Hb)];
    [discriminate Hm |].
  injection Hm as <- <- <-. change ((sessions, w).1) with sessions in Hb.
  assert (Hmiss : (r, (sessions', w')) = (Normal not_found, (sessions, w)) ->
                  (forall key, sid = JStr key -> sessions !! key = None) ->
                  choice_outcome reqBody sessions sessions' r).
  { intros [= -> -> ->] Hnone. split; [by left |].
    intros resp [= <-]. left. split; [reflexivity |].
    intros key Hkey. rewrite Hsid in Hkey. injection Hkey as ->. by apply Hnone. }
  destruct sid as [| | | | key | | | |];
    try (apply Hmiss; [by rewrite <- Hb | discriminate]).
  change (sessions_get sessions (JStr key)) with (sessions !! key) in Hb.
  destruct (sessions !! key) as [game |] eqn:Hkey.
  2: { apply Hmiss; [by rewrite <- Hb | by intros ? [= <-]]. }
  clear Hmiss.
  apply bind_inv in Hb as [(e & Hm & ->) | (idx & [ss1 w1] & Hm & Hb)].
  { injection Hm as _ <- <-. split; [by left | discriminate]. }
  injection Hm as Hidx <- <-.
  apply bind_inv in Hb as [(e & Hm & ->) | (scene & [ss1 w1] & Hm & Hb)].
  { apply on_session_sessions in Hm as (game' & -> & _).
    split; [right; by exists key, game, game' | discriminate]. }
  apply on_session_sessions in Hm as (game' & -> & _).
  pose proof (copy_respond_keeps _ _ _ _ _ Hb) as Hk. simpl in Hk. subst sessions'.
  split; [right; by exists key, game, game' |].
  intros resp ->. right. by eapply copy_respond_json.
Qed.

End HandlerFacts.

Section HandlerAnswers.
Context `{Provider} `{JsonParser}.

Lemma main_start_answer now st :
  exists resp st',
    MainServer.start now st = (Normal resp, st')
    /\ (status resp = 200 \/ resp = start_failed)
    /\ stored_at (pretty now) st.1 st'.1
    /\ (status resp = 200 -> exists game, st'.1 = <[pretty now := game]> st.1).
Proof.
  destruct st as [sessions w]. unfold MainServer.start.
  match goal with |- context [try_catchM ?m _] =>
    destruct (guarded_answer m start_failed (sessions, w))
      as (resp & [ss' w'] & Heq & [Hbody | [Hfail [e Hbody]]]);
    exists resp; exists (ss', w'); (split; [exact Heq |]);
    apply main_start_body in Hbody as [Hst Hresp]
  end.
  - destruct (Hresp resp eq_refl) as [[b ->] Hgame]. by repeat split; auto.
  - subst resp. split; [by right |]. split; [exact Hst | discriminate].
Qed.

Lemma copy_start_answer now st :
  exists resp st',
    CopyServer.start now st = (Normal resp, st')
    /\ (status resp = 200 \/ resp = start_failed)
    /\ stored_at (pretty now) st.1 st'.1
    /\ (status resp = 200 -> exists game, st'.1 = <[pretty now := game]> st.1).
Proof.
  destruct st as [sessions w]. unfold CopyServer.start.
  match goal with |- context [try_catchM ?m _] =>
    destruct (guarded_answer m start_failed (sessions, w))
      as (resp & [ss' w'] & Heq & [Hbody | [Hfail [e Hbody]]]);
    exists resp; exists (ss', w'); (split; [exact Heq |]);
    apply copy_start_body in Hbody as [Hst Hresp]
  end.
  - destruct (Hresp resp eq_refl) as [[b ->] Hgame]. by repeat split; auto.
  - subst resp. split; [by right |]. split; [exact Hst | discriminate].
Qed.

Lemma main_choice_answer reqBody st :
  exists resp st',
    MainServer.choice reqBody st = (Normal resp, st')
    /\ exists r, choice_outcome reqBody st.1 st'.1 r
                 /\ (r = Normal resp \/ resp = choice_failed /\ exists e, r = Throw e).
Proof.
  destruct st as [sessions w]. unfold MainServer.choice.
  match goal with |- context [try_catchM ?m _] =>
    destruct (guarded_answer m choice_failed (sessions, w))
      as (resp & [ss' w'] & Heq & [Hbody | [Hfail [e Hbody]]]);
    exists resp; exists (ss', w'); (split; [exact Heq |]);
    apply main_choice_body in Hbody
  end.
  - exists (Normal resp). split; [exact Hbody | by left].
  - exists (Throw e). split; [exact Hbody | right; split; [exact Hfail | by exists e]].
Qed.

Lemma copy_choice_answer reqBody st :
  exists resp st',
    CopyServer.choice reqBody st = (Normal resp, st')
    /\ exists r, choice_outcome reqBody st.1 st'.1 r
                 /\ (r = Normal resp \/ resp = choice_failed /\ exists e, r = Throw e).
Proof.
  destruct st as [sessions w]. unfold CopyServer.choice.
  match goal with |- context [try_catchM ?m _] =>
    destruct (guarded_answer m choice_failed (sessions, w))
      as (resp & [ss' w'] & Heq & [Hbody | [Hfail [e Hbody]]]);
    exists resp; exists (ss', w'); (split; [exact Heq |]);
    apply copy_choice_body in Hbody
  end.
  - exists (Normal resp). split; [exact Hbody | by left].
  - exists (Throw e). split; [exact Hbody | right; split; [exact Hfail | by exists e]].
Qed.

End HandlerAnswers.

Lemma choice_outcome_status {G} reqBody (sessions sessions' : gmap string G) r resp :
  choice_outcome reqBody sessions sessions' r ->
  r = Normal resp \/ resp = choice_failed /\ (exists e, r = Throw e) ->
  status resp = 200 \/ resp = not_found \/ resp = choice_failed.
Proof.
  intros [_ Hresp] [-> | [-> _]]; [| by right; right].
  destruct (Hresp resp eq_refl) as [[-> _] | [b ->]]; [by right; left | by left].
Qed.

Lemma choice_outcome_found {G} reqBody key game (sessions sessions' : gmap string G)
    r resp :
  choice_outcome reqBody sessions sessions' r ->
  r = Normal resp \/ resp = choice_failed /\ (exists e, r = Throw e) ->
  Get reqBody "sessionId" = Normal (JStr key) -> sessions !! key = Some game ->
  status resp = 200 \/ resp = choice_failed.
Proof.
  intros [_ Hresp] [-> | [-> _]] Hsid Hkey; [| by right].
  destruct (Hresp resp eq_refl) as [[-> Hnone] | [b ->]]; [| by left].
  rewrite (Hnone key Hsid) in Hkey. discriminate.
Qed.

Lemma choice_outcome_lookup {G} reqBody (sessions sessions' : gmap string G) r k :
  choice_outcome reqBody sessions sessions' r ->
  (is_Some (sessions' !! k) <-> is_Some (sessions !! k))
  /\ (Get reqBody "sessionId" <> Normal (JStr k) -> sessions' !! k = sessions !! k).
Proof.
  intros [[-> | (key & game & game' & Hsid & Hkey & ->)] _]; [by split |].
  destruct (decide (key = k)) as [<- | Hne].
  - rewrite lookup_insert_eq, Hkey. split; [by split; eexists | by intros []].
  - by rewrite lookup_insert_ne.
Qed.

Lemma stored_at_lookup {G} key (sessions sessions' : gmap string G) k :
  stored_at key sessions sessions' ->
  (is_Some (sessions !! k) -> is_Some (sessions' !! k))
  /\ (k <> key -> sessions' !! k = sessions !! k).
Proof.
  intros [-> | [game ->]]; [by split |].
  destruct (decide (key = k)) as [<- | Hne].
  - rewrite lookup_insert_eq. split; [by eexists | by intros []].
  - by rewrite lookup_insert_ne.
Qed.

(** X9: the four handlers never throw.  [POST /api/game/start] answers with
    status 200 or with the fixed 500 answer "Failed to start game";
    [POST /api/game/choice] answers with status 200, with the fixed 404
    answer "Game session not found", or with the fixed 500 answer
    "Failed to process choice".  This holds for every request body, session
    map and behaviour of the service and of [JSON.parse]. *)
Theorem handlers_always_answer (P : Provider) (J : JsonParser) :
  (forall now st, exists resp st',
      MainServer.start now st = (Normal resp, st')
      /\ (status resp = 200 \/ resp = start_failed))
  /\ (forall reqBody st, exists resp st',
        MainServer.choice reqBody st = (Normal resp, st')
        /\ (status resp = 200 \/ resp = not_found \/ resp = choice_failed))
  /\ (forall now st, exists resp st',
        CopyServer.start now st = (Normal resp, st')
        /\ (status resp = 200 \/ resp = start_failed))
  /\ (forall reqBody st, exists resp st',
        CopyServer.choice reqBody st = (Normal resp, st')
        /\ (status resp = 200 \/ resp = not_found \/ resp = choice_failed)).
Proof.
  split; [| split; [| split]].
  - intros now st. destruct (main_start_answer now st) as (resp & st' & ? & ? & _).
    by exists resp, st'.
  - intros reqBody st.
    destruct (main_choice_answer reqBody st) as (resp & st' & ? & r & Hout & Hr).
    exists resp, st'. split; [done | by eapply choice_outcome_status].
  - intros now st. destruct (copy_start_answer now st) as (resp & st' & ? & ? & _).
    by exists resp, st'.
  - intros reqBody st.
    destruct (copy_choice_answer reqBody st) as (resp & st' & ? & r & Hout & Hr).
    exists resp, st'. split; [done | by eapply choice_outcome_status].
Qed.

(** The session map a handler leaves behind. *)
Definition sessions_after {G W A} (out : Completion A * (gmap string G * W))
  : gmap string G := out.2.1.

(** X10: no handler removes a session, and none touches another session's
    entry.  After [start] every key other than the new session id maps to
    what it mapped to before, and a key that was present still is; after
    [choice] exactly the keys present before are present, and every key
    other than the request's [sessionId] maps to what it mapped to before.
    The source has no [gameSessions.delete]: the map only grows. *)
Theorem handlers_keep_other_sessions (P : Provider) (J : JsonParser) w :
  (forall now (sessions : gmap string MainGame.GameState) k,
      (is_Some (sessions !! k) ->
       is_Some (sessions_after (MainServer.start now (sessions, w)) !! k))
      /\ (k <> pretty now ->
          sessions_after (MainServer.start now (sessions, w)) !! k = sessions !! k))
  /\ (forall reqBody (sessions : gmap string MainGame.GameState) k,
        (is_Some (sessions_after (MainServer.choice reqBody (sessions, w)) !! k)
         <-> is_Some (sessions !! k))
        /\ (Get reqBody "sessionId" <> Normal (JStr k) ->
            sessions_after (MainServer.choice reqBody (sessions, w)) !! k
            = sessions !! k))
  /\ (forall now (sessions : gmap string CopyGame.GameState) k,
        (is_Some (sessions !! k) ->
         is_Some (sessions_after (CopyServer.start now (sessions, w)) !! k))
        /\ (k <> pretty now ->
            sessions_after (CopyServer.start now (sessions, w)) !! k = sessions !! k))
  /\ (forall reqBody (sessions : gmap string CopyGame.GameState) k,
        (is_Some (sessions_after (CopyServer.choice reqBody (sessions, w)) !! k)
         <-> is_Some (sessions !! k))
        /\ (Get reqBody "sessionId" <> Normal (JStr k) ->
            sessions_after (CopyServer.choice reqBody (sessions, w)) !! k
            = sessions !! k)).
Proof.
  split; [| split; [| split]].
  - intros now sessions k.
    destruct (main_start_answer now (sessions, w)) as (resp & st' & -> & _ & Hst & _).
    by apply stored_at_lookup.
  - intros reqBody sessions k.
    destruct (main_choice_answer reqBody (sessions, w))
      as (resp & st' & -> & r & Hout & _).
    by eapply choice_outcome_lookup.
  - intros now sessions k.
    destruct (copy_start_answer now (sessions, w)) as (resp & st' & -> & _ & Hst & _).
    by apply stored_at_lookup.
  - intros reqBody sessions k.
    destruct (copy_choice_answer reqBody (sessions, w))
      as (resp & st' & -> & r & Hout & _).
    by eapply choice_outcome_lookup.
Qed.

Lemma handlers_keep_other_sessions_witness :
  sessions_after
    (@MainServer.start Fixtures.failing 7 (<["5" := Fixtures.mainStarted]> ∅, tt))
    !! "5" = Some Fixtures.mainStarted
  /\ sessions_after
       (@CopyServer.choice Fixtures.failing Fixtures.refParser
          (Fixtures.choiceRequest "7" 0)
          (<["5" := Fixtures.copyStarted]> ∅, tt))
     !! "5" = Some Fixtures.copyStarted.
Proof.
  destruct (handlers_keep_other_sessions Fixtures.failing Fixtures.refParser tt)
    as (Hstart & _ & _ & Hchoice).
  split.
  - destruct (Hstart 7 (<["5" := Fixtures.mainStarted]> ∅) "5") as [_ Hsame].
    etransitivity; [apply Hsame; discriminate | vm_compute; reflexivity].
  - destruct (Hchoice (Fixtures.choiceRequest "7" 0)
                (<["5" := Fixtures.copyStarted]> ∅) "5") as [_ Hsame].
    etransitivity; [apply Hsame; discriminate | vm_compute; reflexivity].
Defined.

(** X11: a session that [start] has answered for is found by [choice].  When
    [start] answers with status 200, the body's [sessionId] is the decimal
    time stamp, and a [choice] request with that id on the session map it
    left never gets the 404 answer: it is answered with status 200 or with
    the 500 answer "Failed to process choice". *)
Theorem started_session_is_found (P : Provider) (J : JsonParser) now w b w' ci w2 :
  (forall sessions sessions',
      MainServer.start now (sessions, w) = (Normal (json b), (sessions', w')) ->
      Get b "sessionId" = Normal (JStr (pretty now))
      /\ exists resp st2,
           MainServer.choice (JObj [("sessionId", JStr (pretty now)); ("choiceIndex", ci)])
             (sessions', w2)
           = (Normal resp, st2)
           /\ (status resp = 200 \/ resp = choice_failed))
  /\ (forall sessions sessions',
        CopyServer.start now (sessions, w) = (Normal (json b), (sessions', w')) ->
        Get b "sessionId" = Normal (JStr (pretty now))
        /\ exists resp st2,
             CopyServer.choice (JObj [("sessionId", JStr (pretty now)); ("choiceIndex", ci)])
             (sessions', w2)
             = (Normal resp, st2)
             /\ (status resp = 200 \/ resp = choice_failed)).
Proof.
  split; intros sessions sessions' Hstart.
  - apply main_start_ok in Hstart as [Hsid [game ->]]. split; [exact Hsid |].
    destruct (main_choice_answer
                (JObj [("sessionId", JStr (pretty now)); ("choiceIndex", ci)])
                (<[pretty now := game]> sessions, w2))
      as (resp & st2 & Heq & r & Hout & Hr).
    exists resp, st2. split; [exact Heq |].
    eapply (choice_outcome_found _ (pretty now) game); eauto.
    simpl. by rewrite lookup_insert_eq.
  - apply copy_start_ok in Hstart as [Hsid [game ->]]. split; [exact Hsid |].
    destruct (copy_choice_answer
                (JObj [("sessionId", JStr (pretty now)); ("choiceIndex", ci)])
                (<[pretty now := game]> sessions, w2))
      as (resp & st2 & Heq & r & Hout & Hr).
    exists resp, st2. split; [exact Heq |].
    eapply (choice_outcome_found _ (pretty now) game); eauto.
    simpl. by rewrite lookup_insert_eq.
Qed.

Lemma started_session_is_found_witness :
  exists b sessions' resp st2,
    @MainServer.start Fixtures.failing 7 (∅, tt) = (Normal (json b), (sessions', tt))
    /\ Get b "sessionId" = Normal (JStr "7")
    /\ @MainServer.choice Fixtures.failing (Fixtures.choiceRequest "7" 0) (sessions', tt)
       = (Normal resp, st2)
    /\ (status resp = 200 \/ resp = choice_failed).
Proof.
  eassert (Hstart : @MainServer.start Fixtures.failing 7 (∅, tt)
                    = (Normal (json _), (_, tt))) by (vm_compute; reflexivity).
  destruct (started_session_is_found Fixtures.failing Fixtures.refParser
              7 tt (degraded_body "7") tt (JNum (Num 0)) tt) as [Hmain _].
  destruct (Hmain _ _ Hstart) as (Hsid & resp & st2 & Hchoice & Hstatus).
  eexists _, _, resp, st2.
  split; [exact Hstart |]. split; [exact Hsid |]. split; [exact Hchoice | exact Hstatus].
Defined.

(** ** A rejected choice at the copy server *)

(** X12: at the copy server a [choice] request for a stored session whose
    index selects a falsy entry (an index out of range, say) is answered
    with the 500 answer "Failed to process choice", without a call to the
    service; the engine stored under the session id has by then the current
    scene appended to its history, so every rejected request makes the
    stored history one entry longer while the scene stays the same. *)
Theorem copy_choice_invalid_index_persists (P : Provider) (J : JsonParser)
    key ci idx game copy sceneChoices selectedChoice
    (sessions : gmap string CopyGame.GameState) w :
  sessions !! key = Some game ->
  parseInt10 ci = Normal idx ->
  spread (CopyGame.currentScene game) = Normal copy ->
  Get (CopyGame.currentScene game) "choices" = Normal sceneChoices ->
  GetIdx sceneChoices idx = Normal selectedChoice ->
  truthy selectedChoice = false ->
  exists game',
    CopyServer.choice (JObj [("sessionId", JStr key); ("choiceIndex", ci)])
      (sessions, w)
    = (Normal choice_failed, (<[key := game']> sessions, w))
    /\ CopyGame.history game' = CopyGame.history game ++ [copy]
    /\ CopyGame.currentScene game' = CopyGame.currentScene game.
Proof.
  intros Hkey Hci Hcopy Hch Hidx Hfalsy. exists (pushed game copy).
  split; [| split; reflexivity].
  unfold CopyServer.choice, try_catchM, lift, the_sessions, gets, on_session.
  unfold mbind at 1, M_bind. simpl Get. cbv beta iota.
  unfold mbind at 1, M_bind. cbv beta iota.
  unfold mbind at 1, M_bind. cbv beta iota.
  change ((sessions, w).1) with sessions.
  change (sessions_get sessions (JStr key)) with (sessions !! key).
  rewrite Hkey. cbv beta iota.
  unfold mbind at 1, M_bind. rewrite Hci. cbv beta iota.
  unfold mbind at 1, M_bind.
  rewrite (makeChoice_invalid idx game w copy sceneChoices selectedChoice
             Hcopy Hch Hidx Hfalsy).
  reflexivity.
Qed.

Lemma copy_choice_invalid_index_persists_witness :
  exists game',
    @CopyServer.choice Fixtures.failing Fixtures.refParser
      (JObj [("sessionId", JStr "5"); ("choiceIndex", JStr "3")])
      (<["5" := Fixtures.copyStarted]> ∅, tt)
    = (Normal choice_failed, (<["5" := game']> (<["5" := Fixtures.copyStarted]> ∅), tt))
    /\ CopyGame.history game'
       = CopyGame.history Fixtures.copyStarted ++ [Fixtures.copyStartedScene]
    /\ CopyGame.currentScene game' = CopyGame.currentScene Fixtures.copyStarted.
Proof.
  assert (Hin : (<["5" := Fixtures.copyStarted]> ∅ : gmap string CopyGame.GameState)
                !! "5" = Some Fixtures.copyStarted) by (vm_compute; reflexivity).
  apply (copy_choice_invalid_index_persists Fixtures.failing Fixtures.refParser
           "5" (JStr "3") (Num 3) Fixtures.copyStarted Fixtures.copyStartedScene
           (str_list CopyGame.initialChoices) JUndefined
           (<["5" := Fixtures.copyStarted]> ∅) tt Hin);
    reflexivity.
Defined.

(** ** [generateSpeech] *)

(** The text [generateSpeech] sends to the service for the text [t]. *)
Definition speechText (t : string) : string :=
  if Str.includes "[S1]" t || Str.includes "[S2]" t then t else "[S1] " +:+ t.

Lemma speechText_tagged t :
  Str.includes "[S1]" (speechText t) || Str.includes "[S2]" (speechText t) = true.
Proof.
  unfold speechText.
  destruct (Str.includes "[S1]" t || Str.includes "[S2]" t) eqn:Htag; [exact Htag |].
  reflexivity.
Qed.

Section SpeechFacts.
Context `{Provider}.

Lemma generateSpeech_string t w :
  MainServer.generateSpeech (JStr t) w
  = try_catchM
      (result ← subscribe "fal-ai/dia-tts" (JObj [("text", JStr (speechText t))]);
       _ ← lift (Get result "requestId");
       data ← lift (Get result "data");
       if truthy data then
         audio ← lift (Get data "audio");
         url ← lift (Get audio "url");
         if truthy url then mret url else mret JNull
       else mret JNull)
      (fun _ => mret JNull) w.
Proof.
  unfold MainServer.generateSpeech, try_catchM, speechText.
  unfold mbind at 1 6, M_bind, lift.
  change (call_substring (JStr t) 100) with (Normal (Str.take 100 t)). cbv beta iota.
  unfold mbind at 1 5, M_bind.
  change (call_includes (JStr t) "[S1]") with (Normal (Str.includes "[S1]" t)).
  cbv beta iota.
  unfold mbind at 1 4, M_bind.
  destruct (Str.includes "[S1]" t); cbv beta iota;
    [| change (call_includes (JStr t) "[S2]") with (Normal (Str.includes "[S2]" t)) ];
    unfold mbind at 1, M_bind; reflexivity.
Qed.

Lemma generateSpeech_result text w url w' :
  MainServer.generateSpeech text w = (url, w') ->
  exists u, url = Normal u /\ (u = JNull \/ truthy u = true).
Proof.
  unfold MainServer.generateSpeech, try_catchM.
  match goal with |- context [match ?m w with _ => _ end] =>
    destruct (m w) as [[u | e] w1] eqn:Hbody end.
  2: { intros [= <- _]. exists JNull. by split; [| left]. }
  intros [= <- <-]. exists u. split; [reflexivity |].
  repeat (apply bind_normal_inv in Hbody as (? & ? & _ & Hbody)).
  repeat match type of Hbody with
         | (if ?b then _ else _) _ = _ => destruct b eqn:?
         | (_ ≫= _) _ = _ => apply bind_normal_inv in Hbody as (? & ? & _ & Hbody)
         end;
    injection Hbody as <- _; auto.
Qed.

Lemma generateSpeech_not_string text w :
  (forall t, text <> JStr t) ->
  MainServer.generateSpeech text w = (Normal JNull, w).
Proof.
  intros Hns. unfold MainServer.generateSpeech, try_catchM.
  unfold mbind at 1, M_bind, lift.
  destruct text; try reflexivity.
  by destruct (Hns s).
Qed.

End SpeechFacts.

(** X13: [generateSpeech] never throws and returns [null] or a truthy URL.
    For a value that is no string it returns [null] without calling the
    service.  For a string the one call it makes sends the text itself when
    that contains "[S1]" or "[S2]" and the text after "[S1] " otherwise, so
    the text sent always carries a speaker tag; when the service answers
    with a result whose [requestId] and [data] can be read, whose [data] is
    truthy and whose [data.audio], whatever else it holds, has a truthy
    [url], that URL is the result. *)
Theorem generateSpeech_behaviour (P : Provider) :
  (forall text w, exists url w',
      MainServer.generateSpeech text w = (Normal url, w')
      /\ (url = JNull \/ truthy url = true))
  /\ (forall text w, (forall t, text <> JStr t) ->
        MainServer.generateSpeech text w = (Normal JNull, w))
  /\ (forall t, Str.includes "[S1]" (speechText t)
                || Str.includes "[S2]" (speechText t) = true)
  /\ (forall t w result requestId data audio url w',
        fal_subscribe "fal-ai/dia-tts" (JObj [("text", JStr (speechText t))]) w
        = (Normal result, w') ->
        Get result "requestId" = Normal requestId ->
        Get result "data" = Normal data -> truthy data = true ->
        Get data "audio" = Normal audio ->
        Get audio "url" = Normal url -> truthy url = true ->
        MainServer.generateSpeech (JStr t) w = (Normal url, w')).
Proof.
  split; [| split; [| split]].
  - intros text w.
    destruct (MainServer.generateSpeech text w) as [r w'] eqn:Hgen.
    destruct (generateSpeech_result _ _ _ _ Hgen) as (u & -> & Hu). by exists u, w'.
  - intros text w. apply generateSpeech_not_string.
  - apply speechText_tagged.
  - intros t w result requestId data audio url w' Hsub Hrid Hdata Htd Haudio Hurl Htu.
    rewrite generateSpeech_string. unfold try_catchM, subscribe.
    unfold mbind at 1, M_bind. rewrite Hsub. cbv beta iota.
    unfold mbind at 1, M_bind, lift. rewrite Hrid.
    cbv beta iota. unfold mbind at 1, M_bind. rewrite Hdata. cbv beta iota.
    rewrite Htd. cbv iota.
    unfold mbind at 1, M_bind. rewrite Haudio. cbv beta iota.
    unfold mbind at 1, M_bind. rewrite Hurl.
    cbv beta iota. rewrite Htu. reflexivity.
Qed.

(** An answer of the speech service, with more than the URL in [audio]. *)
Definition speechAnswer : JsVal :=
  JObj [("data", JObj [("audio", JObj [("url", JStr "https://a/1.mp3");
                                       ("content_type", JStr "audio/mpeg");
                                       ("file_size", JNum (Num 4096))])]);
        ("requestId", JStr "r1")].

Lemma generateSpeech_behaviour_witness :
  @MainServer.generateSpeech Fixtures.scripted (JStr "Night falls.")
    [Normal speechAnswer]
  = (Normal (JStr "https://a/1.mp3"), []).
Proof.
  destruct (generateSpeech_behaviour Fixtures.scripted) as (_ & _ & _ & Hurl).
  apply (Hurl "Night falls." [Normal speechAnswer] speechAnswer (JStr "r1")
           (JObj [("audio", JObj [("url", JStr "https://a/1.mp3");
                                  ("content_type", JStr "audio/mpeg");
                                  ("file_size", JNum (Num 4096))])])
           (JObj [("url", JStr "https://a/1.mp3");
                  ("content_type", JStr "audio/mpeg");
                  ("file_size", JNum (Num 4096))])
           (JStr "https://a/1.mp3") []);
    reflexivity.
Defined.

(** ** The copy engine's [generateChoices] *)

Lemma completion_bind_inv {A B} (m : Completion A) (k : A -> Completion B) b :
  m ≫= k = Normal b -> exists a, m = Normal a /\ k a = Normal b.
Proof. destruct m as [a | e]; [| discriminate]. intros Hk. by exists a. Qed.

Section CopyChoicesFacts.
Context `{Provider} `{JsonParser}.

Lemma choicesFromJson_nonempty d c :
  CopyGame.choicesFromJson d = Normal (Some c) -> nonempty_array c.
Proof.
  unfold CopyGame.choicesFromJson. intros Hc.
  apply completion_bind_inv in Hc as (from_match & Hm & Hc).
  destruct from_match as [parsedData |].
  - injection Hc as <-.
    destruct (Str.match_brackets d) as [whole |]; [| discriminate].
    apply completion_bind_inv in Hm as (p & _ & Hp).
    destruct p as [| | | | | [| x l] | | |]; try discriminate.
    injection Hp as <-. by exists x, l.
  - apply completion_bind_inv in Hc as (p & _ & Hp).
    destruct p as [| | | | | [| x l] | | |]; try discriminate.
    injection Hp as <-. by exists x, l.
Qed.

Lemma choicesFromLines_triple d c :
  CopyGame.choicesFromLines d = Some c ->
  exists a b c', c = str_list [a; b; c'].
Proof.
  unfold CopyGame.choicesFromLines.
  destruct (3 <=? length (List.filter CopyGame.keep_line (Str.split_lines d)))%nat
    eqn:Hlen; [| discriminate].
  apply Nat.leb_le in Hlen. intros [= <-].
  destruct (List.filter CopyGame.keep_line (Str.split_lines d))
    as [| a [| b [| c' rest]]]; simpl in Hlen; try lia.
  by eexists _, _, _.
Qed.

Lemma copy_choicesOfResult_nonempty result r :
  CopyGame.choicesOfResult result = Normal r -> nonempty_array r.
Proof.
  assert (Hdef : nonempty_array (str_list CopyGame.defaultChoices))
    by (by eexists _, _).
  unfold CopyGame.choicesOfResult. intros Hr.
  apply completion_bind_inv in Hr as (has_data & _ & Hr).
  destruct has_data; [| by injection Hr as <-].
  apply completion_bind_inv in Hr as (data & _ & Hr).
  apply completion_bind_inv in Hr as (o & Ho & Hr).
  injection Hr as <-. destruct o as [c |]; [| exact Hdef]. simpl default.
  unfold try_catch in Ho.
  match type of Ho with match ?m with _ => _ end = _ =>
    destruct m as [o | e] eqn:Htry end.
  - injection Ho as ->. destruct data; try discriminate.
    + by eapply choicesFromJson_nonempty.
    + injection Htry as <-. destruct elems as [| x l]; [exact Hdef | by exists x, l].
  - apply completion_bind_inv in Ho as (msg & _ & Ho). injection Ho as Ho.
    destruct data; try discriminate.
    destruct (choicesFromLines_triple _ _ Ho) as (a & b & c' & ->). by eexists _, _.
Qed.

Lemma copy_generateChoices_result sceneText w r w' :
  CopyGame.generateChoices sceneText w = (r, w') ->
  exists c, r = Normal c /\ nonempty_array c.
Proof.
  assert (Hdef : nonempty_array (str_list CopyGame.defaultChoices))
    by (by eexists _, _).
  unfold CopyGame.generateChoices.
  destruct sceneText; try (intros [= <- _]; by eexists).
  unfold try_catchM.
  match goal with |- context [match ?m w with _ => _ end] =>
    destruct (m w) as [[c | e] w1] eqn:Hbody end.
  2: { intros [= <- _]. by eexists. }
  intros [= <- <-]. exists c. split; [reflexivity |].
  apply bind_normal_inv in Hbody as (result & w2 & _ & Hbody).
  injection Hbody as Hc _. by eapply copy_choicesOfResult_nonempty.
Qed.

End CopyChoicesFacts.

(** X14: the copy engine's [generateChoices] never throws and always returns
    a non-empty array, for every scene text, every answer of the service and
    every behaviour of [JSON.parse]; for a scene text that is no string it
    returns the three default choices without calling the service.  When
    the service's data is a string that [JSON.parse] rejects and that has
    three lines left after filtering, the result is exactly three strings. *)
Theorem copy_generateChoices_nonempty (P : Provider) (J : JsonParser) :
  (forall sceneText w, exists x l w',
      CopyGame.generateChoices sceneText w = (Normal (JArr (x :: l)), w'))
  /\ (forall sceneText w, (forall t, sceneText <> JStr t) ->
        CopyGame.generateChoices sceneText w
        = (Normal (str_list CopyGame.defaultChoices), w))
  /\ (forall d c, CopyGame.choicesFromLines d = Some c ->
        exists a b c', c = JArr [JStr a; JStr b; JStr c']).
Proof.
  split; [| split].
  - intros sceneText w.
    destruct (CopyGame.generateChoices sceneText w) as [r w'] eqn:Hgen.
    destruct (copy_generateChoices_result _ _ _ _ Hgen) as (c & -> & x & l & ->).
    by exists x, l, w'.
  - intros sceneText w Hns. destruct sceneText; try reflexivity. by destruct (Hns s).
  - intros d c Hc. exact (choicesFromLines_triple d c Hc).
Qed.

Lemma copy_generateChoices_nonempty_witness :
  @CopyGame.generateChoices Fixtures.scripted Fixtures.refParser (JNum (Num 4)) []
  = (Normal (str_list CopyGame.defaultChoices), [])
  /\ exists a b c, CopyGame.choicesFromLines "1. Go north
2) Rest
- Call out" = Some (JArr [JStr a; JStr b; JStr c]).
Proof.
  destruct (copy_generateChoices_nonempty Fixtures.scripted Fixtures.refParser)
    as (_ & Hother & Hlines).
  split; [apply Hother; discriminate |].
  destruct (Hlines "1. Go north
2) Rest
- Call out" _ eq_refl) as (a & b & c & Heq).
  exists a, b, c. by rewrite <- Heq.
Defined.

(** ** [extractText] on strings *)

(** X15: what the copy server's [extractText] makes of a string.  The empty
    string gives the default text.  A non-empty string is returned as it is
    when [JSON.parse] rejects it, when the parsed value has no truthy
    [output], and when reading [output] throws (the parsed value being
    [null]); it is replaced by [output] exactly when that is truthy.  An
    object whose [data] is the string gives the same result as the string
    itself; the outer catch block is not reached. *)
Theorem extractText_of_string (J : JsonParser) :
  CopyIndex.extractText (JStr "") = JStr "The adventure continues..."
  /\ forall s, s <> "" ->
       (forall e, JSON_parse s = Throw e -> CopyIndex.extractText (JStr s) = JStr s)
       /\ (forall parsed e,
             JSON_parse s = Normal parsed -> Get parsed "output" = Throw e ->
             CopyIndex.extractText (JStr s) = JStr s)
       /\ (forall parsed output,
             JSON_parse s = Normal parsed -> Get parsed "output" = Normal output ->
             CopyIndex.extractText (JStr s) = if truthy output then output else JStr s)
       /\ (forall fields,
             Get (JObj fields) "data" = Normal (JStr s) ->
             CopyIndex.extractText (JObj fields) = CopyIndex.extractText (JStr s)).
Proof.
  split; [reflexivity |]. intros s Hs.
  assert (Htruthy : truthy (JStr s) = true) by (by destruct s).
  assert (Hstr : CopyIndex.extractText_try (JStr s) = CopyIndex.parsed_output_or s).
  { unfold CopyIndex.extractText_try. by rewrite Htruthy. }
  split; [| split; [| split]].
  - intros e He. unfold CopyIndex.extractText. rewrite Hstr.
    unfold CopyIndex.parsed_output_or. by rewrite He.
  - intros parsed e Hp Ho. unfold CopyIndex.extractText. rewrite Hstr.
    unfold CopyIndex.parsed_output_or. rewrite Hp.
    change (mbind ?k (Normal parsed)) with (k parsed). cbv beta. by rewrite Ho.
  - intros parsed output Hp Ho. unfold CopyIndex.extractText. rewrite Hstr.
    unfold CopyIndex.parsed_output_or. rewrite Hp.
    change (mbind ?k (Normal parsed)) with (k parsed). cbv beta. by rewrite Ho.
  - intros fields Hdata. unfold CopyIndex.extractText. rewrite Hstr.
    unfold CopyIndex.extractText_try. change (truthy (JObj fields)) with true.
    change (typeof (JObj fields)) with "object". cbv beta iota. simpl negb. cbv iota.
    change (String.eqb "object" "object") with true. cbv iota.
    rewrite Hdata. change (mbind ?k (Normal (JStr s))) with (k (JStr s)). cbv beta.
    by rewrite Htruthy.
Qed.

Lemma extractText_of_string_witness :
  @CopyIndex.extractText Fixtures.refParser (JStr "Once upon a time")
  = JStr "Once upon a time"
  /\ @CopyIndex.extractText Fixtures.refParser (JStr "17") = JStr "17"
  /\ @CopyIndex.extractText Fixtures.refParser (JObj [("data", JStr "null")])
     = JStr "null".
Proof.
  destruct (extractText_of_string Fixtures.refParser) as [_ Hs].
  split; [| split].
  - destruct (Hs "Once upon a time" ltac:(discriminate)) as (Hthrow & _).
    eapply Hthrow. vm_compute. reflexivity.
  - destruct (Hs "17" ltac:(discriminate)) as (_ & _ & Hout & _).
    apply (Hout (JNum (Num 17)) JUndefined); vm_compute; reflexivity.
  - destruct (Hs "null" ltac:(discriminate)) as (_ & Hnull & _ & Hdata).
    rewrite (Hdata [("data", JStr "null")] eq_refl).
    eapply (Hnull JNull); vm_compute; reflexivity.
Defined.

(** ** A rejection that is no object *)

(** The value a catch block of the engines throws when the service rejects
    with [null] or [undefined]: reading a property of the caught value is a
    [TypeError]. *)
Definition nullish (e : JsVal) : Prop := e = JNull \/ e = JUndefined.

Lemma Get_nullish e p :
  nullish e -> Get e p = Throw (TypeError "Cannot read properties of undefined or null").
Proof. by intros [-> | ->]. Qed.

(** X16: the catch blocks of the engines read [error.status] and
    [error.message] of whatever was thrown.  When the first call of the
    service rejects with [null] or [undefined], that read throws inside the
    catch block, [generateStoryText] throws instead of returning its
    fallback, and [POST /api/game/start] of either server answers with the
    500 answer "Failed to start game" and stores no session. *)
Theorem start_fails_on_nullish_rejection (P : Provider) (J : JsonParser)
    now e w w' :
  nullish e ->
  (truthy FAL_KEY = true ->
   fal_subscribe "fal-ai/any-llm"
     (JObj [("prompt", JStr (MainGame.storyPrompt MainGame.initialContext "Game start"))])
     w = (Throw e, w') ->
   forall sessions,
     MainServer.start now (sessions, w) = (Normal start_failed, (sessions, w')))
  /\ (fal_subscribe "fal-ai/any-llm"
        (JObj [("prompt", JStr (CopyGame.storyPrompt CopyGame.initialContext "Game start"))])
        w = (Throw e, w') ->
      forall sessions,
        CopyServer.start now (sessions, w) = (Normal start_failed, (sessions, w'))).
Proof.
  intros He. split.
  - intros Hkey Hsub sessions.
    assert (Hgen : forall g,
               MainGame.generateStoryText (JStr MainGame.initialContext)
                 (JStr "Game start") (g, w)
               = (Throw (TypeError "Cannot read properties of undefined or null"),
                  (g, w'))).
    { intros g. unfold MainGame.generateStoryText. unfold MainGame.Eng.
      rewrite (bind_normal _ _ _ _ _ (configure_ok Hkey _)).
      rewrite (lift_bind_normal _ _ _ MainGame.initialContext eq_refl).
      rewrite (lift_bind_normal _ _ _ "Game start" eq_refl).
      unfold try_catchM, on_world, subscribe. rewrite Hsub.
      unfold mbind at 1, M_bind, lift. by rewrite (Get_nullish e "status" He). }
    unfold MainServer.start, try_catchM, lift, on_new_engine, MainGame.newGameState.
    rewrite Hkey. unfold mbind at 1, M_bind. cbv beta iota.
    change (negb true) with false. cbv iota.
    unfold mbind at 1, M_bind.
    unfold MainGame.startNewGame. unfold MainGame.Eng.
    rewrite (bind_normal _ _ _ _ _ (configure_ok Hkey _)).
    rewrite (bind_throw _ _ _ _ _ (Hgen _)). reflexivity.
  - intros Hsub sessions.
    assert (Hgen : CopyGame.generateStoryText (JStr CopyGame.initialContext)
                     (JStr "Game start") w
                   = (Throw (TypeError "Cannot read properties of undefined or null"),
                      w')).
    { unfold CopyGame.generateStoryText.
      rewrite (lift_bind_normal _ _ _ CopyGame.initialContext eq_refl).
      rewrite (lift_bind_normal _ _ _ "Game start" eq_refl).
      unfold try_catchM, subscribe. unfold mbind at 1, M_bind. rewrite Hsub.
      unfold mbind at 1, M_bind, lift. by rewrite (Get_nullish e "message" He). }
    unfold CopyServer.start, try_catchM, on_new_engine.
    unfold mbind at 1, M_bind.
    unfold CopyGame.startNewGame. unfold CopyGame.Eng.
    unfold mbind at 1, M_bind, on_world. rewrite Hgen. reflexivity.
Qed.

Lemma start_fails_on_nullish_rejection_witness :
  @MainServer.start Fixtures.scripted 7 (<["5" := Fixtures.mainStarted]> ∅, [Throw JNull])
  = (Normal start_failed, (<["5" := Fixtures.mainStarted]> ∅, []))
  /\ @CopyServer.start Fixtures.scripted Fixtures.refParser 7 (∅, [Throw JUndefined])
     = (Normal start_failed, (∅, [])).
Proof.
  split.
  - destruct (start_fails_on_nullish_rejection Fixtures.scripted Fixtures.refParser
                7 JNull [Throw JNull] [] ltac:(by left)) as [Hmain _].
    apply Hmain; reflexivity.
  - destruct (start_fails_on_nullish_rejection Fixtures.scripted Fixtures.refParser
                7 JUndefined [Throw JUndefined] [] ltac:(by right)) as [_ Hcopy].
    apply Hcopy; reflexivity.
Defined.

(** ** The choices taken from quoted text *)

(** A string without a double quote and without a line terminator. *)
Definition plain_text (s : string) : Prop :=
  Str.no_char Str.dq s = true /\ Str.one_line s = true.

(** A match of the quoted-substring pattern: a plain text between quotes. *)
Definition quoted_plain (m : string) : Prop :=
  exists body, m = String Str.dq (body +:+ String Str.dq "") /\ plain_text body.

Lemma one_line_app s t : Str.one_line (s +:+ t) = Str.one_line s && Str.one_line t.
Proof.
  unfold Str.one_line. induction s as [| c s IH]; [reflexivity |].
  rewrite app_cons. simpl. rewrite IH. by rewrite andb_assoc.
Qed.

Lemma quoted_go_plain cur s :
  (forall acc, cur = Some acc -> exists body, acc = String Str.dq body /\ plain_text body) ->
  Forall quoted_plain (Str.quoted_go cur s).
Proof.
  revert cur. induction s as [| c s IH]; intros cur Hcur; [constructor |].
  simpl. destruct cur as [acc |].
  - destruct (Hcur acc eq_refl) as (body & -> & Hq & Hl).
    destruct (Str.is_dq c) eqn:Hc.
    + constructor.
      * exists body. split; [by rewrite app_cons | by split].
      * apply IH. discriminate.
    + destruct (Str.is_line_terminator c) eqn:Hlt.
      * apply IH. discriminate.
      * apply IH. intros acc' [= <-]. exists (body +:+ String c "").
        split; [by rewrite app_cons |]. split.
        -- rewrite no_char_app, Hq. unfold Str.no_char. simpl.
           unfold Str.is_dq in Hc. by rewrite Hc.
        -- rewrite one_line_app, Hl. unfold Str.one_line. simpl. by rewrite Hlt.
  - destruct (Str.is_dq c).
    + apply IH. intros acc [= <-]. exists "". by repeat split.
    + apply IH. discriminate.
Qed.

Lemma match_quoted_plain o ms :
  Str.match_quoted o = Some ms -> ms <> [] /\ Forall quoted_plain ms.
Proof.
  unfold Str.match_quoted.
  pose proof (quoted_go_plain None o ltac:(discriminate)) as Hall.
  destruct (Str.quoted_go None o) as [| m rest]; [discriminate |].
  intros [= <-]. by split.
Qed.

Lemma remove_quotes_plain m :
  quoted_plain m -> plain_text (Str.remove_quotes m).
Proof.
  intros (body & -> & Hq & Hl). by rewrite (remove_quotes_quoted body Hq).
Qed.

Lemma defaults_plain : Forall plain_text MainIndex.DEFAULT_CHOICES.
Proof. repeat constructor. Qed.

Lemma firstn_Forall {A} (Q : A -> Prop) n (l : list A) :
  Forall Q l -> Forall Q (firstn n l).
Proof.
  intros Hl. revert n. induction Hl as [| x l Hx Hl IH]; intros [| n]; simpl;
    constructor; auto.
Qed.

(** X17: the quoted-substring pattern and the choices made from it.  Every
    match is a text between two double quotes that holds neither a double
    quote nor a line terminator, so removing the quotes leaves exactly that
    text; and whatever the main server's [extractChoices] returns for a
    response that is no array is three strings without a double quote and
    without a line break. *)
Theorem extracted_choices_are_plain :
  (forall o ms, Str.match_quoted o = Some ms ->
     ms <> []
     /\ Forall (fun m => exists body,
                  m = String Str.dq (body +:+ String Str.dq "")
                  /\ Str.remove_quotes m = body
                  /\ Str.no_char Str.dq body = true /\ Str.one_line body = true) ms)
  /\ (forall v, Array_isArray v = false ->
        exists a b c,
          MainIndex.extractChoices v = str_list [a; b; c]
          /\ Forall (fun s => Str.no_char Str.dq s = true /\ Str.one_line s = true)
               [a; b; c]).
Proof.
  split.
  - intros o ms Hms. destruct (match_quoted_plain o ms Hms) as [Hne Hall].
    split; [exact Hne |].
    eapply Forall_impl; [exact Hall |].
    intros m (body & -> & Hq & Hl). exists body.
    split; [reflexivity |]. split; [by apply remove_quotes_quoted | by split].
  - intros v Harr.
    destruct (main_extractChoices_three v Harr) as (a & b & c & Heq).
    exists a, b, c. split; [exact Heq |].
    destruct (main_extractChoices_non_array v Harr)
      as [Hdef | (data & o & ms & _ & _ & Hms & Hex)].
    + rewrite Hdef in Heq. injection Heq as <- <- <-. apply defaults_plain.
    + rewrite Hex in Heq. unfold str_list in Heq. injection Heq as Heq.
      apply (f_equal (map (fun x => match x with JStr s => s | _ => "" end))) in Heq.
      rewrite map_map in Heq. simpl in Heq. rewrite map_id in Heq.
      change (Forall plain_text [a; b; c]). rewrite <- Heq.
      apply firstn_Forall. apply Forall_app. split; [| apply defaults_plain].
      apply Forall_map. destruct (match_quoted_plain o ms Hms) as [_ Hall].
      eapply Forall_impl; [exact Hall |]. intros m. apply remove_quotes_plain.
Qed.

Lemma extracted_choices_are_plain_witness :
  exists a b c,
    MainIndex.extractChoices (JObj [("data", JObj [("output", JStr "no choices")])])
    = str_list [a; b; c]
    /\ Forall (fun s => Str.no_char Str.dq s = true /\ Str.one_line s = true) [a; b; c].
Proof.
  destruct extracted_choices_are_plain as [_ Hplain].
  apply Hplain. reflexivity.
Defined.
